(** * Cupk_Vest web dashboard: indicator engine, insight engine, chart event bus

A shallow embedding of the computational core of the dashboard:

- [IndicatorEngine]: [processedData] of
  [web_dashboard/src/components/InteractiveStockChart.jsx]
  (moving averages, BOLL bands, volume colours);
- [InsightEngine]: the closures of [AnalysisInsights] in
  [web_dashboard/src/api.js] ([getValuationStatus], [calcGrowthRate],
  [getCashFlowHealth], [generateHighlights], [generateRisks]);
- [EventBus]: the class [ChartEventBus] ([on], [off], [emit], [clear]);
- [ScorePill], [RequestCache], [DataCharts]: the score badge, the request
  cache and the chart series of [web_dashboard/src/api.js];
- [IndustryComparison]: the radar data of [ComparisonRadar] and
  [renderDiff] of [ComparisonTable];
- [Linkage]: the subscriptions of [withChartLinkage];
- [ChartContainer]: [handleResize].

JavaScript numbers are IEEE-754 binary64 values; they are modelled by
Rocq's primitive floats, which implement the same format. *)

From Stdlib Require Import ZArith Bool Lia Floats.
From stdpp Require Import base option list sorting gmap strings.

Set Warnings "-inexact-float".

(* ===================================================================== *)
(** * The fragment of ECMAScript the code relies on *)
(* ===================================================================== *)

Module JS.

(** ** Arrays *)

Section Arrays.
Context {A : Type}.

(** A relative index of [Array.prototype.slice]: a negative index counts
    from the end, and the result is clamped to [0 .. len]. *)
Definition relative_index (len k : Z) : Z :=
  if (k <? 0)%Z then Z.max (len + k) 0 else Z.min k len.

(** [arr.slice(start, stop)]. *)
Definition slice (arr : list A) (start stop : Z) : list A :=
  let len := Z.of_nat (length arr) in
  let k := relative_index len start in
  let final := relative_index len stop in
  take (Z.to_nat (final - k)) (drop (Z.to_nat k) arr).

(** [arr.reduce(f, init)]: a left fold in index order. *)
Definition reduce {B : Type} (f : B -> A -> B) (init : B) (arr : list A) : B :=
  fold_left f arr init.
End Arrays.

(** ** Numbers *)

(** The arithmetic an array computation needs from its number type.  The
    indicator engine is written against this interface, so that what is
    proved about it holds for binary64 (the instance [float64] below) and
    for any exact arithmetic alike. *)
Class Arith (num : Type) := {
  of_Z : Z -> num;               (* an integer literal or length *)
  nan : num;                     (* ToNumber(undefined) *)
  add : num -> num -> num;
  sub : num -> num -> num;
  mul : num -> num -> num;
  div : num -> num -> num;
  square : num -> num;           (* Math.pow(x, 2) *)
  sqrt : num -> num;             (* Math.sqrt *)
  geb : num -> num -> bool       (* x >= y *)
}.

(** The binary64 number nearest to an integer. *)
Definition float_of_Z (z : Z) : float :=
  SF2Prim (binary_normalize prec emax z 0 false).

(** JavaScript's own numbers.  [Math.pow(x, 2)] is taken to be the
    correctly rounded square. *)
#[export] Instance float64 : Arith float := {|
  of_Z := float_of_Z;
  nan := PrimFloat.nan;
  add := PrimFloat.add;
  sub := PrimFloat.sub;
  mul := PrimFloat.mul;
  div := PrimFloat.div;
  square := fun x => PrimFloat.mul x x;
  sqrt := PrimFloat.sqrt;
  geb := fun x y => PrimFloat.leb y x
|}.

(** ** Numbers in binary64 *)

(** A numeric property of a JSON object: [None] when the property is
    missing, so that reading it gives [undefined]. *)
Definition ToNumber (v : option float) : float :=
  match v with
  | Some x => x
  | None => PrimFloat.nan
  end.

(** [ToBoolean] of a number: [+0], [-0] and NaN are falsy. *)
Definition truthy (x : float) : bool :=
  negb (PrimFloat.eqb x 0) && negb (PrimFloat.is_nan x).

(** [ToBoolean] of a numeric property; [undefined] is falsy. *)
Definition ToBoolean (v : option float) : bool :=
  match v with
  | Some x => truthy x
  | None => false
  end.

(** [a > b] and [a < b] on numbers (false as soon as one is NaN). *)
Definition gt (a b : float) : bool := PrimFloat.ltb b a.
Definition lt (a b : float) : bool := PrimFloat.ltb a b.

(** ** [Number.prototype.toFixed] and template literals *)

(** The strings [toFixed] returns, by their structure.  [NumberString x] is
    [Number::toString(x)], returned for NaN, the infinities and magnitudes
    from [1e21]; [Decimal neg n f] is the decimal numeral of [n / 10^f]
    with exactly [f] fraction digits, preceded by [-] when [neg]. *)
Inductive FixedString :=
| NumberString (x : float)
| Decimal (negative : bool) (n : Z) (fractionDigits : nat).

(** [x.toFixed(fractionDigits)] (ECMA-262, 21.1.3.3): for a finite
    [|x| < 1e21], the integer [n] for which [n / 10^f - |x|] is as close to
    zero as possible, the larger one when there are two.  [|x|] is the
    exact real value [m * 2^e] of the binary64 number. *)
Definition toFixed (x : float) (fractionDigits : nat) : FixedString :=
  match Prim2SF x with
  | S754_nan | S754_infinity _ => NumberString x
  | S754_zero _ => Decimal false 0 fractionDigits
  | S754_finite s m e =>
      if (10 ^ 21 <=? Z.shiftl (Z.pos m) e)%Z then NumberString x
      else
        let scaled := (Z.pos m * 10 ^ Z.of_nat fractionDigits)%Z in
        Decimal s ((Z.shiftl scaled (e + 1) + 1) / 2)%Z fractionDigits
  end.

(** [ToNumber] of such a string ([StringToNumber]): the binary64 number
    nearest to the numeral; [Number::toString] round-trips. *)
Definition StringToNumber (s : FixedString) : float :=
  match s with
  | NumberString x => x
  | Decimal neg n f =>
      match n with
      | Z.pos p =>
          SF2Prim (SFdiv prec emax (S754_finite neg p 0)
                         (S754_finite false (Z.to_pos (10 ^ Z.of_nat f)) 0))
      | _ => if neg then (-0)%float else 0%float
      end
  end.

(** A template literal, by its parts: literal text, an interpolated
    [toFixed] string, an interpolated number ([Number::toString]). *)
Inductive TextPart :=
| Lit (s : string)
| Fixed (s : FixedString)
| Num (x : float).

Abbreviation Text := (list TextPart).

(** [v || d] for a numeric property: [d] when [v] is missing, zero or NaN. *)
Definition or_default (v : option float) (d : float) : float :=
  if ToBoolean v then ToNumber v else d.

(** [a >= b] on numbers (false as soon as one is NaN). *)
Definition ge (a b : float) : bool := PrimFloat.leb b a.

(** [arr.slice(start)]: the end defaults to the length. *)
Definition slice_from {A : Type} (arr : list A) (start : Z) : list A :=
  slice arr start (Z.of_nat (length arr)).

(** ** [Array.prototype.sort] *)

Section Sort.
Context {A : Type}.

(** Insertion of [x], which precedes the elements of the sorted [l] in the
    original array: [x] goes before the first element that does not have
    to come before it, so before the elements it compares equal to. *)
Fixpoint insert_sorted (compareFn : A -> A -> Z) (x : A) (l : list A) : list A :=
  match l with
  | [] => [x]
  | y :: l' =>
      if (compareFn x y <=? 0)%Z then x :: y :: l'
      else y :: insert_sorted compareFn x l'
  end.

(** [arr.sort(compareFn)]: a stable sort (ECMA-262 since ES2019): elements
    that compare equal keep their relative order. *)
Definition sort (compareFn : A -> A -> Z) (arr : list A) : list A :=
  foldr (insert_sorted compareFn) [] arr.
End Sort.

End JS.

(* ===================================================================== *)
(** * IndicatorEngine: [processedData] of InteractiveStockChart.jsx *)
(* ===================================================================== *)

Module IndicatorEngine.
Import JS.

(** One price bar of the [data] prop. *)
Module Bar.
Record t (num : Type) := mk {
  date : string;
  open : num;
  high : num;
  low : num;
  close : num;
  volume : num
}.
Arguments mk {num}.
Arguments date {num}.
Arguments open {num}.
Arguments high {num}.
Arguments low {num}.
Arguments close {num}.
Arguments volume {num}.
End Bar.

(** An array of [number | null]. *)
Abbreviation series num := (list (option num)).

Section Engine.
Context {num : Type} `{Arith num}.


(** [ToNumber] of the result of reading [ma[idx]]: a missing element
    reads as [undefined] (NaN), [null] converts to [+0]. *)
Definition read_number (ma : series num) (idx : nat) : num :=
  match ma !! idx with
  | Some (Some x) => x
  | Some None => of_Z 0
  | None => nan
  end.

(** [calculateMA(days)]; [close] is the array captured by the closure. *)
Definition calculateMA (close : list num) (days : Z) : series num :=
  imap (fun idx _ =>
          let arr := close in
          if (Z.of_nat idx <? days - 1)%Z then None
          else
            let slice := slice arr (Z.of_nat idx - days + 1) (Z.of_nat idx + 1) in
            let sum := reduce (fun a b => add a b) (of_Z 0) slice in
            Some (div sum (of_Z days)))
       close.

(** [calculateSTD(days, ma)]. *)
Definition calculateSTD (close : list num) (days : Z) (ma : series num) : series num :=
  imap (fun idx _ =>
          let arr := close in
          if (Z.of_nat idx <? days - 1)%Z then None
          else
            let avg := read_number ma idx in
            let slice := slice arr (Z.of_nat idx - days + 1) (Z.of_nat idx + 1) in
            let sumSquareDiff :=
              reduce (fun a b => add a (square (sub b avg))) (of_Z 0) slice in
            Some (sqrt (div sumSquareDiff (of_Z days))))
       close.

(** The callback of [bollUp] / [bollDn]:
    [(v !== null && std20[i] !== null) ? v ± 2 * std20[i] : null].
    [std20] has the length of [ma20], so [std20[i]] is an element. *)
Definition band (op : num -> num -> num) (std20 : series num) (i : nat) (v : option num)
  : option num :=
  match v, std20 !! i with
  | Some v, Some (Some s) => Some (op v (mul (of_Z 2) s))
  | Some v, None => Some (op v (mul (of_Z 2) nan))
  | _, _ => None
  end.

Definition upColor : string := "#ef5350".
Definition downColor : string := "#26a69a".

(** The value of the [useMemo] callback when it is not [null]. *)
Record Processed := {
  dates : list string;
  open : list num;
  high : list num;
  low : list num;
  close : list num;
  volume : list num;
  ma5 : series num;
  ma20 : series num;
  ma60 : series num;
  ma120 : series num;
  bollUp : series num;
  bollDn : series num;
  volColors : list string
}.

(** [processedData]: [None] is the JavaScript [null] of the first line. *)
Definition processedData (data : list (Bar.t num)) : option Processed :=
  if decide (length data = 0) then None
  else
    let dates := map Bar.date data in
    let open := map Bar.open data in
    let high := map Bar.high data in
    let low := map Bar.low data in
    let close := map Bar.close data in
    let volume := map Bar.volume data in
    let ma5 := calculateMA close 5 in
    let ma20 := calculateMA close 20 in
    let ma60 := calculateMA close 60 in
    let ma120 := calculateMA close 120 in
    let std20 := calculateSTD close 20 ma20 in
    let bollUp := imap (fun i v => band add std20 i v) ma20 in
    let bollDn := imap (fun i v => band sub std20 i v) ma20 in
    let volColors :=
      imap (fun i c =>
              if decide (i = 0) then upColor
              else
                match close !! (i - 1) with
                | Some p => if geb c p then upColor else downColor
                | None => downColor
                end)
           close in
    Some {| dates := dates; open := open; high := high; low := low;
            close := close; volume := volume;
            ma5 := ma5; ma20 := ma20; ma60 := ma60; ma120 := ma120;
            bollUp := bollUp; bollDn := bollDn; volColors := volColors |}.

(** *** Specification vocabulary *)

(** The moving average of window [N] in the output: [ma{N}]. *)
Definition ma (r : Processed) (N : nat) : series num :=
  match N with
  | 5 => ma5 r
  | 20 => ma20 r
  | 60 => ma60 r
  | 120 => ma120 r
  | _ => []
  end.

(** The closes [close[i-N+1 .. i]]. *)
Definition window (close : list num) (i N : nat) : list num :=
  take N (drop (i + 1 - N) close).

(** The arithmetic mean of a list: the sum of its elements over their number. *)
Definition arithmetic_mean (l : list num) : num :=
  div (fold_left add l (of_Z 0)) (of_Z (Z.of_nat (length l))).

(** The population standard deviation of a list around [avg]: the square
    root of the sum of squared deviations over the number of elements. *)
Definition population_std (l : list num) (avg : num) : num :=
  sqrt (div (fold_left (fun a b => add a (square (sub b avg))) l (of_Z 0))
            (of_Z (Z.of_nat (length l)))).

End Engine.
Arguments Processed num : clear implicits.

(** Sample input for concrete evaluation: 21 daily bars in binary64. *)
Definition sample_closes : list float :=
  [10; 10.5; 11; 10.75; 11.25; 11.5; 12; 11.75; 12.25; 12.5;
   13; 12.75; 13.25; 13.5; 14; 13.75; 14.25; 14.5; 15; 14.75; 15.25]%float.

Definition sample_bars : list (Bar.t float) :=
  map (fun c => Bar.mk "2024-01-02" c c c c 1000%float) sample_closes.

End IndicatorEngine.

(* ===================================================================== *)
(** * InsightEngine: the closures of [AnalysisInsights] in api.js *)
(* ===================================================================== *)

Module InsightEngine.
Import JS.
Local Open Scope float_scope.

(** ** The props [data] and [summary]

    The objects decoded from the report JSON.  Every numeric leaf is a
    number or is missing ([None]); the points of [annual_trend] are
    objects. *)

Module Scores.
Record t := mk {
  growth : option float;
  profitability : option float;
  stability : option float;
  safety : option float;
  valuation : option float;
  overall : option float
}.
Definition empty : t := mk None None None None None None.
End Scores.

Module Valuation.
Record t := mk {
  price : option float;
  pe_ttm : option float;
  pb : option float;
  dividend_yield : option float;
  dcf_per_share : option float;
  dcf_margin_of_safety : option float;
  ddm_gordon : option float;
  ddm_two_stage : option float
}.
Definition empty : t := mk None None None None None None None None.
End Valuation.

Module Fundamentals.
Record t := mk {
  revenue_yi : option float;
  net_profit_yi : option float;
  report_date : option string
}.
Definition empty : t := mk None None None.
End Fundamentals.

Module GrowthMomentum.
Record t := mk { summary : option string }.
Definition empty : t := mk None.
End GrowthMomentum.

Module CashFlow.
Record t := mk { latest_cfo_yi : option float }.
Definition empty : t := mk None.
End CashFlow.

Module AnnualPoint.
Record t := mk {
  revenue_yi : option float;
  net_profit_yi : option float
}.
End AnnualPoint.

(** The [data] prop: each group may be missing. *)
Module Data.
Record t := mk {
  scores : option Scores.t;
  valuation : option Valuation.t;
  fundamentals : option Fundamentals.t;
  growth_momentum : option GrowthMomentum.t;
  cash_flow : option CashFlow.t;
  annual_trend : option (list AnnualPoint.t)
}.
End Data.

(** The [summary] prop. *)
Module Summary.
Record t := mk {
  roe : option float;
  gross_margin : option float;
  debt_ratio : option float;
  net_margin : option float
}.
End Summary.

(** ** Results *)

Record ValuationStatus := { status : string; color : string }.

Record Growth := { revenueGrowth : FixedString; profitGrowth : FixedString }.

Module Health.
Record t := mk { status : string; color : string; desc : string }.
End Health.

Module Rating.
Record t := mk { label : string; action : string; color : string; bg : string }.
End Rating.

Module Highlight.
Record t := mk { text : Text; priority : Z }.
End Highlight.

Module Risk.
Record t := mk { text : Text; level : string }.
End Risk.

(** [arr.push(x)] on a local array. *)
Definition push {A : Type} (arr : list A) (x : A) : list A := arr ++ [x].

(** [s === literal] for an optional string property. *)
Definition is_string (v : option string) (literal : string) : bool :=
  match v with
  | Some s => String.eqb s literal
  | None => false
  end.

Section AnalysisInsights.
Variable data : Data.t.
Variable summary : Summary.t.

(** [data.valuation || {}] and its siblings. *)
Definition scores : Scores.t := default Scores.empty (Data.scores data).
Definition valuation : Valuation.t := default Valuation.empty (Data.valuation data).
Definition fundamentals : Fundamentals.t :=
  default Fundamentals.empty (Data.fundamentals data).
Definition growthMomentum : GrowthMomentum.t :=
  default GrowthMomentum.empty (Data.growth_momentum data).
Definition cashFlow : CashFlow.t := default CashFlow.empty (Data.cash_flow data).
Definition annualTrend : list AnnualPoint.t := default [] (Data.annual_trend data).

(** [getInvestmentRating(score)] *)
Definition getInvestmentRating (score : float) : Rating.t :=
  if ge score 80 then
    Rating.mk "强烈推荐" "可逢低分批建仓" "var(--color-success)" "rgba(0, 200, 83, 0.1)"
  else if ge score 70 then
    Rating.mk "推荐" "可择机介入" "var(--color-up)" "rgba(38, 166, 154, 0.1)"
  else if ge score 60 then
    Rating.mk "中性" "观望等待机会" "var(--color-warning)" "rgba(255, 152, 0, 0.1)"
  else
    Rating.mk "观望" "建议暂时回避" "var(--color-down)" "rgba(239, 83, 80, 0.1)".

(** [getInvestmentRating(scores.overall || 0)] *)
Definition rating : Rating.t :=
  getInvestmentRating (or_default (Scores.overall scores) 0).

(** [getValuationStatus]: the two counters are threaded through the three
    [if / else if] statements as a pair. *)
Definition getValuationStatus : ValuationStatus :=
  let dcfMargin := ToNumber (Valuation.dcf_margin_of_safety valuation) in
  let ddmGordon := Valuation.ddm_gordon valuation in
  let ddmTwoStage := Valuation.ddm_two_stage valuation in
  let currentPrice := Valuation.price valuation in
  if negb (ToBoolean currentPrice) then
    {| status := "无法判断"; color := "var(--text-muted)" |}
  else
    let undervaluedCount := 0%nat in
    let overvaluedCount := 0%nat in
    let '(undervaluedCount, overvaluedCount) :=
      if gt dcfMargin 20 then (S undervaluedCount, overvaluedCount)
      else if lt dcfMargin (-20) then (undervaluedCount, S overvaluedCount)
      else (undervaluedCount, overvaluedCount) in
    let '(undervaluedCount, overvaluedCount) :=
      if ToBoolean ddmGordon && lt (ToNumber currentPrice) (ToNumber ddmGordon * 0.8)
      then (S undervaluedCount, overvaluedCount)
      else if ToBoolean ddmGordon && gt (ToNumber currentPrice) (ToNumber ddmGordon * 1.2)
      then (undervaluedCount, S overvaluedCount)
      else (undervaluedCount, overvaluedCount) in
    let '(undervaluedCount, overvaluedCount) :=
      if ToBoolean ddmTwoStage && lt (ToNumber currentPrice) (ToNumber ddmTwoStage * 0.8)
      then (S undervaluedCount, overvaluedCount)
      else if ToBoolean ddmTwoStage && gt (ToNumber currentPrice) (ToNumber ddmTwoStage * 1.2)
      then (undervaluedCount, S overvaluedCount)
      else (undervaluedCount, overvaluedCount) in
    if (2 <=? undervaluedCount)%nat then
      {| status := "明显低估"; color := "var(--color-success)" |}
    else if (1 <=? undervaluedCount)%nat then
      {| status := "相对低估"; color := "var(--color-up)" |}
    else if (2 <=? overvaluedCount)%nat then
      {| status := "明显高估"; color := "var(--color-down)" |}
    else if (1 <=? overvaluedCount)%nat then
      {| status := "相对高估"; color := "var(--color-warning)" |}
    else
      {| status := "估值合理"; color := "var(--accent-primary)" |}.

Definition valuationStatus : ValuationStatus := getValuationStatus.

(** [calcGrowthRate]: [None] is [null].  Reading an index outside the array
    gives [undefined], which the guard [!latest || !prev] turns into [null]. *)
Definition calcGrowthRate : option Growth :=
  if (length annualTrend <? 2)%nat then None
  else
    match annualTrend !! (length annualTrend - 1)%nat,
          annualTrend !! (length annualTrend - 2)%nat with
    | Some latest, Some prev =>
        if negb (ToBoolean (AnnualPoint.revenue_yi prev)) then None
        else
          let revenueGrowth :=
            toFixed ((ToNumber (AnnualPoint.revenue_yi latest)
                      - ToNumber (AnnualPoint.revenue_yi prev))
                     / ToNumber (AnnualPoint.revenue_yi prev) * 100) 1 in
          let profitGrowth :=
            toFixed ((ToNumber (AnnualPoint.net_profit_yi latest)
                      - ToNumber (AnnualPoint.net_profit_yi prev))
                     / ToNumber (AnnualPoint.net_profit_yi prev) * 100) 1 in
          Some {| revenueGrowth := revenueGrowth; profitGrowth := profitGrowth |}
    | _, _ => None
    end.

Definition growth : option Growth := calcGrowthRate.

(** [getCashFlowHealth]. *)
Definition getCashFlowHealth : Health.t :=
  let cfo := CashFlow.latest_cfo_yi cashFlow in
  let netProfit := Fundamentals.net_profit_yi fundamentals in
  if negb (ToBoolean cfo) || negb (ToBoolean netProfit) then
    Health.mk "数据不足" "var(--text-muted)" ""
  else
    let ratio := ToNumber cfo / ToNumber netProfit in
    if gt ratio 1.2 then
      Health.mk "优秀" "var(--color-success)" "经营现金流远超净利润"
    else if gt ratio 0.8 then
      Health.mk "良好" "var(--color-up)" "现金流与利润匹配"
    else if gt ratio 0.5 then
      Health.mk "一般" "var(--color-warning)" "现金流略低于利润"
    else
      Health.mk "较差" "var(--color-down)" "利润质量存疑".

Definition cashFlowHealth : Health.t := getCashFlowHealth.

(** [growth && growth.revenueGrowth > c], and the same for [<] and for
    [profitGrowth]: the string is converted to a number by the comparison. *)
Definition growth_gt (field : Growth -> FixedString) (c : float) : bool :=
  match growth with
  | Some g => gt (StringToNumber (field g)) c
  | None => false
  end.

Definition growth_lt (field : Growth -> FixedString) (c : float) : bool :=
  match growth with
  | Some g => lt (StringToNumber (field g)) c
  | None => false
  end.

(** The string interpolated for [growth.revenueGrowth] once the guard
    [growth && ...] has passed. *)
Definition growth_field (field : Growth -> FixedString) : FixedString :=
  match growth with
  | Some g => field g
  | None => NumberString PrimFloat.nan
  end.

(** *** [generateHighlights]

    Each [if] statement of the function is one definition: it takes the
    array [highlights] as it stands and returns it, pushed or not. *)

(* ROE分析 *)
Definition highlightROE (highlights : list Highlight.t) : list Highlight.t :=
  let roe := ToNumber (Summary.roe summary) in
  if gt roe 20 then
    push highlights (Highlight.mk
      [Lit "ROE "; Fixed (toFixed roe 1); Lit "% - 资本回报率卓越，属于优质资产"] 1)
  else if gt roe 15 then
    push highlights (Highlight.mk
      [Lit "ROE "; Fixed (toFixed roe 1); Lit "% - 盈利能力强劲"] 2)
  else highlights.

(* 毛利率分析 *)
Definition highlightGrossMargin (highlights : list Highlight.t) : list Highlight.t :=
  let gross_margin := ToNumber (Summary.gross_margin summary) in
  if gt gross_margin 50 then
    push highlights (Highlight.mk
      [Lit "毛利率 "; Fixed (toFixed gross_margin 1); Lit "% - 护城河深厚，定价权强"] 1)
  else if gt gross_margin 30 then
    push highlights (Highlight.mk
      [Lit "毛利率 "; Fixed (toFixed gross_margin 1); Lit "% - 产品具有竞争力"] 2)
  else highlights.

(* 负债率分析 *)
Definition highlightDebtRatio (highlights : list Highlight.t) : list Highlight.t :=
  let debt_ratio := ToNumber (Summary.debt_ratio summary) in
  if lt debt_ratio 30 then
    push highlights (Highlight.mk
      [Lit "负债率 "; Fixed (toFixed debt_ratio 1); Lit "% - 财务极其稳健，抗风险能力强"] 1)
  else if lt debt_ratio 50 then
    push highlights (Highlight.mk
      [Lit "负债率 "; Fixed (toFixed debt_ratio 1); Lit "% - 财务结构健康"] 2)
  else highlights.

(* 增长分析 *)
Definition highlightGrowth (highlights : list Highlight.t) : list Highlight.t :=
  if growth_gt revenueGrowth 20 then
    push highlights (Highlight.mk
      [Lit "营收同比增长 "; Fixed (growth_field revenueGrowth); Lit "% - 高速成长期"] 1)
  else if growth_gt revenueGrowth 10 then
    push highlights (Highlight.mk
      [Lit "营收同比增长 "; Fixed (growth_field revenueGrowth); Lit "% - 稳健增长"] 2)
  else highlights.

(* 增长趋势 *)
Definition highlightMomentum (highlights : list Highlight.t) : list Highlight.t :=
  if is_string (GrowthMomentum.summary growthMomentum) "持续增长型" then
    push highlights (Highlight.mk [Lit "增长趋势: 持续增长型 - 业绩稳定向上"] 1)
  else if is_string (GrowthMomentum.summary growthMomentum) "加速增长型" then
    push highlights (Highlight.mk [Lit "增长趋势: 加速增长型 - 增长动能强劲"] 1)
  else highlights.

(* 股息率 *)
Definition highlightDividend (highlights : list Highlight.t) : list Highlight.t :=
  let dividend_yield := ToNumber (Valuation.dividend_yield valuation) in
  if gt dividend_yield 3 then
    push highlights (Highlight.mk
      [Lit "股息率 "; Fixed (toFixed dividend_yield 2); Lit "% - 分红慷慨，适合长期持有"] 2)
  else highlights.

(* 现金流 *)
Definition highlightCashFlow (highlights : list Highlight.t) : list Highlight.t :=
  if String.eqb (Health.status cashFlowHealth) "优秀" then
    push highlights (Highlight.mk [Lit "现金流质量优秀 - 利润含金量高"] 1)
  else highlights.

(* PE估值 *)
Definition highlightPE (highlights : list Highlight.t) : list Highlight.t :=
  let pe_ttm := Valuation.pe_ttm valuation in
  if ToBoolean pe_ttm && lt (ToNumber pe_ttm) 15 then
    push highlights (Highlight.mk
      [Lit "PE "; Fixed (toFixed (ToNumber pe_ttm) 1); Lit " - 估值较低，具有安全边际"] 2)
  else highlights.

(** The array [highlights] after the eight statements, before it is sorted. *)
Definition emittedHighlights : list Highlight.t :=
  let highlights := [] in
  let highlights := highlightROE highlights in
  let highlights := highlightGrossMargin highlights in
  let highlights := highlightDebtRatio highlights in
  let highlights := highlightGrowth highlights in
  let highlights := highlightMomentum highlights in
  let highlights := highlightDividend highlights in
  let highlights := highlightCashFlow highlights in
  let highlights := highlightPE highlights in
  highlights.

(** [generateHighlights]. *)
Definition generateHighlights : list Highlight.t :=
  let highlights := emittedHighlights in
  slice (sort (fun a b => (Highlight.priority a - Highlight.priority b)%Z) highlights) 0 5.

(** *** [generateRisks], statement by statement *)

(* 估值风险 *)
Definition riskValuation (risks : list Risk.t) : list Risk.t :=
  let pe_ttm := ToNumber (Valuation.pe_ttm valuation) in
  if gt pe_ttm 50 then
    push risks (Risk.mk
      [Lit "PE "; Fixed (toFixed pe_ttm 1); Lit " - 估值偏高，需要业绩高增长支撑"] "high")
  else if gt pe_ttm 30 then
    push risks (Risk.mk
      [Lit "PE "; Fixed (toFixed pe_ttm 1); Lit " - 估值较高，需警惕回调风险"] "medium")
  else risks.

(* DCF安全边际 *)
Definition riskDCF (risks : list Risk.t) : list Risk.t :=
  let dcf_margin_of_safety := ToNumber (Valuation.dcf_margin_of_safety valuation) in
  if lt dcf_margin_of_safety (-30) then
    push risks (Risk.mk
      [Lit "DCF安全边际 "; Fixed (toFixed dcf_margin_of_safety 1);
       Lit "% - 内在价值低于市价"] "high")
  else risks.

(* 盈利能力 *)
Definition riskROE (risks : list Risk.t) : list Risk.t :=
  let roe := Summary.roe summary in
  if ToBoolean roe && lt (ToNumber roe) 8 then
    push risks (Risk.mk
      [Lit "ROE "; Fixed (toFixed (ToNumber roe) 1); Lit "% - 资本回报率偏低"] "medium")
  else risks.

(* 负债风险 *)
Definition riskDebt (risks : list Risk.t) : list Risk.t :=
  let debt_ratio := ToNumber (Summary.debt_ratio summary) in
  if gt debt_ratio 70 then
    push risks (Risk.mk
      [Lit "负债率 "; Fixed (toFixed debt_ratio 1);
       Lit "% - 财务杠杆过高，警惕债务风险"] "high")
  else if gt debt_ratio 60 then
    push risks (Risk.mk
      [Lit "负债率 "; Fixed (toFixed debt_ratio 1); Lit "% - 负债水平偏高"] "medium")
  else risks.

(* 利润率 *)
Definition riskNetMargin (risks : list Risk.t) : list Risk.t :=
  let net_margin := Summary.net_margin summary in
  if ToBoolean net_margin && lt (ToNumber net_margin) 5 then
    push risks (Risk.mk
      [Lit "净利率 "; Fixed (toFixed (ToNumber net_margin) 1);
       Lit "% - 利润空间薄，抗风险能力弱"] "high")
  else risks.

(* 增长风险 *)
Definition riskGrowth (risks : list Risk.t) : list Risk.t :=
  if growth_lt revenueGrowth 0 then
    push risks (Risk.mk
      [Lit "营收同比下滑 ";
       Num (PrimFloat.abs (StringToNumber (growth_field revenueGrowth)));
       Lit "% - 业务可能面临挑战"] "high")
  else if growth_lt profitGrowth 0 then
    push risks (Risk.mk
      [Lit "利润同比下滑 ";
       Num (PrimFloat.abs (StringToNumber (growth_field profitGrowth)));
       Lit "% - 盈利能力下降"] "medium")
  else risks.

(* 现金流风险 *)
Definition riskCashFlow (risks : list Risk.t) : list Risk.t :=
  if String.eqb (Health.status cashFlowHealth) "较差" then
    push risks (Risk.mk [Lit "现金流质量较差 - 利润含金量不足，需警惕"] "high")
  else risks.

(* 增长趋势 *)
Definition riskMomentum (risks : list Risk.t) : list Risk.t :=
  if is_string (GrowthMomentum.summary growthMomentum) "下滑型"
     || is_string (GrowthMomentum.summary growthMomentum) "衰退型" then
    push risks (Risk.mk
      [Lit "增长趋势: "; Lit (default "" (GrowthMomentum.summary growthMomentum));
       Lit " - 业绩拐点向下"] "high")
  else risks.

(** [generateRisks]. *)
Definition generateRisks : list Risk.t :=
  let risks := [] in
  let risks := riskValuation risks in
  let risks := riskDCF risks in
  let risks := riskROE risks in
  let risks := riskDebt risks in
  let risks := riskNetMargin risks in
  let risks := riskGrowth risks in
  let risks := riskCashFlow risks in
  let risks := riskMomentum risks in
  slice risks 0 5.

End AnalysisInsights.

End InsightEngine.

(* ===================================================================== *)
(** * Other computations of api.js *)
(* ===================================================================== *)

(** [ScorePill]: the colour of a score badge. *)
Module ScorePill.
Import JS.
Local Open Scope float_scope.

(** [getColor(s)]; a missing score reads as [undefined]. *)
Definition getColor (s : float) : string :=
  if ge s 80 then "var(--color-success)"
  else if ge s 60 then "var(--color-up)"
  else if ge s 40 then "var(--color-warning)"
  else "var(--color-down)".

End ScorePill.

(** The request cache: [cache], [getCached], [setCache].  [Date.now()] is
    an argument, in milliseconds. *)
Module RequestCache.

Section Cache.
(** What is cached: a response body. *)
Context {A : Type}.

Record item := { data : A; time : Z }.

(** [const cache = new Map()] *)
Definition cache := gmap string item.

Definition CACHE_TTL : Z := 60000.

(** [getCached(key)]: the cache afterwards and the result, [None] for
    [null].  An entry that is missing or too old is deleted. *)
Definition getCached (now : Z) (c : cache) (key : string) : cache * option A :=
  match c !! key with
  | Some it =>
      if (now - time it <? CACHE_TTL)%Z then (c, Some (data it))
      else (delete key c, None)
  | None => (delete key c, None)
  end.

(** [setCache(key, data)] *)
Definition setCache (now : Z) (c : cache) (key : string) (d : A) : cache :=
  <[key := {| data := d; time := now |}]> c.

(** [cache.clear()] *)
Definition clear (c : cache) : cache := ∅.
End Cache.
Arguments item A : clear implicits.
Arguments cache A : clear implicits.

End RequestCache.

(** [DataCharts]: the series given to the three charts. *)
Module DataCharts.
Import JS.
Local Open Scope float_scope.

Module AnnualItem.
Record t := mk {
  year : string;
  revenue_yi : option float;
  net_profit_yi : option float;
  gross_margin_pct : option float;
  roe_pct : option float
}.
End AnnualItem.

Module AnnualRow.
Record t := mk {
  year : string;
  revenue : FixedString;
  profit : FixedString;
  margin : FixedString;
  roe : FixedString
}.
End AnnualRow.

Module CashFlowItem.
Record t := mk {
  date : string;
  cfo_yi : option float;
  cfi_yi : option float;
  cff_yi : option float
}.
End CashFlowItem.

Module CashFlowRow.
Record t := mk {
  date : string;
  operating : FixedString;    (* 经营 *)
  investing : FixedString;    (* 投资 *)
  financing : FixedString     (* 筹资 *)
}.
End CashFlowRow.

Module QuarterItem.
Record t := mk {
  quarter : string;
  revenue_yi : option float;
  profit_yi : option float
}.
End QuarterItem.

Module QuarterRow.
Record t := mk {
  quarter : string;
  revenue : FixedString;
  profit : FixedString
}.
End QuarterRow.

(** The callbacks of the three [map] calls. *)
Definition annualRow (item : AnnualItem.t) : AnnualRow.t :=
  AnnualRow.mk (AnnualItem.year item)
    (toFixed (or_default (AnnualItem.revenue_yi item) 0) 2)
    (toFixed (or_default (AnnualItem.net_profit_yi item) 0) 2)
    (toFixed (or_default (AnnualItem.gross_margin_pct item) 0) 1)
    (toFixed (or_default (AnnualItem.roe_pct item) 0) 1).

Definition cashFlowRow (item : CashFlowItem.t) : CashFlowRow.t :=
  CashFlowRow.mk (CashFlowItem.date item)
    (toFixed (or_default (CashFlowItem.cfo_yi item) 0) 1)
    (toFixed (or_default (CashFlowItem.cfi_yi item) 0) 1)
    (toFixed (or_default (CashFlowItem.cff_yi item) 0) 1).

Definition quarterRow (item : QuarterItem.t) : QuarterRow.t :=
  QuarterRow.mk (QuarterItem.quarter item)
    (toFixed (or_default (QuarterItem.revenue_yi item) 0) 1)
    (toFixed (or_default (QuarterItem.profit_yi item) 0) 1).

(** [annualTrend.slice(-5).map(...)] *)
Definition annualData (annualTrend : list AnnualItem.t) : list AnnualRow.t :=
  annualRow <$> slice_from annualTrend (-5).

(** [cashFlow.slice(-8).map(...)] *)
Definition cashFlowData (cashFlow : list CashFlowItem.t) : list CashFlowRow.t :=
  cashFlowRow <$> slice_from cashFlow (-8).

(** [growthQuarterly.slice(-8).map(...)] *)
Definition quarterlyData (growthQuarterly : list QuarterItem.t) : list QuarterRow.t :=
  quarterRow <$> slice_from growthQuarterly (-8).

End DataCharts.

(* ===================================================================== *)
(** * IndustryComparison: [ComparisonRadar] and [ComparisonTable] *)
(* ===================================================================== *)

Module IndustryComparison.
Import JS.
Local Open Scope float_scope.

(** The metrics of a stock or of its industry ([stockData], [industryData]). *)
Module Metrics.
Record t := mk {
  roe : option float;
  gross_margin : option float;
  net_margin : option float;
  growth_rate : option float;
  safety : option float;
  debt_ratio : option float;
  pe_ttm : option float;
  dividend_yield : option float
}.
End Metrics.

(** One axis of the radar. *)
Module Axis.
Record t := mk { key : Metrics.t -> option float; label : string; fullMark : float }.
End Axis.

(** [metrics] of [ComparisonRadar]. *)
Definition radarMetrics : list Axis.t :=
  [ Axis.mk Metrics.roe "ROE" 30;
    Axis.mk Metrics.gross_margin "毛利" 80;
    Axis.mk Metrics.net_margin "净利" 40;
    Axis.mk Metrics.growth_rate "增长" 50;
    Axis.mk Metrics.safety "安全" 100 ].

Module RadarPoint.
Record t := mk { subject : string; stock : float; industry : float; fullMark : float }.
End RadarPoint.

(** [let v = data[m.key] || 0; if (v > m.fullMark) v = m.fullMark]. *)
Definition capped (v : option float) (fullMark : float) : float :=
  let v := or_default v 0 in
  if gt v fullMark then fullMark else v.

(** [data] of [ComparisonRadar]. *)
Definition radarData (stockData industryData : Metrics.t) : list RadarPoint.t :=
  (fun m =>
     RadarPoint.mk (Axis.label m)
       (capped (Axis.key m stockData) (Axis.fullMark m))
       (capped (Axis.key m industryData) (Axis.fullMark m))
       (Axis.fullMark m))
  <$> radarMetrics.

(** What [renderDiff] shows: a dash, or the verdict with the magnitude of
    the difference as a [toFixed(2)] string. *)
Inductive Diff :=
| Dash
| Verdict (isBetter : bool) (magnitude : FixedString).

(** [renderDiff(val1, val2, isHigherBetter)] of [ComparisonTable]; [None]
    is a value that is [null] or missing. *)
Definition renderDiff (val1 val2 : option float) (isHigherBetter : bool) : Diff :=
  match val1, val2 with
  | Some v1, Some v2 =>
      let diff := v1 - v2 in
      let isBetter := if isHigherBetter then gt diff 0 else lt diff 0 in
      Verdict isBetter (toFixed (PrimFloat.abs diff) 2)
  | _, _ => Dash
  end.

End IndustryComparison.

(* ===================================================================== *)
(** * EventBus: the class [ChartEventBus] *)
(* ===================================================================== *)

Module EventBus.

(** A callback is a function object, known by its identity. *)
Definition handler := nat.

(** The payload of an event. *)
Definition payload := string.

(** [ChartEventTypes]. *)
Definition DATE_CLICK : string := "date:click".
Definition DATE_RANGE_SELECT : string := "date:range".
Definition DATA_HIGHLIGHT : string := "data:highlight".
Definition DATA_RESET : string := "data:reset".

(** ** [Set] objects

    The entries of a [Set] in insertion order (ECMA-262, 24.2).  Deleting
    an element leaves an empty slot ([None]) in its place; adding a new
    element appends an entry. *)
Abbreviation CallbackSet := (list (option handler)).

(** [set.has(cb)] *)
Definition set_has (s : CallbackSet) (cb : handler) : bool :=
  bool_decide (Some cb ∈ s).

(** [set.add(cb)]: nothing happens when [cb] is already an element. *)
Definition set_add (s : CallbackSet) (cb : handler) : CallbackSet :=
  if set_has s cb then s else s ++ [Some cb].

(** [set.delete(cb)]: the entry that holds [cb] becomes an empty slot. *)
Fixpoint set_delete (s : CallbackSet) (cb : handler) : CallbackSet :=
  match s with
  | [] => []
  | e :: s' => if decide (e = Some cb) then None :: s' else e :: set_delete s' cb
  end.

(** The elements of a set, in insertion order. *)
Definition elements (s : CallbackSet) : list handler := omap id s.

(** ** The bus

    [listeners] is the [Map] from event types to [Set] objects; a [Set]
    object is a reference into [sets], the store of the [Set] objects
    created so far, so that a [Set] that [clear] drops from the map while
    [emit] iterates over it stays what it is. *)
Record ChartEventBus := {
  listeners : gmap string nat;
  sets : list CallbackSet
}.

(** [new ChartEventBus()] *)
Definition new_bus : ChartEventBus := {| listeners := ∅; sets := [] |}.

(** The closure [() => this.off(eventType, callback)] returned by [on]. *)
Definition token := (string * handler)%type.

(** [off(eventType, callback)] *)
Definition off (b : ChartEventBus) (eventType : string) (callback : handler)
  : ChartEventBus :=
  match listeners b !! eventType with
  | Some r =>
      {| listeners := listeners b;
         sets := alter (fun s => set_delete s callback) r (sets b) |}
  | None => b
  end.

(** The first statement of [on]: an event type that has no [Set] yet is
    given a new, empty one. *)
Definition with_set (b : ChartEventBus) (eventType : string) : ChartEventBus :=
  match listeners b !! eventType with
  | Some _ => b
  | None =>
      {| listeners := <[eventType := length (sets b)]> (listeners b);
         sets := sets b ++ [[]] |}
  end.

(** [on(eventType, callback)] *)
Definition on (b : ChartEventBus) (eventType : string) (callback : handler)
  : ChartEventBus * token :=
  let b := with_set b eventType in
  let b :=
    match listeners b !! eventType with
    | Some r =>
        {| listeners := listeners b;
           sets := alter (fun s => set_add s callback) r (sets b) |}
    | None => b
    end in
  (b, (eventType, callback)).

(** Calling a token. *)
Definition unsubscribe (b : ChartEventBus) (t : token) : ChartEventBus :=
  off b t.1 t.2.

(** [clear()]: the map is emptied; the [Set] objects are not touched. *)
Definition clear (b : ChartEventBus) : ChartEventBus :=
  {| listeners := ∅; sets := sets b |}.

(** The handlers registered for an event type, in registration order. *)
Definition registered (b : ChartEventBus) (eventType : string) : list handler :=
  match listeners b !! eventType with
  | Some r => elements (default [] (sets b !! r))
  | None => []
  end.

(** ** Callbacks

    What a callback does to the bus while it runs: a sequence of calls of
    the bus API, which a [throw] may cut short. *)
Inductive action :=
| Subscribe (eventType : string) (callback : handler)    (* bus.on(eventType, callback) *)
| Unsubscribe (eventType : string) (callback : handler)  (* bus.off, or a token called *)
| ClearAll                                               (* bus.clear() *)
| Throw (error : string).                                (* throw error *)

Inductive completion :=
| Normal
| Abrupt (error : string).

(** The observable state: the bus, the calls made so far (callback and
    argument) and the lines written by [console.error]. *)
Record World := {
  bus : ChartEventBus;
  calls : list (handler * payload);
  console : list string
}.

Definition run_action (a : action) (b : ChartEventBus) : ChartEventBus * completion :=
  match a with
  | Subscribe eventType callback => ((on b eventType callback).1, Normal)
  | Unsubscribe eventType callback => (off b eventType callback, Normal)
  | ClearAll => (clear b, Normal)
  | Throw error => (b, Abrupt error)
  end.

Fixpoint run_body (body : list action) (b : ChartEventBus)
  : ChartEventBus * completion :=
  match body with
  | [] => (b, Normal)
  | a :: body' =>
      match run_action a b with
      | (b', Normal) => run_body body' b'
      | (b', Abrupt error) => (b', Abrupt error)
      end
  end.

Section Emit.
(** The code of each callback. *)
Variable program : handler -> list action.

(** [callback(payload)] *)
Definition call (callback : handler) (p : payload) (w : World) : World * completion :=
  let '(b', c) := run_body (program callback) (bus w) in
  ({| bus := b'; calls := calls w ++ [(callback, p)]; console := console w |}, c).

(** The arrow function given to [forEach]:
    [try { callback(payload) } catch (error) { console.error(..., error) }]. *)
Definition guarded_call (callback : handler) (p : payload) (w : World)
  : World * completion :=
  match call callback p w with
  | (w', Normal) => (w', Normal)
  | (w', Abrupt error) =>
      ({| bus := bus w'; calls := calls w';
          console := console w' ++ ["ChartEventBus callback error: " +:+ error] |},
       Normal)
  end.

(** [Set.prototype.forEach] on the [Set] object [r], from entry [index]
    (ECMA-262, 24.2.4.7): the entries are read from the set as it is at
    each step, so entries added during the iteration are visited and
    entries deleted before their turn are not.  [None] when [fuel]
    iterations were not enough. *)
Fixpoint forEach (fuel : nat) (r : nat) (index : nat) (p : payload) (w : World)
  : option (World * completion) :=
  match fuel with
  | O => None
  | S fuel' =>
      let entries := default [] (sets (bus w) !! r) in
      match entries !! index with
      | None => Some (w, Normal)                      (* index = numEntries *)
      | Some None => forEach fuel' r (S index) p w    (* an empty slot *)
      | Some (Some callback) =>
          match guarded_call callback p w with
          | (w', Normal) => forEach fuel' r (S index) p w'
          | (w', Abrupt error) => Some (w', Abrupt error)
          end
      end
  end.

(** [emit(eventType, payload)] *)
Definition emit (fuel : nat) (eventType : string) (p : payload) (w : World)
  : option (World * completion) :=
  match listeners (bus w) !! eventType with
  | Some r => forEach fuel r 0 p w
  | None => Some (w, Normal)
  end.

End Emit.

(** ** Specification vocabulary *)

(** The store is well formed: every [Set] of the map exists, no [Set]
    serves two event types, and no [Set] holds an element twice.  Every
    bus built from [new_bus] by [on], [off] and [clear] is. *)
Definition wf (b : ChartEventBus) : Prop :=
  (forall k r, listeners b !! k = Some r -> r < length (sets b)) /\
  (forall k1 k2 r, listeners b !! k1 = Some r -> listeners b !! k2 = Some r -> k1 = k2) /\
  (forall r s, sets b !! r = Some s -> NoDup (elements s)).

(** The [Set] object [r] exists and serves no event type but [eventType]. *)
Definition owns (b : ChartEventBus) (eventType : string) (r : nat) : Prop :=
  r < length (sets b) /\
  (forall k, listeners b !! k = Some r -> k = eventType).

(** An action that subscribes or unsubscribes a handler of [eventType]. *)
Definition touches (eventType : string) (a : action) : Prop :=
  match a with
  | Subscribe k _ | Unsubscribe k _ => k = eventType
  | ClearAll | Throw _ => False
  end.

(** A callback that leaves the registrations of [eventType] alone. *)
Definition quiet (program : handler -> list action) (eventType : string)
  (h : handler) : Prop :=
  Forall (fun a => ~ touches eventType a) (program h).

(** The error a body throws, if it throws. *)
Fixpoint thrown (body : list action) : option string :=
  match body with
  | [] => None
  | Throw error :: _ => Some error
  | _ :: body' => thrown body'
  end.

(** The lines [console.error] writes for the handlers of [hs] that throw. *)
Definition error_lines (program : handler -> list action) (hs : list handler)
  : list string :=
  omap (fun h => (fun e => "ChartEventBus callback error: " +:+ e) <$> thrown (program h)) hs.

(** The world after the handlers [hs] were called in turn, each inside
    the [try / catch] of [emit]. *)
Definition after_calls (program : handler -> list action) (p : payload)
  (hs : list handler) (w : World) : World :=
  fold_left (fun w h => (guarded_call program h p w).1) hs w.

(** The calls of the handlers [hs] with the argument [p]. *)
Definition calls_of (p : payload) (hs : list handler) : list (handler * payload) :=
  (fun h => (h, p)) <$> hs.

(** The entries of the [Set] of an event type (none when it has no [Set]). *)
Definition slots (b : ChartEventBus) (eventType : string) : CallbackSet :=
  match listeners b !! eventType with
  | Some r => default [] (sets b !! r)
  | None => []
  end.

(** The world when the iteration over the entries [es] reaches entry [i]:
    the elements before it have been called. *)
Definition world_at (program : handler -> list action) (p : payload)
  (es : CallbackSet) (i : nat) (w : World) : World :=
  after_calls program p (elements (take i es)) w.

(** The entries of the [Set] object [r] once [h] has been called in [w]. *)
Definition slots_after (program : handler -> list action) (p : payload)
  (r : nat) (h : handler) (w : World) : CallbackSet :=
  default [] (sets (bus (guarded_call program h p w).1) !! r).

(** The calls recorded by a run of [emit]. *)
Definition calls_made (o : option (World * completion))
  : option (list (handler * payload)) :=
  (fun wc => calls wc.1) <$> o.

(** A world with nothing called or logged yet. *)
Definition fresh (b : ChartEventBus) : World :=
  {| bus := b; calls := []; console := [] |}.

(** The entries of the [Set] object [r] in a world. *)
Definition set_entries (w : World) (r : nat) : CallbackSet :=
  default [] (sets (bus w) !! r).

(** What may become of the entries of a [Set] object: an entry stays as it
    is or becomes an empty slot, and entries are appended. *)
Definition grown (es es' : CallbackSet) : Prop :=
  length es <= length es' /\
  forall j e, es !! j = Some e -> es' !! j = Some e \/ es' !! j = Some None.

(** ** Sample programs *)

(** Callback 1 does nothing. *)
Definition idle : handler -> list action := fun _ => [].

(** Callback 1 subscribes callback 2 to [date:click]; callback 2 is idle. *)
Definition subscriber : handler -> list action :=
  fun h => if decide (h = 1) then [Subscribe DATE_CLICK 2] else [].

(** Callback 1 unsubscribes callback 2 from [date:click]; callback 2 is idle. *)
Definition unsubscriber : handler -> list action :=
  fun h => if decide (h = 1) then [Unsubscribe DATE_CLICK 2] else [].

(** Callback 1 throws; callback 2 is idle. *)
Definition thrower : handler -> list action :=
  fun h => if decide (h = 1) then [Throw "boom"] else [].

(** Callback 1 clears the bus and then subscribes callback 3 to
    [date:click]; the other callbacks are idle. *)
Definition resetter : handler -> list action :=
  fun h => if decide (h = 1) then [ClearAll; Subscribe DATE_CLICK 3] else [].

(** A bus on which callback 1, then callback 2, listen to [date:click]. *)
Definition two_listeners : ChartEventBus :=
  (on (on new_bus DATE_CLICK 1).1 DATE_CLICK 2).1.

(** Callback 1 subscribed twice to [date:click], with the two tokens. *)
Definition subscribed_twice : ChartEventBus * token * token :=
  let '(b1, t1) := on new_bus DATE_CLICK 1 in
  let '(b2, t2) := on b1 DATE_CLICK 1 in
  (b2, t1, t2).

(** A bus on which only callback 1 listens to [date:click]. *)
Definition one_listener : ChartEventBus := (on new_bus DATE_CLICK 1).1.

End EventBus.

(* ===================================================================== *)
(** * The insight rules as the specification words them *)
(* ===================================================================== *)

Module InsightSpec.
Import JS InsightEngine.
Local Open Scope float_scope.

(** A numeric input is usable when it is present, is not zero and is a
    number: exactly the inputs a JavaScript truthiness test lets through. *)
Definition usable (v : option float) : bool := ToBoolean v.

(** A numeric input is present when the property exists, whatever its value. *)
Definition present (v : option float) : bool :=
  match v with
  | Some _ => true
  | None => false
  end.

(** ** Valuation status *)

Inductive Signal := Undervalued | Overvalued | NoSignal.

Definition is_undervalued (s : Signal) : bool :=
  match s with Undervalued => true | _ => false end.

Definition is_overvalued (s : Signal) : bool :=
  match s with Overvalued => true | _ => false end.

(** Signal 1: the DCF margin of safety against the flat thresholds 20 and -20. *)
Definition dcf_signal (margin : option float) : Signal :=
  if gt (ToNumber margin) 20 then Undervalued
  else if lt (ToNumber margin) (-20) then Overvalued
  else NoSignal.

(** Signals 2 and 3: the price against the band [0.8 .. 1.2] of a DDM value.
    [applies] says when the DDM value takes part in the test. *)
Definition ddm_signal (applies : option float -> bool) (price : float)
  (ddm : option float) : Signal :=
  if applies ddm then
    if lt price (ToNumber ddm * 0.8) then Undervalued
    else if gt price (ToNumber ddm * 1.2) then Overvalued
    else NoSignal
  else NoSignal.

(** The three independent signals of a valuation record. *)
Definition signals (applies : option float -> bool) (v : Valuation.t) : list Signal :=
  [ dcf_signal (Valuation.dcf_margin_of_safety v);
    ddm_signal applies (ToNumber (Valuation.price v)) (Valuation.ddm_gordon v);
    ddm_signal applies (ToNumber (Valuation.price v)) (Valuation.ddm_two_stage v) ].

Definition undervaluedCount (l : list Signal) : nat := length (filter is_undervalued l).
Definition overvaluedCount (l : list Signal) : nat := length (filter is_overvalued l).

(** The final label: undervalued conditions first, then overvalued ones. *)
Definition label_of_counts (under over : nat) : ValuationStatus :=
  if (2 <=? under)%nat then
    {| status := "明显低估"; color := "var(--color-success)" |}   (* clearly undervalued *)
  else if (1 <=? under)%nat then
    {| status := "相对低估"; color := "var(--color-up)" |}        (* relatively undervalued *)
  else if (2 <=? over)%nat then
    {| status := "明显高估"; color := "var(--color-down)" |}      (* clearly overvalued *)
  else if (1 <=? over)%nat then
    {| status := "相对高估"; color := "var(--color-warning)" |}   (* relatively overvalued *)
  else
    {| status := "估值合理"; color := "var(--accent-primary)" |}. (* fairly valued *)

Definition indeterminate : ValuationStatus :=
  {| status := "无法判断"; color := "var(--text-muted)" |}.

(** The valuation status, given when an input counts as available. *)
Definition valuation_status (available : option float -> bool) (v : Valuation.t)
  : ValuationStatus :=
  if available (Valuation.price v) then
    label_of_counts (undervaluedCount (signals available v))
                    (overvaluedCount (signals available v))
  else indeterminate.

(** The rule as claimed: an input counts as soon as it is present. *)
Definition claimed_valuation_status : Valuation.t -> ValuationStatus :=
  valuation_status present.

(** The rule the code implements: an input counts when it is usable. *)
Definition amended_valuation_status : Valuation.t -> ValuationStatus :=
  valuation_status usable.

(** ** Growth *)

(** The percentage change from [prev] to [latest]. *)
Definition growth_pct (latest prev : option float) : float :=
  (ToNumber latest - ToNumber prev) / ToNumber prev * 100.

(** ** Cash-flow health *)

Definition health_of_ratio (ratio : float) : Health.t :=
  if gt ratio 1.2 then
    Health.mk "优秀" "var(--color-success)" "经营现金流远超净利润"   (* excellent *)
  else if gt ratio 0.8 then
    Health.mk "良好" "var(--color-up)" "现金流与利润匹配"            (* good *)
  else if gt ratio 0.5 then
    Health.mk "一般" "var(--color-warning)" "现金流略低于利润"       (* fair *)
  else
    Health.mk "较差" "var(--color-down)" "利润质量存疑".             (* poor *)

Definition insufficient_data : Health.t :=
  Health.mk "数据不足" "var(--text-muted)" "".

Definition cash_flow_health (available : option float -> bool)
  (cfo netProfit : option float) : Health.t :=
  if available cfo && available netProfit then
    health_of_ratio (ToNumber cfo / ToNumber netProfit)
  else insufficient_data.

(** As claimed: only a missing input gives "insufficient data"; a zero is
    an input like any other. *)
Definition claimed_cash_flow_health : option float -> option float -> Health.t :=
  cash_flow_health present.

(** As implemented: a missing or zero input gives "insufficient data". *)
Definition amended_cash_flow_health : option float -> option float -> Health.t :=
  cash_flow_health usable.

(** ** Ranked lists *)

(** The comparison function of a sort by an integer key, and the order it
    sorts into. *)
Definition by_key {A : Type} (key : A -> Z) (a b : A) : Z := (key a - key b)%Z.
Definition key_le {A : Type} (key : A -> Z) (a b : A) : Prop := (key a <= key b)%Z.

(** A statement [f] of [generateHighlights] leaves the array as it is or
    pushes one item, whose priority is 1 or 2. *)
Definition appends_one (f : list Highlight.t -> list Highlight.t) : Prop :=
  (forall h, f h = h ++ f []) /\
  length (f []) <= 1 /\
  Forall (fun a => Highlight.priority a = 1%Z \/ Highlight.priority a = 2%Z) (f []).

(** A statement [f] of [generateRisks] leaves the array as it is or pushes
    one item. *)
Definition appends_risk (f : list Risk.t -> list Risk.t) : Prop :=
  (forall h, f h = h ++ f []) /\ length (f []) <= 1.

(** The items the highlight rules emit, rule by rule in evaluation order. *)
Definition highlightsInOrder (data : Data.t) (summary : Summary.t)
  : list Highlight.t :=
  highlightROE summary [] ++ highlightGrossMargin summary [] ++
  highlightDebtRatio summary [] ++ highlightGrowth data [] ++
  highlightMomentum data [] ++ highlightDividend data [] ++
  highlightCashFlow data [] ++ highlightPE data [].

(** The items the risk rules emit, rule by rule in evaluation order. *)
Definition risksInOrder (data : Data.t) (summary : Summary.t) : list Risk.t :=
  riskValuation data [] ++ riskDCF data [] ++ riskROE summary [] ++
  riskDebt summary [] ++ riskNetMargin summary [] ++ riskGrowth data [] ++
  riskCashFlow data [] ++ riskMomentum data [].

(** The items of priority [p], in the order of the list. *)
Definition of_priority (p : Z) (l : list Highlight.t) : list Highlight.t :=
  filter (fun h => Highlight.priority h = p) l.

(** Ascending priority. *)
Definition priority_le (a b : Highlight.t) : Prop :=
  (Highlight.priority a <= Highlight.priority b)%Z.

End InsightSpec.

(** Sample snapshots. *)
Module InsightSamples.
Import JS InsightEngine.
Local Open Scope float_scope.

Definition no_summary : Summary.t := Summary.mk None None None None.

Definition data_of (v : Valuation.t) : Data.t :=
  Data.mk None (Some v) None None None None.

(** Price 10, a DDM (Gordon) value of exactly 0, nothing else. *)
Definition zero_gordon : Valuation.t :=
  Valuation.mk (Some 10) None None None None None (Some 0) None.

(** A price of exactly 0 with a DCF margin of safety of 25. *)
Definition zero_price : Valuation.t :=
  Valuation.mk (Some 0) None None None None (Some 25) None None.

(** The example of the specification: price 100, DDM (Gordon) 130, margin 25. *)
Definition spec_example : Valuation.t :=
  Valuation.mk (Some 100) None None None None (Some 25) (Some 130) None.

(** Revenue 10000 then 10001, net profit 5 then 6. *)
Definition flat_revenue : Data.t :=
  Data.mk None None None None None
    (Some [AnnualPoint.mk (Some 10000) (Some 5); AnnualPoint.mk (Some 10001) (Some 6)]).

(** Operating cash flow present and equal to 0, net profit 10. *)
Definition zero_cfo : Data.t :=
  Data.mk None None (Some (Fundamentals.mk None (Some 10) None)) None
    (Some (CashFlow.mk (Some 0))) None.

(** Operating cash flow missing, net profit 10. *)
Definition missing_cfo : Data.t :=
  Data.mk None None (Some (Fundamentals.mk None (Some 10) None)) None
    (Some (CashFlow.mk None)) None.

(** A company on which seven highlight rules fire. *)
Definition strong_summary : Summary.t :=
  Summary.mk (Some 18) (Some 55) (Some 45) (Some 12).

Definition strong_data : Data.t :=
  Data.mk None
    (Some (Valuation.mk (Some 20) (Some 12) None (Some 3.5) None None None None))
    (Some (Fundamentals.mk None (Some 10) None))
    (Some (GrowthMomentum.mk (Some "持续增长型")))
    (Some (CashFlow.mk (Some 15)))
    (Some [AnnualPoint.mk (Some 100) (Some 10); AnnualPoint.mk (Some 125) (Some 12)]).

(** A company on which seven risk rules fire. *)
Definition weak_summary : Summary.t :=
  Summary.mk (Some 5) (Some 10) (Some 75) (Some 3).

Definition weak_data : Data.t :=
  Data.mk None
    (Some (Valuation.mk (Some 20) (Some 60) None None None (Some (-40)) None None))
    (Some (Fundamentals.mk None (Some 10) None))
    (Some (GrowthMomentum.mk (Some "下滑型")))
    (Some (CashFlow.mk (Some 2)))
    (Some [AnnualPoint.mk (Some 100) (Some 10); AnnualPoint.mk (Some 90) (Some 8)]).

End InsightSamples.

(* ===================================================================== *)
(** * The effect of [withChartLinkage] *)
(* ===================================================================== *)

Module Linkage.
Import EventBus.

(** An entry of [events]: an event type, for which the effect makes an
    arrow function of its own ([closure] is that function), or a
    configuration with its handler. *)
Inductive eventConfig :=
| EventType (eventType : string) (closure : handler)
| Config (type : string) (callback : handler).

(** The arguments of [subscribe] for an entry. *)
Definition subscription (eventConfig : eventConfig) : string * handler :=
  match eventConfig with
  | EventType eventType closure => (eventType, closure)
  | Config type callback => (type, callback)
  end.

(** The effect, [events.map(eventConfig => subscribe(...))]: the bus
    afterwards and [unsubscribers]. *)
Definition mount (b : ChartEventBus) (events : list eventConfig)
  : ChartEventBus * list token :=
  foldl (fun acc eventConfig =>
           let '(b', t) := on acc.1 (subscription eventConfig).1
                             (subscription eventConfig).2 in
           (b', acc.2 ++ [t]))
        (b, []) events.

(** The cleanup, [unsubscribers.forEach(unsubscribe => unsubscribe())]. *)
Definition cleanup (b : ChartEventBus) (unsubscribers : list token) : ChartEventBus :=
  foldl unsubscribe b unsubscribers.

(** ** Sample programs and configurations *)

(** Callback 1 takes itself off [date:click] and subscribes again;
    callback 2 is idle. *)
Definition resubscriber : handler -> list action :=
  fun h => if decide (h = 1) then [Unsubscribe DATE_CLICK 1; Subscribe DATE_CLICK 1] else [].

(** Callback 1 clears the bus; callback 2 is idle. *)
Definition clearer : handler -> list action :=
  fun h => if decide (h = 1) then [ClearAll] else [].

(** A chart linked to [date:click] by its type and to [data:reset] by a
    configuration whose handler is callback 3; callback 2 is the arrow
    function of the first entry. *)
Definition sample_events : list eventConfig :=
  [EventType DATE_CLICK 2; Config DATA_RESET 3].

End Linkage.

(* ===================================================================== *)
(** * ChartContainer: resizing by dragging *)
(* ===================================================================== *)

Module ChartContainer.
Import JS.
Local Open Scope float_scope.

(** [Math.max(a, b)] (ECMA-262, 21.3.2.24): NaN when an argument is NaN;
    [+0] counts as larger than [-0]. *)
Definition max (a b : float) : float :=
  if PrimFloat.is_nan a || PrimFloat.is_nan b then PrimFloat.nan
  else if lt a b then b
  else
    match PrimFloat.classify a, PrimFloat.classify b with
    | NZero, PZero => b
    | _, _ => a
    end.

(** A CSS size: a number of pixels, or a string such as ["100%"]. *)
Inductive Size :=
| Css (s : string)
| Px (n : float).

(** The state [dimensions]. *)
Record Dimensions := { width : Size; height : Size }.

(** [resizeRef.current] *)
Record ResizeRef := {
  isResizing : bool;
  startX : float;
  startY : float;
  startWidth : float;
  startHeight : float
}.

(** [handleResize(e)], with the pointer at [(clientX, clientY)]: the
    state [dimensions] afterwards. *)
Definition handleResize (ref : ResizeRef) (clientX clientY : float)
  (dimensions : Dimensions) : Dimensions :=
  if negb (isResizing ref) then dimensions
  else
    let deltaX := clientX - startX ref in
    let deltaY := clientY - startY ref in
    let newWidth := max 300 (startWidth ref + deltaX) in
    let newHeight := max 200 (startHeight ref + deltaY) in
    {| width := Px newWidth; height := Px newHeight |}.

End ChartContainer.

(* ===================================================================== *)
(** * Vocabulary of the order and lifecycle properties *)
(* ===================================================================== *)

Module Vocabulary.
Import JS IndicatorEngine InsightEngine EventBus.

(** The comparison of two binary64 numbers ([None] when one is NaN). *)
Definition cmp (x y : float) : option comparison :=
  SFcompare (Prim2SF x) (Prim2SF y).

(** The rank of a rating tier, from "观望" (0) to "强烈推荐" (3). *)
Definition rating_rank (r : Rating.t) : nat :=
  if String.eqb (Rating.label r) "强烈推荐" then 3
  else if String.eqb (Rating.label r) "推荐" then 2
  else if String.eqb (Rating.label r) "中性" then 1
  else 0.

(** The rank of a cash-flow class, from "较差" (0) to "优秀" (3). *)
Definition health_rank (h : Health.t) : nat :=
  if String.eqb (Health.status h) "优秀" then 3
  else if String.eqb (Health.status h) "良好" then 2
  else if String.eqb (Health.status h) "一般" then 1
  else 0.

(** The rank of a badge colour, from "down" (0) to "success" (3). *)
Definition colour_rank (c : string) : nat :=
  if String.eqb c "var(--color-success)" then 3
  else if String.eqb c "var(--color-up)" then 2
  else if String.eqb c "var(--color-warning)" then 1
  else 0.

(** The ratio of operating cash flow to net profit of a snapshot. *)
Definition cash_ratio (data : Data.t) : float :=
  (ToNumber (CashFlow.latest_cfo_yi (cashFlow data))
   / ToNumber (Fundamentals.net_profit_yi (fundamentals data)))%float.

(** A statement of a generator emits an item. *)
Definition emits {A : Type} (f : list A -> list A) : Prop := f [] <> [].

(** The callback of [volColors]: the colour of bar [i], whose close is [c]. *)
Definition volColor {num : Type} `{Arith num} (close : list num) (i : nat) (c : num)
  : string :=
  if decide (i = 0) then upColor
  else
    match close !! (i - 1) with
    | Some p => if geb c p then upColor else downColor
    | None => downColor
    end.

(** A callback that leaves the registrations of [eventType] alone and
    does not clear the bus. *)
Definition calm (program : handler -> list action) (eventType : string)
  (h : handler) : Prop :=
  Forall (fun a => ~ touches eventType a /\ a <> ClearAll) (program h).

(** The sample bars with other dates, prices and volumes, and the same
    closes. *)
Definition sample_bars_reshaped : list (Bar.t float) :=
  map (fun c => Bar.mk "2025-06-30" 1%float 2%float 0.5%float c 0%float) sample_closes.

End Vocabulary.

(* ===================================================================== *)
(** * Proof automation *)
(* ===================================================================== *)

Module Tactics.
Import JS InsightEngine.

(** Case analysis on every truthiness test and comparison of the goal. *)
Ltac split_tests :=
  repeat match goal with
         | |- context [ToBoolean ?v] => destruct (ToBoolean v)
         | |- context [gt ?a ?b] => destruct (gt a b)
         | |- context [lt ?a ?b] => destruct (lt a b)
         end.

(** Case analysis on the conditions of one statement of a generator. *)
Ltac rule_cases f :=
  unfold f, push;
  repeat match goal with
         | |- context [if ?b then _ else _] => destruct b
         end.

Ltac solve_appends f :=
  split; [intros h; rule_cases f; cbn; rewrite ?app_nil_r; reflexivity|];
  split; [rule_cases f; cbn; lia|];
  rule_cases f; cbn;
  repeat first [ apply Forall_nil_2
               | apply Forall_cons_2; [cbn; first [left; reflexivity | right; reflexivity]|] ].

Ltac solve_risk f :=
  split; [intros h; rule_cases f; cbn; rewrite ?app_nil_r; reflexivity|];
  rule_cases f; cbn; lia.

End Tactics.

(* ===================================================================== *)
(** * Properties of the indicator engine *)
(* ===================================================================== *)

Module IndicatorFacts.
Import JS IndicatorEngine.

Section SliceFacts.
Context {A : Type}.

(** Inside the array, [slice] is the sub-list between its two indices. *)
Lemma slice_in_range (arr : list A) (a b : nat) :
  a <= b -> b <= length arr ->
  slice arr (Z.of_nat a) (Z.of_nat b) = take (b - a) (drop a arr).
Proof.
  intros Hab Hb. unfold slice, relative_index.
  destruct (Z.ltb_spec (Z.of_nat a) 0); [lia|].
  destruct (Z.ltb_spec (Z.of_nat b) 0); [lia|].
  f_equal; [|f_equal]; lia.
Qed.

(** The slice taken by [calculateMA] and [calculateSTD] at an index past
    the warm-up is the trailing window. *)
Lemma slice_trailing (arr : list A) (idx N : nat) :
  0 < N -> N - 1 <= idx -> idx < length arr ->
  slice arr (Z.of_nat idx - Z.of_nat N + 1) (Z.of_nat idx + 1) = window arr idx N.
Proof.
  intros HN Hle Hlt. unfold window.
  replace (Z.of_nat idx - Z.of_nat N + 1)%Z with (Z.of_nat (idx + 1 - N)) by lia.
  replace (Z.of_nat idx + 1)%Z with (Z.of_nat (idx + 1)) by lia.
  rewrite slice_in_range by lia. f_equal. lia.
Qed.

Lemma window_length (arr : list A) (idx N : nat) :
  N - 1 <= idx -> idx < length arr -> length (window arr idx N) = N.
Proof.
  intros Hle Hlt. unfold window. rewrite length_take, length_drop. lia.
Qed.
End SliceFacts.

Section EngineFacts.
Context {num : Type} `{Arith num}.

Lemma calculateMA_length (close : list num) (days : Z) :
  length (calculateMA close days) = length close.
Proof. unfold calculateMA. apply length_imap. Qed.

(** Every element of [calculateMA]: [null] during the warm-up, the mean of
    the trailing window afterwards. *)
Lemma calculateMA_lookup (close : list num) (N i : nat) :
  0 < N -> i < length close ->
  calculateMA close (Z.of_nat N) !! i =
    Some (if decide (i < N - 1) then None
          else Some (arithmetic_mean (window close i N))).
Proof.
  intros HN Hi. unfold calculateMA. rewrite list_lookup_imap.
  destruct (lookup_lt_is_Some_2 close i Hi) as [c ->]. cbn. f_equal.
  destruct (Z.ltb_spec (Z.of_nat i) (Z.of_nat N - 1)) as [Hlt|Hge];
    destruct (decide (i < N - 1)) as [Hd|Hd]; try lia; [reflexivity|].
  rewrite slice_trailing by lia.
  unfold arithmetic_mean, reduce. rewrite window_length by lia. reflexivity.
Qed.

Lemma calculateSTD_length (close : list num) (days : Z) (m : series num) :
  length (calculateSTD close days m) = length close.
Proof. unfold calculateSTD. apply length_imap. Qed.

Lemma calculateSTD_lookup (close : list num) (m : series num) (N i : nat) :
  0 < N -> i < length close ->
  calculateSTD close (Z.of_nat N) m !! i =
    Some (if decide (i < N - 1) then None
          else Some (population_std (window close i N) (read_number m i))).
Proof.
  intros HN Hi. unfold calculateSTD. rewrite list_lookup_imap.
  destruct (lookup_lt_is_Some_2 close i Hi) as [c ->]. cbn. f_equal.
  destruct (Z.ltb_spec (Z.of_nat i) (Z.of_nat N - 1)) as [Hlt|Hge];
    destruct (decide (i < N - 1)) as [Hd|Hd]; try lia; [reflexivity|].
  rewrite slice_trailing by lia.
  unfold population_std, reduce. rewrite window_length by lia. reflexivity.
Qed.

(** A series whose every element is [null]. *)
Lemma all_null (s : series num) (n : nat) :
  length s = n -> (forall i, i < n -> s !! i = Some None) -> s = replicate n None.
Proof.
  intros Hlen Hall. apply list_eq. intros i.
  destruct (decide (i < n)) as [Hi|Hi].
  - rewrite Hall by done. symmetry. by apply lookup_replicate_2.
  - rewrite lookup_ge_None_2 by lia. symmetry.
    apply lookup_ge_None_2. rewrite length_replicate. lia.
Qed.

Lemma processedData_nonempty (data : list (Bar.t num)) :
  0 < length data ->
  exists r, processedData data = Some r /\
    close r = map Bar.close data /\
    ma5 r = calculateMA (close r) 5 /\
    ma20 r = calculateMA (close r) 20 /\
    ma60 r = calculateMA (close r) 60 /\
    ma120 r = calculateMA (close r) 120 /\
    bollUp r = imap (band add (calculateSTD (close r) 20 (ma20 r))) (ma20 r) /\
    bollDn r = imap (band sub (calculateSTD (close r) 20 (ma20 r))) (ma20 r).
Proof.
  intros Hlen. unfold processedData.
  destruct (decide (length data = 0)) as [H0|_]; [lia|].
  eexists. split; [reflexivity|]. cbn. repeat split; reflexivity.
Qed.

(** C2. For a non-empty bar sequence and a window [N] among 5, 20, 60 and
    120, the array [ma{N}] has the length of the input, is [null] at every
    index below [N - 1], and from [N - 1] on holds the arithmetic mean of
    the closes [close[i-N+1 .. i]]: their sum divided by [N], with no other
    term. *)
Theorem moving_average_windows (data : list (Bar.t num)) (N i : nat) :
  0 < length data ->
  N = 5 \/ N = 20 \/ N = 60 \/ N = 120 ->
  i < length data ->
  exists r, processedData data = Some r /\
    length (ma r N) = length data /\
    (i < N - 1 -> ma r N !! i = Some None) /\
    (N - 1 <= i ->
       length (window (map Bar.close data) i N) = N /\
       ma r N !! i = Some (Some (arithmetic_mean (window (map Bar.close data) i N)))).
Proof.
  intros Hdata HN Hi.
  destruct (processedData_nonempty data Hdata)
    as (r & Hr & Hc & H5 & H20 & H60 & H120 & _).
  exists r. split; [exact Hr|].
  assert (Hma : ma r N = calculateMA (map Bar.close data) (Z.of_nat N)).
  { rewrite <- Hc. destruct HN as [ -> | [ -> | [ -> | -> ] ] ]; cbn; assumption. }
  assert (HN0 : 0 < N) by lia.
  assert (Hi' : i < length (map Bar.close data)) by (rewrite length_map; exact Hi).
  rewrite Hma. split; [|split].
  - rewrite calculateMA_length. apply length_map.
  - intros Hlt. rewrite calculateMA_lookup by assumption.
    destruct (decide (i < N - 1)); [reflexivity|lia].
  - intros Hge. split; [apply window_length; assumption|].
    rewrite calculateMA_lookup by assumption.
    destruct (decide (i < N - 1)); [lia|reflexivity].
Qed.

(** C3. For a non-empty bar sequence: wherever [ma20[i]] is [null] both
    bands are [null]; at every index [i >= 19] the band half-width is twice
    the population standard deviation of [close[i-19 .. i]] around
    [ma20[i]] (squared deviations summed and divided by 20), added to and
    subtracted from [ma20[i]]; with fewer than 20 bars [ma20], [bollUp] and
    [bollDn] are entirely [null]. *)
Theorem bollinger_bands (data : list (Bar.t num)) (i : nat) :
  0 < length data ->
  i < length data ->
  exists r, processedData data = Some r /\
    (ma20 r !! i = Some None ->
       bollUp r !! i = Some None /\ bollDn r !! i = Some None) /\
    (19 <= i ->
       length (window (map Bar.close data) i 20) = 20 /\
       ma20 r !! i = Some (Some (arithmetic_mean (window (map Bar.close data) i 20))) /\
       bollUp r !! i =
         Some (Some (add (arithmetic_mean (window (map Bar.close data) i 20))
                         (mul (of_Z 2)
                              (population_std (window (map Bar.close data) i 20)
                                 (arithmetic_mean (window (map Bar.close data) i 20)))))) /\
       bollDn r !! i =
         Some (Some (sub (arithmetic_mean (window (map Bar.close data) i 20))
                         (mul (of_Z 2)
                              (population_std (window (map Bar.close data) i 20)
                                 (arithmetic_mean (window (map Bar.close data) i 20))))))) /\
    (length data < 20 ->
       ma20 r = replicate (length data) None /\
       bollUp r = replicate (length data) None /\
       bollDn r = replicate (length data) None).
Proof.
  intros Hdata Hi.
  destruct (processedData_nonempty data Hdata)
    as (r & Hr & Hc & _ & H20 & _ & _ & Hup & Hdn).
  exists r. split; [exact Hr|].
  rewrite Hup, Hdn, H20, Hc. clear Hup Hdn H20 Hc Hr r.
  set (cl := map Bar.close data).
  assert (Hlen : length cl = length data) by apply length_map.
  assert (Hma : forall j, j < length data ->
            calculateMA cl 20 !! j =
              Some (if decide (j < 19) then None
                    else Some (arithmetic_mean (window cl j 20)))).
  { intros j Hj. apply (calculateMA_lookup cl 20 j); lia. }
  assert (Hstd : forall j, j < length data ->
            calculateSTD cl 20 (calculateMA cl 20) !! j =
              Some (if decide (j < 19) then None
                    else Some (population_std (window cl j 20)
                                 (read_number (calculateMA cl 20) j)))).
  { intros j Hj. apply (calculateSTD_lookup cl _ 20 j); lia. }
  split; [|split].
  - intros Hnull. rewrite !list_lookup_imap, Hnull. cbn. split; reflexivity.
  - intros Hge. split; [apply window_length; lia|].
    rewrite !list_lookup_imap, Hma by assumption.
    destruct (decide (i < 19)); [lia|]. cbn.
    unfold band. rewrite Hstd by assumption.
    destruct (decide (i < 19)); [lia|].
    unfold read_number. rewrite Hma by assumption.
    destruct (decide (i < 19)); [lia|]. repeat split; reflexivity.
  - intros Hshort.
    assert (Hnull : forall j, j < length data -> calculateMA cl 20 !! j = Some None).
    { intros j Hj. rewrite Hma by assumption.
      destruct (decide (j < 19)); [reflexivity|lia]. }
    split; [|split]; apply all_null;
      rewrite ?length_imap, ?calculateMA_length; try assumption.
    + intros j Hj. rewrite list_lookup_imap, Hnull by assumption. reflexivity.
    + intros j Hj. rewrite list_lookup_imap, Hnull by assumption. reflexivity.
Qed.

(** C4 (as amended). [processedData] returns [null] exactly for the empty
    bar sequence: the empty input gives no series at all (and no error),
    every non-empty input gives one. *)
Theorem empty_input_is_null (data : list (Bar.t num)) :
  processedData data = None <-> data = [].
Proof.
  unfold processedData. destruct data as [|b data]; cbn.
  - split; reflexivity.
  - split; discriminate.
Qed.

End EngineFacts.

(** Witness of C2: the 21 sample bars, window 5, index 4. *)
Lemma moving_average_windows_witness :
  exists r, processedData sample_bars = Some r /\
    length (ma r 5) = length sample_bars /\
    (4 < 5 - 1 -> ma r 5 !! 4 = Some None) /\
    (5 - 1 <= 4 ->
       length (window (map Bar.close sample_bars) 4 5) = 5 /\
       ma r 5 !! 4 = Some (Some (arithmetic_mean (window (map Bar.close sample_bars) 4 5)))).
Proof.
  apply (moving_average_windows sample_bars 5 4).
  - simpl. lia.
  - left. reflexivity.
  - simpl. lia.
Defined.

(** Witness of C3: the 21 sample bars at index 19. *)
Lemma bollinger_bands_witness :
  exists r, processedData sample_bars = Some r /\
    (ma20 r !! 19 = Some None ->
       bollUp r !! 19 = Some None /\ bollDn r !! 19 = Some None) /\
    (19 <= 19 ->
       length (window (map Bar.close sample_bars) 19 20) = 20 /\
       ma20 r !! 19 = Some (Some (arithmetic_mean (window (map Bar.close sample_bars) 19 20))) /\
       bollUp r !! 19 =
         Some (Some (add (arithmetic_mean (window (map Bar.close sample_bars) 19 20))
                         (mul (of_Z 2)
                              (population_std (window (map Bar.close sample_bars) 19 20)
                                 (arithmetic_mean (window (map Bar.close sample_bars) 19 20)))))) /\
       bollDn r !! 19 =
         Some (Some (sub (arithmetic_mean (window (map Bar.close sample_bars) 19 20))
                         (mul (of_Z 2)
                              (population_std (window (map Bar.close sample_bars) 19 20)
                                 (arithmetic_mean (window (map Bar.close sample_bars) 19 20))))))) /\
    (length sample_bars < 20 ->
       ma20 r = replicate (length sample_bars) None /\
       bollUp r = replicate (length sample_bars) None /\
       bollDn r = replicate (length sample_bars) None).
Proof.
  apply (bollinger_bands sample_bars 19); simpl; lia.
Defined.

(** Counterexample to C4 as stated: on the empty bar sequence there is no
    IndicatorSeries, empty or otherwise; the result is [null]. *)
Lemma empty_input_no_series :
  processedData (num := float) [] = None /\
  ~ (exists r : Processed float, processedData [] = Some r /\ length (close r) = 0).
Proof.
  split; [reflexivity|]. intros (r & Hr & _). discriminate Hr.
Qed.

(** Evaluation in binary64: the 5-bar mean at index 4 of the sample, and
    the 20-bar bands at index 19. *)
Example sample_ma5_at_4 :
  (processedData sample_bars) ≫= (fun r => ma5 r !! 4) = Some (Some 10.7%float).
Proof. vm_compute. reflexivity. Qed.

Example sample_ma5_warm_up :
  (processedData sample_bars) ≫= (fun r => ma5 r !! 3) = Some None.
Proof. vm_compute. reflexivity. Qed.

End IndicatorFacts.

(* ===================================================================== *)
(** * Properties of the insight engine *)
(* ===================================================================== *)

Module InsightFacts.
Import JS InsightEngine InsightSpec InsightSamples Tactics.
Local Open Scope float_scope.

(** ** Sorting by a key *)

Section SortFacts.
Context {A : Type} (key : A -> Z).


Lemma insert_sorted_elem (x y : A) (l : list A) :
  y ∈ insert_sorted (by_key key) x l <-> y = x \/ y ∈ l.
Proof.
  induction l as [|z l IH]; cbn.
  - rewrite list_elem_of_singleton, elem_of_nil. tauto.
  - destruct (Z.leb_spec (by_key key x z) 0); rewrite !elem_of_cons.
    + tauto.
    + rewrite IH. tauto.
Qed.

Lemma insert_sorted_sorted (x : A) (l : list A) :
  StronglySorted (key_le key) l -> StronglySorted (key_le key) (insert_sorted (by_key key) x l).
Proof.
  induction 1 as [|z l Hl IH Hz]; cbn.
  - repeat constructor.
  - destruct (Z.leb_spec (by_key key x z) 0) as [Hle|Hgt]; unfold by_key in *.
    + constructor; [constructor; assumption|].
      constructor; [unfold key_le; lia|].
      eapply Forall_impl; [exact Hz|]. unfold key_le. intros; lia.
    + constructor; [exact IH|].
      apply Forall_forall. intros y Hy. apply insert_sorted_elem in Hy.
      destruct Hy as [->|Hy]; [unfold key_le; lia|].
      rewrite Forall_forall in Hz. apply Hz, Hy.
Qed.

(** The result of [sort] ascends in the key. *)
Lemma sort_sorted (l : list A) : StronglySorted (key_le key) (sort (by_key key) l).
Proof.
  induction l as [|x l IH]; [constructor|].
  change (sort (by_key key) (x :: l)) with (insert_sorted (by_key key) x (sort (by_key key) l)).
  apply insert_sorted_sorted, IH.
Qed.

Lemma insert_sorted_filter (p : Z) (x : A) (l : list A) :
  filter (fun a => key a = p) (insert_sorted (by_key key) x l) =
  filter (fun a => key a = p) (x :: l).
Proof.
  induction l as [|z l IH]; cbn; [reflexivity|].
  destruct (Z.leb_spec (by_key key x z) 0) as [Hle|Hgt]; [reflexivity|].
  unfold by_key in Hgt. rewrite (filter_cons _ z), IH, !filter_cons.
  destruct (decide (key z = p)), (decide (key x = p)); try reflexivity; lia.
Qed.

(** [sort] is stable: the elements of one key keep their order. *)
Lemma sort_stable (p : Z) (l : list A) :
  filter (fun a => key a = p) (sort (by_key key) l) = filter (fun a => key a = p) l.
Proof.
  induction l as [|x l IH]; [reflexivity|].
  change (sort (by_key key) (x :: l)) with (insert_sorted (by_key key) x (sort (by_key key) l)).
  rewrite insert_sorted_filter, !filter_cons, IH. reflexivity.
Qed.

Lemma sort_elem (y : A) (l : list A) : y ∈ sort (by_key key) l <-> y ∈ l.
Proof.
  induction l as [|x l IH]; [reflexivity|].
  change (sort (by_key key) (x :: l)) with (insert_sorted (by_key key) x (sort (by_key key) l)).
  rewrite insert_sorted_elem, elem_of_cons, IH. reflexivity.
Qed.

Lemma filter_none (P : A -> Prop) `{forall a, Decision (P a)} (l : list A) :
  Forall (fun a => ~ P a) l -> filter P l = [].
Proof.
  induction 1 as [|x l Hx _ IH]; [reflexivity|].
  rewrite filter_cons_False by assumption. exact IH.
Qed.

Lemma filter_all (P : A -> Prop) `{forall a, Decision (P a)} (l : list A) :
  Forall P l -> filter P l = l.
Proof.
  induction 1 as [|x l Hx _ IH]; [reflexivity|].
  rewrite filter_cons_True by assumption. f_equal. exact IH.
Qed.

(** A list sorted by a key that only takes the values 1 and 2 is its
    elements of key 1 followed by its elements of key 2. *)
Lemma sorted_two_keys (l : list A) :
  StronglySorted (key_le key) l ->
  Forall (fun a => key a = 1%Z \/ key a = 2%Z) l ->
  l = filter (fun a => key a = 1%Z) l ++ filter (fun a => key a = 2%Z) l.
Proof.
  induction 1 as [|x l Hl IH Hx]; intros Hk; [reflexivity|].
  apply Forall_cons in Hk as [Hkx Hk]. specialize (IH Hk).
  rewrite !filter_cons.
  destruct (decide (key x = 1%Z)) as [H1|H1], (decide (key x = 2%Z)) as [H2|H2];
    try lia.
  - cbn. f_equal. exact IH.
  - assert (Hall : Forall (fun a => key a = 2%Z) l).
    { rewrite Forall_forall in Hx, Hk |- *. intros y Hy.
      specialize (Hx y Hy). specialize (Hk y Hy). unfold key_le in Hx. lia. }
    rewrite filter_none, filter_all; [reflexivity|assumption|].
    eapply Forall_impl; [exact Hall|]. cbn. intros; lia.
Qed.

(** [slice(0, n)] keeps the first [n] elements. *)
Lemma slice_prefix (l : list A) (n : nat) : slice l 0 (Z.of_nat n) = take n l.
Proof.
  unfold slice, relative_index.
  destruct (Z.ltb_spec 0 0); [lia|].
  destruct (Z.ltb_spec (Z.of_nat n) 0); [lia|].
  rewrite (Z.min_l 0) by lia. change (Z.to_nat 0) with 0%nat. rewrite drop_0.
  destruct (decide (n <= length l)).
  - f_equal. lia.
  - rewrite !take_ge by lia. reflexivity.
Qed.

End SortFacts.

(** ** Each statement of the two generators appends at most one item *)

Section Rules.
Variable data : Data.t.
Variable summary : Summary.t.

Lemma highlightROE_appends : appends_one (highlightROE summary).
Proof. solve_appends highlightROE. Qed.

Lemma highlightGrossMargin_appends : appends_one (highlightGrossMargin summary).
Proof. solve_appends highlightGrossMargin. Qed.

Lemma highlightDebtRatio_appends : appends_one (highlightDebtRatio summary).
Proof. solve_appends highlightDebtRatio. Qed.

Lemma highlightGrowth_appends : appends_one (highlightGrowth data).
Proof. solve_appends highlightGrowth. Qed.

Lemma highlightMomentum_appends : appends_one (highlightMomentum data).
Proof. solve_appends highlightMomentum. Qed.

Lemma highlightDividend_appends : appends_one (highlightDividend data).
Proof. solve_appends highlightDividend. Qed.

Lemma highlightCashFlow_appends : appends_one (highlightCashFlow data).
Proof. solve_appends highlightCashFlow. Qed.

Lemma highlightPE_appends : appends_one (highlightPE data).
Proof. solve_appends highlightPE. Qed.

Lemma riskValuation_appends : appends_risk (riskValuation data).
Proof. solve_risk riskValuation. Qed.

Lemma riskDCF_appends : appends_risk (riskDCF data).
Proof. solve_risk riskDCF. Qed.

Lemma riskROE_appends : appends_risk (riskROE summary).
Proof. solve_risk riskROE. Qed.

Lemma riskDebt_appends : appends_risk (riskDebt summary).
Proof. solve_risk riskDebt. Qed.

Lemma riskNetMargin_appends : appends_risk (riskNetMargin summary).
Proof. solve_risk riskNetMargin. Qed.

Lemma riskGrowth_appends : appends_risk (riskGrowth data).
Proof. solve_risk riskGrowth. Qed.

Lemma riskCashFlow_appends : appends_risk (riskCashFlow data).
Proof. solve_risk riskCashFlow. Qed.

Lemma riskMomentum_appends : appends_risk (riskMomentum data).
Proof. solve_risk riskMomentum. Qed.

Lemma emittedHighlights_in_order :
  emittedHighlights data summary = highlightsInOrder data summary.
Proof.
  unfold emittedHighlights, highlightsInOrder. cbv zeta.
  rewrite (proj1 highlightPE_appends), (proj1 highlightCashFlow_appends),
    (proj1 highlightDividend_appends), (proj1 highlightMomentum_appends),
    (proj1 highlightGrowth_appends), (proj1 highlightDebtRatio_appends),
    (proj1 highlightGrossMargin_appends).
  rewrite <- !app_assoc. reflexivity.
Qed.

Lemma highlightsInOrder_priorities :
  Forall (fun a => Highlight.priority a = 1%Z \/ Highlight.priority a = 2%Z)
         (highlightsInOrder data summary).
Proof.
  unfold highlightsInOrder. repeat apply Forall_app_2.
  - apply highlightROE_appends.
  - apply highlightGrossMargin_appends.
  - apply highlightDebtRatio_appends.
  - apply highlightGrowth_appends.
  - apply highlightMomentum_appends.
  - apply highlightDividend_appends.
  - apply highlightCashFlow_appends.
  - apply highlightPE_appends.
Qed.

End Rules.

(** ** Valuation status *)

(** C1 (as amended). The valuation status is the indeterminate label when
    the price is not usable (missing, or zero); otherwise it is the label
    of the two counts over the three signals (DCF margin against 20 and
    -20, price against 0.8 and 1.2 times each DDM value, a DDM value taking
    part only when it is usable), undervalued counts being looked at before
    overvalued ones. *)
Theorem valuation_status_rule (data : Data.t) :
  getValuationStatus data = amended_valuation_status (valuation data).
Proof.
  unfold getValuationStatus, amended_valuation_status, valuation_status,
    signals, dcf_signal, ddm_signal, usable.
  split_tests; reflexivity.
Qed.

(** Counterexample to C1 as stated.  A DDM (Gordon) value that is present
    and equal to 0, with the price at 10: the claimed rule counts
    [10 > 0 * 1.2] as an overvalued signal, the code skips the test.  A
    price that is present and equal to 0, with a DCF margin of 25: the
    claimed rule tallies one undervalued signal, the code answers
    "indeterminate". *)
Lemma valuation_status_zero_inputs :
  status (claimed_valuation_status zero_gordon) = "相对高估" /\
  status (getValuationStatus (data_of zero_gordon)) = "估值合理" /\
  status (claimed_valuation_status zero_price) = "相对低估" /\
  status (getValuationStatus (data_of zero_price)) = "无法判断".
Proof. vm_compute. repeat split; reflexivity. Qed.

(** The tie-break of C1 on the label function: one undervalued signal wins
    over any number of overvalued ones. *)
Lemma undervalued_before_overvalued (over : nat) :
  status (label_of_counts 1 over) = "相对低估" /\
  status (label_of_counts 2 over) = "明显低估".
Proof. split; reflexivity. Qed.

(** ** Growth *)

(** A list with two elements or more ends with [prev; latest]. *)
Lemma last_two {A : Type} (l : list A) :
  2 <= length l -> exists older prev latest, l = older ++ [prev; latest].
Proof.
  intros Hlen. exists (take (length l - 2) l).
  destruct (drop (length l - 2) l) as [|prev [|latest [|]]] eqn:Hd;
    pose proof (f_equal length Hd) as Hl; rewrite length_drop in Hl; cbn in Hl;
    try lia.
  exists prev, latest. rewrite <- Hd. symmetry. apply take_drop.
Qed.

Lemma calcGrowthRate_two (data : Data.t) (older : list AnnualPoint.t)
  (prev latest : AnnualPoint.t) :
  annualTrend data = older ++ [prev; latest] ->
  calcGrowthRate data =
    if usable (AnnualPoint.revenue_yi prev) then
      Some {| revenueGrowth :=
                toFixed (growth_pct (AnnualPoint.revenue_yi latest)
                                    (AnnualPoint.revenue_yi prev)) 1;
              profitGrowth :=
                toFixed (growth_pct (AnnualPoint.net_profit_yi latest)
                                    (AnnualPoint.net_profit_yi prev)) 1 |}
    else None.
Proof.
  intros Htrend. unfold calcGrowthRate. rewrite Htrend.
  rewrite length_app. cbn [length].
  destruct (Nat.ltb_spec (length older + 2) 2) as [Hlt|_]; [lia|].
  replace (length older + 2 - 1)%nat with (length older + 1)%nat by lia.
  replace (length older + 2 - 2)%nat with (length older + 0)%nat by lia.
  rewrite !lookup_app_r by lia.
  replace (length older + 1 - length older)%nat with 1%nat by lia.
  replace (length older + 0 - length older)%nat with 0%nat by lia.
  cbn [lookup list_lookup]. unfold usable, growth_pct.
  destruct (ToBoolean (AnnualPoint.revenue_yi prev)); reflexivity.
Qed.

(** C8 (as amended). A growth record is produced exactly when the trend
    has two points or more and the revenue of the one before last is
    usable (present and not zero); it then holds, as [toFixed(1)] strings,
    the percentage change of revenue and of net profit, each delta divided
    by the earlier value; otherwise the result is [null]. *)
Theorem growth_derivation (data : Data.t) :
  (is_Some (calcGrowthRate data) <->
     exists older prev latest,
       annualTrend data = older ++ [prev; latest] /\
       usable (AnnualPoint.revenue_yi prev) = true) /\
  (forall older prev latest,
     annualTrend data = older ++ [prev; latest] ->
     usable (AnnualPoint.revenue_yi prev) = true ->
     calcGrowthRate data =
       Some {| revenueGrowth :=
                 toFixed (growth_pct (AnnualPoint.revenue_yi latest)
                                     (AnnualPoint.revenue_yi prev)) 1;
               profitGrowth :=
                 toFixed (growth_pct (AnnualPoint.net_profit_yi latest)
                                     (AnnualPoint.net_profit_yi prev)) 1 |}) /\
  (length (annualTrend data) < 2 -> calcGrowthRate data = None).
Proof.
  split; [|split].
  - split.
    + intros Hsome.
      destruct (decide (2 <= length (annualTrend data))) as [Hlen|Hlen].
      * destruct (last_two _ Hlen) as (older & prev & latest & Htrend).
        exists older, prev, latest. split; [exact Htrend|].
        rewrite (calcGrowthRate_two data older prev latest Htrend) in Hsome.
        destruct (usable (AnnualPoint.revenue_yi prev)); [reflexivity|].
        destruct Hsome as [g Hg]. discriminate Hg.
      * unfold calcGrowthRate in Hsome.
        destruct (Nat.ltb_spec (length (annualTrend data)) 2); [|lia].
        destruct Hsome as [g Hg]. discriminate Hg.
    + intros (older & prev & latest & Htrend & Huse).
      rewrite (calcGrowthRate_two data older prev latest Htrend), Huse. eauto.
  - intros older prev latest Htrend Huse.
    rewrite (calcGrowthRate_two data older prev latest Htrend), Huse. reflexivity.
  - intros Hlen. unfold calcGrowthRate.
    destruct (Nat.ltb_spec (length (annualTrend data)) 2); [reflexivity|lia].
Qed.

(** Counterexample to C8 as stated.  Revenue 10000 then 10001: the
    percentage [(10001 - 10000) / 10000 * 100] is 0.01, the record holds
    the string ["0.0"], whose value is 0; and the profit growth
    [(6 - 5) / 5 * 100] is held as ["20.0"]. *)
Lemma growth_record_is_rounded :
  calcGrowthRate flat_revenue =
    Some {| revenueGrowth := Decimal false 0 1; profitGrowth := Decimal false 200 1 |} /\
  growth_pct (Some 10001) (Some 10000) = 0.01 /\
  StringToNumber (Decimal false 0 1) = 0 /\
  PrimFloat.eqb (StringToNumber (Decimal false 0 1))
                (growth_pct (Some 10001) (Some 10000)) = false.
Proof. vm_compute. repeat split; reflexivity. Qed.

(** ** Cash-flow health *)

(** C9 (as amended). Cash-flow health is "insufficient data" exactly when
    the operating cash flow or the net profit is not usable (missing, or
    zero); otherwise it is the class of the ratio of the two: above 1.2,
    above 0.8, above 0.5, or poor. *)
Theorem cash_flow_health_rule (data : Data.t) :
  getCashFlowHealth data =
    amended_cash_flow_health (CashFlow.latest_cfo_yi (cashFlow data))
                             (Fundamentals.net_profit_yi (fundamentals data)) /\
  (Health.status (getCashFlowHealth data) = "数据不足" <->
     usable (CashFlow.latest_cfo_yi (cashFlow data)) = false \/
     usable (Fundamentals.net_profit_yi (fundamentals data)) = false).
Proof.
  unfold getCashFlowHealth, amended_cash_flow_health, cash_flow_health,
    health_of_ratio, insufficient_data, usable.
  split.
  - split_tests; reflexivity.
  - split_tests; cbn; split; intros Hs;
      first [ discriminate Hs | destruct Hs as [Hs|Hs]; discriminate Hs
            | tauto | reflexivity ].
Qed.

(** Counterexample to C9 as stated.  An operating cash flow that is present
    and equal to 0 (net profit 10) is answered like a missing one, with
    "insufficient data"; the claimed rule takes the ratio 0 and answers
    "poor". *)
Lemma cash_flow_zero_is_missing :
  getCashFlowHealth zero_cfo = getCashFlowHealth missing_cfo /\
  Health.status (getCashFlowHealth zero_cfo) = "数据不足" /\
  Health.status (claimed_cash_flow_health (Some 0) (Some 10)) = "较差".
Proof. vm_compute. repeat split; reflexivity. Qed.

(** ** Highlights and risks *)

(** C10. The highlights are at most five, ascend in priority, and are the
    first five of: the emitted items of priority 1 in evaluation order,
    then those of priority 2 in evaluation order.  The risks are at most
    five and are the first five emitted items in evaluation order, never
    sorted. *)
Theorem ranked_lists (data : Data.t) (summary : Summary.t) :
  length (generateHighlights data summary) <= 5 /\
  StronglySorted priority_le (generateHighlights data summary) /\
  generateHighlights data summary =
    take 5 (of_priority 1 (highlightsInOrder data summary) ++
            of_priority 2 (highlightsInOrder data summary)) /\
  length (generateRisks data summary) <= 5 /\
  generateRisks data summary = take 5 (risksInOrder data summary).
Proof.
  assert (Hgen : generateHighlights data summary =
                 take 5 (sort (by_key Highlight.priority)
                              (highlightsInOrder data summary))).
  { unfold generateHighlights. cbv zeta. rewrite emittedHighlights_in_order.
    apply (slice_prefix _ 5). }
  assert (Hsorted := sort_sorted Highlight.priority (highlightsInOrder data summary)).
  split; [|split; [|split; [|split]]].
  - rewrite Hgen, length_take. lia.
  - rewrite Hgen.
    rewrite <- (take_drop 5 (sort _ _)) in Hsorted.
    apply StronglySorted_app_1_l in Hsorted. exact Hsorted.
  - rewrite Hgen. f_equal.
    rewrite (sorted_two_keys Highlight.priority _ Hsorted) at 1.
    + unfold of_priority. rewrite !sort_stable. reflexivity.
    + apply Forall_forall. intros a Ha. apply sort_elem in Ha.
      pose proof (highlightsInOrder_priorities data summary) as Hp.
      rewrite Forall_forall in Hp. apply Hp, Ha.
  - unfold generateRisks. cbv zeta. rewrite (slice_prefix _ 5), length_take. lia.
  - unfold generateRisks, risksInOrder. cbv zeta. rewrite (slice_prefix _ 5). f_equal.
    rewrite (proj1 (riskMomentum_appends data)), (proj1 (riskCashFlow_appends data)),
      (proj1 (riskGrowth_appends data)), (proj1 (riskNetMargin_appends summary)),
      (proj1 (riskDebt_appends summary)), (proj1 (riskROE_appends summary)),
      (proj1 (riskDCF_appends data)).
    rewrite <- !app_assoc. reflexivity.
Qed.

(** Evaluation of the two generators.  Eight highlights are emitted with
    priorities 2 1 2 1 1 2 1 2; the five shown have priorities 1 1 1 1 2.
    Eight risks are emitted, "medium" third; the five shown keep that order. *)
Example strong_company_highlights :
  map Highlight.priority (emittedHighlights strong_data strong_summary)
    = [2; 1; 2; 1; 1; 2; 1; 2]%Z /\
  map Highlight.priority (generateHighlights strong_data strong_summary)
    = [1; 1; 1; 1; 2]%Z.
Proof. vm_compute. split; reflexivity. Qed.

Example weak_company_risks :
  map Risk.level (risksInOrder weak_data weak_summary)
    = ["high"; "high"; "medium"; "high"; "high"; "high"; "high"; "high"] /\
  map Risk.level (generateRisks weak_data weak_summary)
    = ["high"; "high"; "medium"; "high"; "high"].
Proof. vm_compute. split; reflexivity. Qed.

End InsightFacts.

(* ===================================================================== *)
(** * Properties of the event bus *)
(* ===================================================================== *)

Module EventBusFacts.
Import EventBus.

(** ** Sets *)

Lemma elem_of_elements (s : CallbackSet) (cb : handler) :
  cb ∈ elements s <-> Some cb ∈ s.
Proof.
  unfold elements. rewrite list_elem_of_omap. split.
  - intros (e & He & Hid). cbn in Hid. subst e. exact He.
  - intros He. exists (Some cb). split; [exact He|reflexivity].
Qed.

Lemma elements_app (s1 s2 : CallbackSet) :
  elements (s1 ++ s2) = elements s1 ++ elements s2.
Proof. apply omap_app. Qed.

Lemma elements_set_add (s : CallbackSet) (cb : handler) :
  elements (set_add s cb) =
    if bool_decide (cb ∈ elements s) then elements s else elements s ++ [cb].
Proof.
  unfold set_add, set_has.
  destruct (bool_decide_reflect (Some cb ∈ s)) as [Hin|Hout];
    destruct (bool_decide_reflect (cb ∈ elements s)) as [Hin'|Hout'];
    rewrite elem_of_elements in *; try tauto.
  apply elements_app.
Qed.

Lemma set_add_idem (s : CallbackSet) (cb : handler) :
  set_add (set_add s cb) cb = set_add s cb.
Proof.
  unfold set_add, set_has.
  destruct (bool_decide_reflect (Some cb ∈ s)) as [Hin|Hout].
  - rewrite bool_decide_eq_true_2 by exact Hin. reflexivity.
  - rewrite bool_decide_eq_true_2; [reflexivity|].
    apply elem_of_app. right. apply list_elem_of_singleton. reflexivity.
Qed.

Lemma set_add_NoDup (s : CallbackSet) (cb : handler) :
  NoDup (elements s) -> NoDup (elements (set_add s cb)).
Proof.
  intros Hnd. rewrite elements_set_add.
  destruct (bool_decide_reflect (cb ∈ elements s)) as [Hin|Hout]; [exact Hnd|].
  apply NoDup_app. split; [exact Hnd|]. split.
  - intros x Hx Hx'. apply list_elem_of_singleton in Hx'. subst x. tauto.
  - apply NoDup_singleton.
Qed.

Lemma set_delete_absent (s : CallbackSet) (cb : handler) :
  Some cb ∉ s -> set_delete s cb = s.
Proof.
  induction s as [|e s IH]; intros Hout; cbn; [reflexivity|].
  apply not_elem_of_cons in Hout as [Hne Hout].
  destruct (decide (e = Some cb)) as [->|_]; [tauto|].
  rewrite IH by exact Hout. reflexivity.
Qed.

Lemma elements_set_delete (s : CallbackSet) (cb : handler) :
  NoDup (elements s) ->
  elements (set_delete s cb) = filter (fun h => h <> cb) (elements s).
Proof.
  induction s as [|e s IH]; intros Hnd; [reflexivity|].
  cbn [set_delete].
  destruct (decide (e = Some cb)) as [->|Hne].
  - change (elements (None :: s)) with (elements s).
    change (elements (Some cb :: s)) with (cb :: elements s) in *.
    apply NoDup_cons in Hnd as [Hout Hnd].
    rewrite filter_cons_False by tauto.
    symmetry. clear IH Hnd. induction (elements s) as [|x l IHl]; [reflexivity|].
    apply not_elem_of_cons in Hout as [Hx Hout].
    rewrite filter_cons_True by congruence. f_equal. apply IHl, Hout.
  - destruct e as [h|].
    + change (elements (Some h :: set_delete s cb)) with (h :: elements (set_delete s cb)).
      change (elements (Some h :: s)) with (h :: elements s) in *.
      apply NoDup_cons in Hnd as [_ Hnd].
      rewrite filter_cons_True by congruence. f_equal. apply IH, Hnd.
    + change (elements (None :: set_delete s cb)) with (elements (set_delete s cb)).
      change (elements (None :: s)) with (elements s) in *.
      apply IH, Hnd.
Qed.

Lemma set_delete_NoDup (s : CallbackSet) (cb : handler) :
  NoDup (elements s) -> NoDup (elements (set_delete s cb)).
Proof.
  intros Hnd. rewrite elements_set_delete by exact Hnd. apply NoDup_filter, Hnd.
Qed.

Lemma set_delete_idem (s : CallbackSet) (cb : handler) :
  NoDup (elements s) -> set_delete (set_delete s cb) cb = set_delete s cb.
Proof.
  intros Hnd. apply set_delete_absent.
  rewrite <- elem_of_elements, elements_set_delete by exact Hnd.
  rewrite list_elem_of_filter. tauto.
Qed.

(** ** The store *)

Lemma wf_new_bus : wf new_bus.
Proof.
  repeat split; cbn.
  - intros k r Hk. rewrite lookup_empty in Hk. discriminate Hk.
  - intros k1 k2 r Hk. rewrite lookup_empty in Hk. discriminate Hk.
  - intros r s Hr. rewrite lookup_nil in Hr. discriminate Hr.
Qed.

(** Changing one set of the store by a function that keeps sets duplicate
    free keeps the store well formed. *)
Lemma wf_alter (b : ChartEventBus) (f : CallbackSet -> CallbackSet) (r : nat) :
  (forall s, NoDup (elements s) -> NoDup (elements (f s))) ->
  wf b -> wf {| listeners := listeners b; sets := alter f r (sets b) |}.
Proof.
  intros Hf (Hv & Hinj & Hnd). repeat split; cbn.
  - intros k r' Hk. rewrite length_alter. eapply Hv, Hk.
  - exact Hinj.
  - intros r' s Hs. rewrite list_lookup_alter in Hs.
    destruct (decide (r = r')) as [->|_]; [|eapply Hnd, Hs].
    destruct (sets b !! r') as [s'|] eqn:Hs'; [|discriminate Hs].
    cbn in Hs. injection Hs as <-. apply Hf. eapply Hnd, Hs'.
Qed.

Lemma wf_off (b : ChartEventBus) (k : string) (h : handler) :
  wf b -> wf (off b k h).
Proof.
  intros Hwf. unfold off. destruct (listeners b !! k) as [r|]; [|exact Hwf].
  apply wf_alter; [|exact Hwf]. intros s. apply set_delete_NoDup.
Qed.

Lemma wf_clear (b : ChartEventBus) : wf b -> wf (clear b).
Proof.
  intros (_ & _ & Hnd). repeat split; cbn.
  - intros k r Hk. rewrite lookup_empty in Hk. discriminate Hk.
  - intros k1 k2 r Hk. rewrite lookup_empty in Hk. discriminate Hk.
  - exact Hnd.
Qed.

Lemma with_set_lookup (b : ChartEventBus) (k : string) :
  wf b ->
  exists r, listeners (with_set b k) !! k = Some r /\
    sets (with_set b k) !! r = Some (default [] (sets b !! r)) /\
    registered (with_set b k) k = registered b k.
Proof.
  intros (Hv & _ & _). unfold with_set, registered.
  destruct (listeners b !! k) as [r|] eqn:Hk.
  - exists r. rewrite Hk. split; [reflexivity|]. split; [|reflexivity].
    destruct (lookup_lt_is_Some_2 (sets b) r (Hv k r Hk)) as [s ->]. reflexivity.
  - exists (length (sets b)). cbn. rewrite lookup_insert_eq.
    split; [reflexivity|].
    rewrite lookup_app_r by lia. rewrite Nat.sub_diag. cbn.
    rewrite (lookup_ge_None_2 (sets b)) by lia. split; reflexivity.
Qed.

Lemma wf_with_set (b : ChartEventBus) (k : string) : wf b -> wf (with_set b k).
Proof.
  intros (Hv & Hinj & Hnd). unfold with_set.
  destruct (listeners b !! k) as [r|] eqn:Hk; [repeat split; assumption|].
  repeat split; cbn.
  - intros k' r' Hk'. rewrite length_app. cbn.
    destruct (decide (k' = k)) as [E|Hne].
    + rewrite E, lookup_insert_eq in Hk'. injection Hk' as <-. lia.
    + rewrite lookup_insert_ne in Hk' by congruence. specialize (Hv k' r' Hk'). lia.
  - intros k1 k2 r' H1 H2.
    destruct (decide (k1 = k)) as [E1|N1]; destruct (decide (k2 = k)) as [E2|N2].
    + congruence.
    + rewrite E1, lookup_insert_eq in H1. injection H1 as <-.
      rewrite lookup_insert_ne in H2 by congruence. specialize (Hv k2 _ H2). lia.
    + rewrite E2, lookup_insert_eq in H2. injection H2 as <-.
      rewrite lookup_insert_ne in H1 by congruence. specialize (Hv k1 _ H1). lia.
    + rewrite lookup_insert_ne in H1 by congruence.
      rewrite lookup_insert_ne in H2 by congruence. eapply Hinj; eassumption.
  - intros r' s Hs.
    destruct (decide (r' < length (sets b))) as [Hlt|Hge].
    + rewrite lookup_app_l in Hs by exact Hlt. eapply Hnd, Hs.
    + rewrite lookup_app_r in Hs by lia.
      destruct (r' - length (sets b)) as [|n]; cbn in Hs; [|discriminate Hs].
      injection Hs as <-. apply NoDup_nil_2.
Qed.

Lemma on_unfold (b : ChartEventBus) (k : string) (h : handler) :
  on b k h =
    (match listeners (with_set b k) !! k with
     | Some r => {| listeners := listeners (with_set b k);
                    sets := alter (fun s => set_add s h) r (sets (with_set b k)) |}
     | None => with_set b k
     end, (k, h)).
Proof. reflexivity. Qed.

Lemma wf_on (b : ChartEventBus) (k : string) (h : handler) :
  wf b -> wf (on b k h).1.
Proof.
  intros Hwf. rewrite on_unfold. cbn [fst].
  pose proof (wf_with_set b k Hwf) as Hwf'.
  destruct (listeners (with_set b k) !! k) as [r|]; [|exact Hwf'].
  apply wf_alter; [|exact Hwf']. intros s. apply set_add_NoDup.
Qed.

(** After [on], the handler is registered once, after the handlers that
    were there; nothing changes when it was registered already. *)
Lemma registered_on (b : ChartEventBus) (k : string) (h : handler) :
  wf b ->
  registered (on b k h).1 k =
    if bool_decide (h ∈ registered b k) then registered b k
    else registered b k ++ [h].
Proof.
  intros Hwf. rewrite on_unfold. cbn [fst].
  destruct (with_set_lookup b k Hwf) as (r & Hk & Hs & Hreg).
  rewrite Hk. rewrite <- Hreg. unfold registered. cbn [listeners sets]. rewrite Hk.
  rewrite list_lookup_alter_eq, Hs. cbn [fmap option_fmap option_map default].
  unfold id. rewrite elements_set_add. reflexivity.
Qed.

(** After [off], the handler is not registered; the others are, in the
    same order. *)
Lemma registered_off (b : ChartEventBus) (k : string) (h : handler) :
  wf b ->
  registered (off b k h) k = filter (fun x => x <> h) (registered b k).
Proof.
  intros (Hv & _ & Hnd). unfold off, registered.
  destruct (listeners b !! k) as [r|] eqn:Hk; [|rewrite Hk; reflexivity].
  cbn [listeners sets]. rewrite Hk, list_lookup_alter_eq.
  destruct (lookup_lt_is_Some_2 (sets b) r (Hv k r Hk)) as [s Hs].
  rewrite Hs. cbn. apply elements_set_delete. eapply Hnd, Hs.
Qed.

(** [off] touches no other event type. *)
Lemma registered_off_other (b : ChartEventBus) (k k' : string) (h : handler) :
  wf b -> k <> k' -> registered (off b k h) k' = registered b k'.
Proof.
  intros (_ & Hinj & _) Hne. unfold off, registered.
  destruct (listeners b !! k) as [r|] eqn:Hk; [|reflexivity].
  cbn [listeners sets].
  destruct (listeners b !! k') as [r'|] eqn:Hk'; [|reflexivity].
  rewrite list_lookup_alter_ne; [reflexivity|].
  intros ->. apply Hne. eapply Hinj; eassumption.
Qed.

Lemma with_set_has (b : ChartEventBus) (k : string) (r : nat) :
  listeners b !! k = Some r -> with_set b k = b.
Proof. intros Hk. unfold with_set. rewrite Hk. reflexivity. Qed.

Lemma on_on (b : ChartEventBus) (k : string) (h : handler) :
  on (on b k h).1 k h = on b k h.
Proof.
  rewrite (on_unfold b k h). cbn [fst].
  destruct (listeners (with_set b k) !! k) as [r|] eqn:Hk.
  - rewrite on_unfold. 
    rewrite (with_set_has _ k r) by exact Hk. cbn [listeners sets]. rewrite Hk. f_equal. f_equal.
    rewrite list_alter_alter_eq. apply list_alter_ext; [|reflexivity].
    intros s _. cbn. apply set_add_idem.
  - exfalso. unfold with_set in Hk.
    destruct (listeners b !! k) eqn:Hk'; [congruence|].
    cbn in Hk. rewrite lookup_insert_eq in Hk. discriminate Hk.
Qed.
Lemma off_off (b : ChartEventBus) (k : string) (h : handler) :
  wf b -> off (off b k h) k h = off b k h.
Proof.
  intros (_ & _ & Hnd). unfold off at 2.
  destruct (listeners b !! k) as [r|] eqn:Hk.
  - unfold off. cbn [listeners sets]. rewrite Hk. f_equal.
    rewrite list_alter_alter_eq. apply list_alter_ext; [|reflexivity].
    intros s Hs. cbn. apply set_delete_idem. eapply Hnd, Hs.
  - unfold off. rewrite Hk. reflexivity.
Qed.

Section EmitFacts.
Variable program : handler -> list action.
Variable eventType : string.
Variable r : nat.

(** Whatever it does, a callback leaves the iterated [Set] in the store
    and gives it to no other event type. *)
Lemma run_action_owns (a : action) (b : ChartEventBus) :
  owns b eventType r -> owns (run_action a b).1 eventType r.
Proof.
  intros [Hlt Hown]. destruct a as [k cb|k cb| |e]; cbn [run_action fst].
  - rewrite on_unfold. cbn [fst].
    assert (Hw : owns (with_set b k) eventType r).
    { unfold with_set. destruct (listeners b !! k) as [r'|] eqn:Hk; [split; assumption|].
      split; cbn.
      - rewrite length_app. lia.
      - intros k' Hk'. destruct (decide (k' = k)) as [->|Hne].
        + rewrite lookup_insert_eq in Hk'. injection Hk' as Hr. lia.
        + rewrite lookup_insert_ne in Hk' by congruence. apply Hown, Hk'. }
    destruct Hw as [Hlt' Hown'].
    destruct (listeners (with_set b k) !! k); [|split; assumption].
    split; cbn; [rewrite length_alter; exact Hlt'|exact Hown'].
  - unfold off. destruct (listeners b !! k); [|split; assumption].
    split; cbn; [rewrite length_alter; exact Hlt|exact Hown].
  - split; cbn; [exact Hlt|]. intros k Hk. rewrite lookup_empty in Hk. discriminate Hk.
  - split; assumption.
Qed.

Lemma run_body_owns (body : list action) (b : ChartEventBus) :
  owns b eventType r -> owns (run_body body b).1 eventType r.
Proof.
  revert b. induction body as [|a body IH]; intros b Hown; [exact Hown|].
  cbn. pose proof (run_action_owns a b Hown) as Ha.
  destruct (run_action a b) as [b' [|e]]; cbn in *; [apply IH, Ha|exact Ha].
Qed.

(** An action that does not touch the event type leaves its set as it is. *)
Lemma run_action_quiet (a : action) (b : ChartEventBus) :
  owns b eventType r -> ~ touches eventType a ->
  sets (run_action a b).1 !! r = sets b !! r.
Proof.
  intros [Hlt Hown] Hq. destruct a as [k cb|k cb| |e]; cbn [run_action fst touches] in *.
  - rewrite on_unfold. cbn [fst]. unfold with_set.
    destruct (listeners b !! k) as [r'|] eqn:Hk.
    + rewrite Hk. cbn. apply list_lookup_alter_ne. intros ->. apply Hq, Hown, Hk.
    + cbn. rewrite lookup_insert_eq. cbn.
      rewrite list_lookup_alter_ne by lia. apply lookup_app_l, Hlt.
  - unfold off. destruct (listeners b !! k) as [r'|] eqn:Hk; [|reflexivity].
    cbn. apply list_lookup_alter_ne. intros ->. apply Hq, Hown, Hk.
  - reflexivity.
  - reflexivity.
Qed.

Lemma run_body_quiet (body : list action) (b : ChartEventBus) :
  owns b eventType r -> Forall (fun a => ~ touches eventType a) body ->
  sets (run_body body b).1 !! r = sets b !! r.
Proof.
  revert b. induction body as [|a body IH]; intros b Hown Hq; [reflexivity|].
  apply Forall_cons in Hq as [Ha Hq]. cbn.
  pose proof (run_action_owns a b Hown) as Hown'.
  pose proof (run_action_quiet a b Hown Ha) as Hsame.
  destruct (run_action a b) as [b' [|e]]; cbn in *; [|exact Hsame].
  rewrite IH by assumption. exact Hsame.
Qed.

(** A body completes abruptly exactly when it throws. *)
Lemma run_body_completion (body : list action) (b : ChartEventBus) :
  (run_body body b).2 = match thrown body with Some e => Abrupt e | None => Normal end.
Proof.
  revert b. induction body as [|a body IH]; intros b; [reflexivity|].
  destruct a as [k cb|k cb| |e]; cbn; try apply IH. reflexivity.
Qed.

(** The wrapped call never completes abruptly; it records the call and
    logs what the callback threw. *)
Lemma guarded_call_spec (h : handler) (p : payload) (w : World) :
  (guarded_call program h p w).2 = Normal /\
  bus (guarded_call program h p w).1 = (run_body (program h) (bus w)).1 /\
  calls (guarded_call program h p w).1 = calls w ++ [(h, p)] /\
  console (guarded_call program h p w).1 = console w ++ error_lines program [h].
Proof.
  unfold guarded_call, call, error_lines. cbn [omap].
  pose proof (run_body_completion (program h) (bus w)) as Hc.
  destruct (run_body (program h) (bus w)) as [b' c]. cbn in Hc. subst c.
  destruct (thrown (program h)) as [e|] eqn:Ht; cbn; rewrite ?Ht, ?app_nil_r;
    repeat split.
Qed.

Lemma after_calls_cons (p : payload) (h : handler) (hs : list handler) (w : World) :
  after_calls program p (h :: hs) w =
  after_calls program p hs (guarded_call program h p w).1.
Proof. reflexivity. Qed.

Lemma after_calls_app (p : payload) (hs1 hs2 : list handler) (w : World) :
  after_calls program p (hs1 ++ hs2) w =
  after_calls program p hs2 (after_calls program p hs1 w).
Proof. apply fold_left_app. Qed.

Lemma error_lines_app (hs1 hs2 : list handler) :
  error_lines program (hs1 ++ hs2) = error_lines program hs1 ++ error_lines program hs2.
Proof. apply omap_app. Qed.

Lemma after_calls_spec (p : payload) (hs : list handler) (w : World) :
  calls (after_calls program p hs w) = calls w ++ calls_of p hs /\
  console (after_calls program p hs w) = console w ++ error_lines program hs.
Proof.
  revert w. induction hs as [|h hs IH]; intros w.
  - cbn. rewrite !app_nil_r. split; reflexivity.
  - rewrite after_calls_cons.
    destruct (IH (guarded_call program h p w).1) as [-> ->].
    destruct (guarded_call_spec h p w) as (_ & _ & -> & ->).
    change (h :: hs) with ([h] ++ hs). rewrite error_lines_app.
    unfold calls_of. rewrite fmap_app, <- !app_assoc. split; reflexivity.
Qed.

(** The iteration over a stretch of entries whose callbacks are quiet: the
    set stays as it is, so the entries from [j] to [j + n] are visited one
    after the other, and the iteration goes on from [j + n]. *)
Lemma forEach_quiet_stretch (p : payload) (es : CallbackSet) (n : nat) :
  forall (j fuel : nat) (w : World),
    owns (bus w) eventType r ->
    sets (bus w) !! r = Some es ->
    j + n <= length es ->
    Forall (quiet program eventType) (elements (take n (drop j es))) ->
    forEach program (n + fuel) r j p w =
      forEach program fuel r (j + n) p
        (after_calls program p (elements (take n (drop j es))) w) /\
    owns (bus (after_calls program p (elements (take n (drop j es))) w)) eventType r /\
    sets (bus (after_calls program p (elements (take n (drop j es))) w)) !! r = Some es.
Proof.
  induction n as [|n IH]; intros j fuel w Hown Hes Hlen Hq.
  - rewrite Nat.add_0_r. rewrite take_0. change (elements []) with (@nil handler).
    change (after_calls program p [] w) with w. cbn [Nat.add].
    split; [reflexivity|]. split; assumption.
  - destruct (lookup_lt_is_Some_2 es j ltac:(lia)) as [e He].
    rewrite (drop_S _ _ _ He) in Hq |- *. cbn [take] in Hq |- *.
    replace (j + S n) with (S j + n) by lia.
    cbn [Nat.add forEach]. rewrite Hes. cbn [default from_option id]. rewrite He.
    destruct e as [h|].
    + change (elements (Some h :: take n (drop (S j) es)))
        with (h :: elements (take n (drop (S j) es))) in Hq |- *.
      apply Forall_cons in Hq as [Hh Hq].
      destruct (guarded_call_spec h p w) as (Hc & Hb & _ & _).
      destruct (guarded_call program h p w) as [w1 c] eqn:Hcall. cbn in Hc, Hb. subst c.
      rewrite after_calls_cons, Hcall. cbn [fst].
      apply IH; [rewrite Hb; apply run_body_owns, Hown| |lia|exact Hq].
      rewrite Hb, run_body_quiet by assumption. exact Hes.
    + change (elements (None :: take n (drop (S j) es)))
        with (elements (take n (drop (S j) es))) in Hq |- *.
      apply IH; [assumption|assumption|lia|exact Hq].
Qed.

(** With quiet callbacks all along, the iteration calls every element. *)
Lemma forEach_quiet (p : payload) (es : CallbackSet) (j fuel : nat) (w : World) :
  owns (bus w) eventType r ->
  sets (bus w) !! r = Some es ->
  j <= length es ->
  length es - j < fuel ->
  Forall (quiet program eventType) (elements (drop j es)) ->
  forEach program fuel r j p w =
    Some (after_calls program p (elements (drop j es)) w, Normal).
Proof.
  intros Hown Hes Hj Hfuel Hq.
  destruct (forEach_quiet_stretch p es (length es - j) j (fuel - (length es - j)) w)
    as (Hrun & Hown' & Hes'); try assumption; [lia| |].
  { rewrite take_ge by (rewrite length_drop; lia). exact Hq. }
  rewrite take_ge in Hrun, Hes' by (rewrite length_drop; lia).
  replace (length es - j + (fuel - (length es - j))) with fuel in Hrun by lia.
  rewrite Hrun.
  destruct (fuel - (length es - j)) as [|fuel'] eqn:Hf; [lia|].
  cbn [forEach]. rewrite Hes'. cbn [default from_option id].
  rewrite lookup_ge_None_2 by lia. reflexivity.
Qed.

End EmitFacts.

Lemma registered_slots (b : ChartEventBus) (k : string) :
  registered b k = elements (slots b k).
Proof. unfold registered, slots. destruct (listeners b !! k); reflexivity. Qed.

Lemma wf_owns (b : ChartEventBus) (k : string) (r : nat) :
  wf b -> listeners b !! k = Some r -> owns b k r.
Proof.
  intros (Hv & Hinj & _) Hk. split; [eapply Hv, Hk|].
  intros k' Hk'. eapply Hinj; eassumption.
Qed.

Lemma registered_NoDup (b : ChartEventBus) (k : string) :
  wf b -> NoDup (registered b k).
Proof.
  intros (_ & _ & Hnd). unfold registered.
  destruct (listeners b !! k) as [r|]; [|apply NoDup_nil_2].
  destruct (sets b !! r) as [s|] eqn:Hs; [|apply NoDup_nil_2].
  cbn. eapply Hnd, Hs.
Qed.

Lemma unsubscribe_on (b b' : ChartEventBus) (k : string) (h : handler) :
  unsubscribe b' (on b k h).2 = off b' k h.
Proof. reflexivity. Qed.

(** C5 (as amended). Subscribing the same handler a second time under the
    same event type registers nothing new: the bus is unchanged and the
    handler is registered once.  Either token removes that one
    registration and leaves the other handlers registered, in their order;
    calling a token again changes nothing and raises no error. *)
Theorem subscribing_twice_registers_once (b : ChartEventBus) (eventType : string)
  (h : handler) :
  wf b ->
  on (on b eventType h).1 eventType h = on b eventType h /\
  (h ∈ registered (on b eventType h).1 eventType) /\
  NoDup (registered (on b eventType h).1 eventType) /\
  registered (unsubscribe (on b eventType h).1 (on b eventType h).2) eventType =
    filter (fun x => x <> h) (registered b eventType) /\
  (h ∉ registered (unsubscribe (on b eventType h).1 (on b eventType h).2) eventType) /\
  unsubscribe (unsubscribe (on b eventType h).1 (on b eventType h).2)
              (on b eventType h).2 =
    unsubscribe (on b eventType h).1 (on b eventType h).2.
Proof.
  intros Hwf. pose proof (wf_on b eventType h Hwf) as Hwf1.
  assert (Hreg : h ∈ registered (on b eventType h).1 eventType).
  { rewrite registered_on by exact Hwf.
    destruct (bool_decide_reflect (h ∈ registered b eventType)) as [Hin|_];
      [exact Hin|]. apply elem_of_app. right. apply list_elem_of_singleton. reflexivity. }
  assert (Hoff : registered (unsubscribe (on b eventType h).1 (on b eventType h).2)
                   eventType = filter (fun x => x <> h) (registered b eventType)).
  { rewrite unsubscribe_on.
    rewrite (registered_off (on b eventType h).1 eventType h Hwf1).
    rewrite registered_on by exact Hwf.
    destruct (bool_decide_reflect (h ∈ registered b eventType)) as [Hin|Hout];
      [reflexivity|].
    rewrite filter_app, filter_cons_False, filter_nil, app_nil_r by tauto.
    reflexivity. }
  split; [apply on_on|]. split; [exact Hreg|].
  split; [apply registered_NoDup, Hwf1|]. split; [exact Hoff|]. split.
  - rewrite Hoff, list_elem_of_filter. tauto.
  - rewrite !unsubscribe_on. apply (off_off _ eventType h), Hwf1.
Qed.

Lemma set_add_length (s : CallbackSet) (cb : handler) :
  length s <= length (set_add s cb).
Proof.
  unfold set_add. destruct (set_has s cb); [lia|]. rewrite length_app. lia.
Qed.

Lemma set_delete_length (s : CallbackSet) (cb : handler) :
  length (set_delete s cb) = length s.
Proof.
  induction s as [|e s IH]; [reflexivity|]. cbn.
  destruct (decide (e = Some cb)); cbn; [reflexivity|]. rewrite IH. reflexivity.
Qed.

Section Growth.
Variable r : nat.

(** The entries of a [Set] object are never removed: a deletion empties a
    slot, an addition appends one. *)
Lemma run_action_slots (a : action) (b : ChartEventBus) :
  r < length (sets b) ->
  r < length (sets (run_action a b).1) /\
  length (default [] (sets b !! r)) <=
    length (default [] (sets (run_action a b).1 !! r)).
Proof.
  intros Hlt. destruct (lookup_lt_is_Some_2 _ _ Hlt) as [s Hs].
  assert (Halter : forall (f : CallbackSet -> CallbackSet) (r' : nat) (l : list CallbackSet),
            (forall x, length x <= length (f x)) ->
            r < length l ->
            r < length (alter f r' l) /\
            length (default [] (l !! r)) <= length (default [] (alter f r' l !! r))).
  { intros f r' l Hf Hl. rewrite length_alter. split; [exact Hl|].
    rewrite list_lookup_alter. destruct (decide (r' = r)) as [->|_]; [|lia].
    destruct (l !! r) as [x|]; cbn; [apply Hf|lia]. }
  destruct a as [k cb|k cb| |e]; cbn [run_action fst].
  - rewrite on_unfold. cbn [fst]. unfold with_set.
    destruct (listeners b !! k) as [r'|] eqn:Hk.
    + rewrite Hk. cbn [sets]. apply Halter; [|exact Hlt]. intros x. apply set_add_length.
    + cbn [listeners sets]. rewrite lookup_insert_eq. cbn [sets].
      destruct (Halter (fun s0 => set_add s0 cb) (length (sets b)) (sets b ++ [[]]))
        as [H1 H2]; [intros x; apply set_add_length|rewrite length_app; lia|].
      split; [exact H1|]. rewrite lookup_app_l in H2 by exact Hlt. exact H2.
  - unfold off. destruct (listeners b !! k) as [r'|]; [|split; [exact Hlt|lia]].
    cbn [sets]. apply Halter; [|exact Hlt]. intros x. rewrite set_delete_length. lia.
  - cbn. split; [exact Hlt|lia].
  - split; [exact Hlt|lia].
Qed.

Lemma run_body_slots (body : list action) (b : ChartEventBus) :
  r < length (sets b) ->
  length (default [] (sets b !! r)) <=
    length (default [] (sets (run_body body b).1 !! r)).
Proof.
  revert b. induction body as [|a body IH]; intros b Hlt; [reflexivity|].
  cbn. destruct (run_action_slots a b Hlt) as [Hlt' Hle].
  destruct (run_action a b) as [b' [|e]]; cbn in *; [|exact Hle].
  specialize (IH b' Hlt'). lia.
Qed.
End Growth.

(** ** The live iteration, whatever the callbacks do *)

Lemma grown_refl (es : CallbackSet) : grown es es.
Proof. split; [lia|]. intros j e He. left. exact He. Qed.

Lemma grown_trans (es1 es2 es3 : CallbackSet) :
  grown es1 es2 -> grown es2 es3 -> grown es1 es3.
Proof.
  intros [Hl1 H1] [Hl2 H2]. split; [lia|]. intros j e He.
  destruct (H1 j e He) as [He2|He2].
  - apply (H2 j e He2).
  - right. destruct (H2 j None He2) as [H|H]; exact H.
Qed.

Lemma set_add_grown (s : CallbackSet) (cb : handler) : grown s (set_add s cb).
Proof.
  unfold set_add. destruct (set_has s cb); [apply grown_refl|].
  split; [rewrite length_app; lia|]. intros j e He. left.
  apply lookup_app_l_Some, He.
Qed.

Lemma set_delete_grown (s : CallbackSet) (cb : handler) : grown s (set_delete s cb).
Proof.
  split; [rewrite set_delete_length; lia|].
  induction s as [|x s IH]; intros j e He; [left; exact He|].
  cbn. destruct (decide (x = Some cb)) as [->|Hne].
  - destruct j as [|j]; cbn in *; [right; reflexivity|left; exact He].
  - destruct j as [|j]; cbn in *; [left; exact He|apply IH, He].
Qed.

Section Live.
Variable r : nat.

Lemma alter_grown (f : CallbackSet -> CallbackSet) (r' : nat) (l : list CallbackSet) :
  (forall s, grown s (f s)) ->
  grown (default [] (l !! r)) (default [] (alter f r' l !! r)).
Proof.
  intros Hf. rewrite list_lookup_alter.
  destruct (decide (r' = r)) as [->|_]; [|apply grown_refl].
  destruct (l !! r) as [s|]; cbn; [apply Hf|apply grown_refl].
Qed.

(** Whatever a callback does, the entries of a [Set] object stay or become
    empty slots, and entries are appended. *)
Lemma run_action_grown (a : action) (b : ChartEventBus) :
  r < length (sets b) ->
  r < length (sets (run_action a b).1) /\
  grown (default [] (sets b !! r)) (default [] (sets (run_action a b).1 !! r)).
Proof.
  intros Hlt. destruct a as [k cb|k cb| |e]; cbn [run_action fst].
  - rewrite on_unfold. cbn [fst]. unfold with_set.
    destruct (listeners b !! k) as [r'|] eqn:Hk.
    + rewrite Hk. cbn [sets]. rewrite length_alter. split; [exact Hlt|].
      apply alter_grown. intros s. apply set_add_grown.
    + cbn [listeners sets]. rewrite lookup_insert_eq. cbn [sets].
      rewrite length_alter, length_app. split; [lia|].
      rewrite <- (lookup_app_l (sets b) [[]] r) at 1 by exact Hlt.
      apply alter_grown. intros s. apply set_add_grown.
  - unfold off. destruct (listeners b !! k) as [r'|]; [|split; [exact Hlt|apply grown_refl]].
    cbn [sets]. rewrite length_alter. split; [exact Hlt|].
    apply alter_grown. intros s. apply set_delete_grown.
  - split; [exact Hlt|apply grown_refl].
  - split; [exact Hlt|apply grown_refl].
Qed.

Lemma run_body_grown (body : list action) (b : ChartEventBus) :
  r < length (sets b) ->
  r < length (sets (run_body body b).1) /\
  grown (default [] (sets b !! r)) (default [] (sets (run_body body b).1 !! r)).
Proof.
  revert b. induction body as [|a body IH]; intros b Hlt; [split; [exact Hlt|apply grown_refl]|].
  cbn [run_body]. destruct (run_action_grown a b Hlt) as [Hlt' Hg].
  destruct (run_action a b) as [b' [|e]]; cbn [fst] in *; [|split; assumption].
  destruct (IH b' Hlt') as [Hlt'' Hg']. split; [exact Hlt''|].
  eapply grown_trans; eassumption.
Qed.

(** A callback that does not call [clear] leaves each event type the
    [Set] object it has. *)
Lemma run_action_keeps_set (k : string) (a : action) (b : ChartEventBus) :
  a <> ClearAll -> listeners b !! k = Some r ->
  listeners (run_action a b).1 !! k = Some r.
Proof.
  intros Hc Hk. destruct a as [k' h|k' h| |e]; cbn [run_action fst].
  - rewrite on_unfold. cbn [fst].
    assert (Hw : listeners (with_set b k') !! k = Some r).
    { unfold with_set. destruct (listeners b !! k') eqn:Hk'; [exact Hk|].
      cbn [listeners]. rewrite lookup_insert_ne by congruence. exact Hk. }
    destruct (listeners (with_set b k') !! k'); exact Hw.
  - unfold off. destruct (listeners b !! k'); exact Hk.
  - destruct Hc. reflexivity.
  - exact Hk.
Qed.

Lemma run_body_keeps_set (k : string) (body : list action) (b : ChartEventBus) :
  ClearAll ∉ body -> listeners b !! k = Some r ->
  listeners (run_body body b).1 !! k = Some r.
Proof.
  revert b. induction body as [|a body IH]; intros b Hc Hk; [exact Hk|].
  apply not_elem_of_cons in Hc as [Ha Hc]. cbn [run_body].
  pose proof (run_action_keeps_set k a b (not_eq_sym Ha) Hk) as Hk'.
  destruct (run_action a b) as [b' [|e]]; cbn [fst] in *; [apply IH; assumption|exact Hk'].
Qed.

Variable program : handler -> list action.

Lemma after_calls_keeps_set (k : string) (p : payload) (hs : list handler) (w : World) :
  Forall (fun h => ClearAll ∉ program h) hs ->
  listeners (bus w) !! k = Some r ->
  listeners (bus (after_calls program p hs w)) !! k = Some r.
Proof.
  revert w. induction hs as [|h hs IH]; intros w Hc Hk; [exact Hk|].
  apply Forall_cons in Hc as [Hh Hc]. rewrite after_calls_cons. apply IH; [exact Hc|].
  destruct (guarded_call_spec program h p w) as (_ & -> & _).
  apply run_body_keeps_set; assumption.
Qed.

(** The iteration, whatever the callbacks do: the callbacks it calls are
    elements of the set when they are called, and every element that the
    set has in the end, from [index] on, has been called. *)
Lemma forEach_live (p : payload) :
  forall (fuel index : nat) (w w' : World) (c : completion),
    r < length (sets (bus w)) ->
    forEach program fuel r index p w = Some (w', c) ->
    exists hs,
      w' = after_calls program p hs w /\
      r < length (sets (bus w')) /\
      grown (set_entries w r) (set_entries w' r) /\
      (forall k h, hs !! k = Some h ->
         h ∈ elements (set_entries (after_calls program p (take k hs) w) r)) /\
      (forall j f, index <= j -> set_entries w' r !! j = Some (Some f) -> f ∈ hs).
Proof.
  induction fuel as [|fuel IH]; intros index w w' c Hlt Hrun; [discriminate Hrun|].
  cbn [forEach] in Hrun. fold (set_entries w r) in Hrun.
  destruct (set_entries w r !! index) as [[h|]|] eqn:He.
  - destruct (guarded_call_spec program h p w) as (Hc & Hb & _).
    destruct (guarded_call program h p w) as [w1 c1] eqn:Hcall. cbn [fst snd] in *.
    subst c1.
    destruct (run_body_grown (program h) (bus w) Hlt) as [Hlt1 Hg1].
    rewrite <- Hb in Hlt1, Hg1. fold (set_entries w r) (set_entries w1 r) in Hg1.
    destruct (IH _ _ _ _ Hlt1 Hrun) as (hs & Hw' & Hlt' & Hg & Hin & Hall).
    exists (h :: hs). split; [|split; [exact Hlt'|split; [eapply grown_trans; eassumption|split]]].
    + rewrite after_calls_cons, Hcall. exact Hw'.
    + intros [|k] h' Hk; cbn in Hk.
      * injection Hk as <-. apply elem_of_elements.
        eapply list_elem_of_lookup_2, He.
      * cbn [take]. rewrite after_calls_cons, Hcall. apply Hin, Hk.
    + intros j f Hj Hf. destruct (decide (j = index)) as [->|Hne].
      * destruct Hg1 as [_ Hg1]. destruct Hg as [_ Hg].
        destruct (Hg1 _ _ He) as [H1|H1]; destruct (Hg _ _ H1) as [H2|H2];
          rewrite H2 in Hf; try discriminate Hf.
        injection Hf as <-. left.
      * right. apply (Hall j); [lia|exact Hf].
  - destruct (IH _ _ _ _ Hlt Hrun) as (hs & Hw' & Hlt' & Hg & Hin & Hall).
    exists hs. repeat (split; [assumption|]).
    intros j f Hj Hf. destruct (decide (j = index)) as [->|Hne].
    + destruct Hg as [_ Hg]. destruct (Hg _ _ He) as [H|H];
        rewrite H in Hf; discriminate Hf.
    + apply (Hall j); [lia|exact Hf].
  - injection Hrun as <- <-. exists []. split; [reflexivity|]. split; [exact Hlt|].
    split; [apply grown_refl|]. split.
    + intros k h Hk. rewrite lookup_nil in Hk. discriminate Hk.
    + intros j f Hj Hf. apply lookup_ge_None in He.
      rewrite (lookup_ge_None_2 (set_entries w r) j) in Hf by lia. discriminate Hf.
Qed.

End Live.

Section PublishFacts.
Variable program : handler -> list action.

(** C7 (as amended). When no registered handler subscribes or unsubscribes
    a handler of the published event type while it runs, a publish calls
    every handler registered for it, once, in registration order, with the
    payload; what a handler throws is caught and logged, the handlers
    after it are still called, and [emit] completes normally.  With no
    handler registered the publish changes nothing. *)
Theorem publish_calls_every_handler (eventType : string) (p : payload)
  (fuel : nat) (w : World) :
  wf (bus w) ->
  Forall (quiet program eventType) (registered (bus w) eventType) ->
  length (slots (bus w) eventType) < fuel ->
  emit program fuel eventType p w =
    Some (after_calls program p (registered (bus w) eventType) w, Normal) /\
  calls (after_calls program p (registered (bus w) eventType) w) =
    calls w ++ calls_of p (registered (bus w) eventType) /\
  console (after_calls program p (registered (bus w) eventType) w) =
    console w ++ error_lines program (registered (bus w) eventType) /\
  (registered (bus w) eventType = [] ->
   emit program fuel eventType p w = Some (w, Normal)).
Proof.
  intros Hwf Hq Hfuel.
  assert (Hemit : emit program fuel eventType p w =
            Some (after_calls program p (registered (bus w) eventType) w, Normal)).
  { unfold emit, registered, slots in *.
    destruct (listeners (bus w) !! eventType) as [r|] eqn:Hk; [|reflexivity].
    pose proof (wf_owns _ _ _ Hwf Hk) as Hown.
    destruct (lookup_lt_is_Some_2 _ _ (proj1 Hown)) as [es Hes].
    rewrite Hes in *. cbn [default from_option id] in *. unfold id in *.
    rewrite (forEach_quiet program eventType r p es 0 fuel w); try assumption;
      rewrite ?drop_0; try assumption; try reflexivity; lia. }
  split; [exact Hemit|].
  destruct (after_calls_spec program p (registered (bus w) eventType) w) as [Hc Hl].
  split; [exact Hc|]. split; [exact Hl|].
  intros Hnone. rewrite Hemit, Hnone. reflexivity.
Qed.

(** C6 (as amended). A publish takes no snapshot: it iterates the live
    [Set] that the event type has when the publish starts (the [Set]
    object [r]).  For every publish that returns, whatever its handlers
    do: every handler it calls is an element of that [Set] at the moment
    of the call; every handler that is an element of that [Set] when the
    publish returns has been called by this same publish; and when no
    called handler contains a call of [clear], that [Set] is still the
    [Set] of the event type, so every handler registered for the event
    type when the publish returns, a newly subscribed one included, has
    been called by this same publish.  Moreover, when the handlers called
    before and after a handler [h] leave the registrations of the event
    type alone, the publish returns and the handlers called after [h] are
    exactly the elements that follow the entry of [h] in that [Set] as
    [h] leaves it, in order. *)
Theorem publish_sees_changes (eventType : string) (p : payload) (fuel : nat)
  (w : World) (r : nat) :
  wf (bus w) ->
  listeners (bus w) !! eventType = Some r ->
  (forall w' c,
     emit program fuel eventType p w = Some (w', c) ->
     exists hs,
       w' = after_calls program p hs w /\
       calls w' = calls w ++ calls_of p hs /\
       (forall k h, hs !! k = Some h ->
          h ∈ elements (set_entries (after_calls program p (take k hs) w) r)) /\
       (forall f, f ∈ elements (set_entries w' r) -> f ∈ hs) /\
       (Forall (fun h => ClearAll ∉ program h) hs ->
        listeners (bus w') !! eventType = Some r /\
        forall f, f ∈ registered (bus w') eventType -> f ∈ hs)) /\
  (forall es i h,
     sets (bus w) !! r = Some es ->
     es !! i = Some (Some h) ->
     Forall (quiet program eventType) (elements (take i es)) ->
     Forall (quiet program eventType)
            (elements (drop (S i) (slots_after program p r h (world_at program p es i w)))) ->
     length (slots_after program p r h (world_at program p es i w)) < fuel ->
     calls_made (emit program fuel eventType p w) =
       Some (calls w ++
             calls_of p (elements (take i es) ++ h ::
                         elements (drop (S i)
                            (slots_after program p r h (world_at program p es i w)))))).
Proof.
  intros Hwf Hk.
  pose proof (wf_owns _ _ _ Hwf Hk) as Hown. split.
  - intros w' c Hrun. unfold emit in Hrun. rewrite Hk in Hrun.
    destruct (forEach_live r program p fuel 0 w w' c (proj1 Hown) Hrun)
      as (hs & Hw' & _ & _ & Hin & Hall).
    exists hs. split; [exact Hw'|]. split; [rewrite Hw'; apply after_calls_spec|].
    split; [exact Hin|].
    assert (Hset : forall f, f ∈ elements (set_entries w' r) -> f ∈ hs).
    { intros f Hf. apply elem_of_elements, list_elem_of_lookup_1 in Hf as [j Hj].
      apply (Hall j f); [lia|exact Hj]. }
    split; [exact Hset|].
    intros Hclear.
    assert (Hk' : listeners (bus w') !! eventType = Some r).
    { rewrite Hw'. apply after_calls_keeps_set; assumption. }
    split; [exact Hk'|]. intros f Hf. apply Hset.
    unfold registered in Hf. rewrite Hk' in Hf. exact Hf.
  - intros es i h Hes Hi Hpre Hpost Hfuel.
    assert (Hilt : i < length es) by (eapply lookup_lt_Some, Hi).
    unfold emit. rewrite Hk.
    destruct (forEach_quiet_stretch program eventType r p es i 0 (fuel - i) w)
      as (Hrun & Hown_i & Hes_i); [exact Hown|exact Hes|lia|exact Hpre|].
    change (drop 0 es) with es in Hrun, Hown_i, Hes_i. fold (world_at program p es i w) in *.
    set (wi := world_at program p es i w) in *.
    set (es' := slots_after program p r h wi) in *.
    destruct (guarded_call_spec program h p wi) as (Hc & Hb & Hcalls & _).
    assert (Hgrow : length es <= length es').
    { unfold es', slots_after. rewrite Hb.
      pose proof (run_body_slots r (program h) (bus wi) (proj1 Hown_i)) as Hle.
      rewrite Hes_i in Hle. exact Hle. }
    replace fuel with (i + (fuel - i)) by lia. rewrite Hrun. cbn [Nat.add].
    destruct (fuel - i) as [|fuel'] eqn:Hf; [lia|].
    cbn [forEach]. rewrite Hes_i. cbn [default from_option id]. unfold id. rewrite Hi.
    destruct (guarded_call program h p wi) as [wh c] eqn:Hcall. cbn in Hc, Hb, Hcalls.
    subst c.
    assert (Hown_h : owns (bus wh) eventType r).
    { rewrite Hb. apply run_body_owns, Hown_i. }
    assert (Hes_h : sets (bus wh) !! r = Some es').
    { unfold es', slots_after. rewrite Hcall. cbn [fst].
      destruct (lookup_lt_is_Some_2 _ _ (proj1 Hown_h)) as [x ->]. reflexivity. }
    rewrite (forEach_quiet program eventType r p es' (S i) fuel' wh);
      try assumption; try lia.
    cbn. f_equal.
    destruct (after_calls_spec program p (elements (drop (S i) es')) wh) as [-> _].
    rewrite Hcalls. unfold wi, world_at.
    destruct (after_calls_spec program p (elements (take i es)) w) as [-> _].
    unfold calls_of. rewrite fmap_app, fmap_cons, <- !app_assoc. reflexivity.
Qed.

End PublishFacts.

(** Witness of C5: callback 2 subscribes twice on a bus where callback 1
    listens. *)
Lemma subscribing_twice_registers_once_witness :
  on (on one_listener DATE_CLICK 2).1 DATE_CLICK 2 = on one_listener DATE_CLICK 2 /\
  (2 ∈ registered (on one_listener DATE_CLICK 2).1 DATE_CLICK) /\
  NoDup (registered (on one_listener DATE_CLICK 2).1 DATE_CLICK) /\
  registered (unsubscribe (on one_listener DATE_CLICK 2).1
                          (on one_listener DATE_CLICK 2).2) DATE_CLICK =
    filter (fun x => x <> 2) (registered one_listener DATE_CLICK) /\
  (2 ∉ registered (unsubscribe (on one_listener DATE_CLICK 2).1
                               (on one_listener DATE_CLICK 2).2) DATE_CLICK) /\
  unsubscribe (unsubscribe (on one_listener DATE_CLICK 2).1
                           (on one_listener DATE_CLICK 2).2)
              (on one_listener DATE_CLICK 2).2 =
    unsubscribe (on one_listener DATE_CLICK 2).1 (on one_listener DATE_CLICK 2).2.
Proof.
  apply (subscribing_twice_registers_once one_listener DATE_CLICK 2).
  apply wf_on, wf_new_bus.
Defined.

(** Counterexample to C5 as stated.  Callback 1 is subscribed twice to
    [date:click]; the set holds it once.  After the first token is called
    no registration is left, and a publish calls nothing. *)
Lemma double_subscription_is_one_registration :
  sets subscribed_twice.1.1 = [[Some 1]] /\
  registered subscribed_twice.1.1 DATE_CLICK = [1] /\
  registered (unsubscribe subscribed_twice.1.1 subscribed_twice.1.2) DATE_CLICK = [] /\
  calls_made (emit idle 10 DATE_CLICK "p"
                (fresh (unsubscribe subscribed_twice.1.1 subscribed_twice.1.2)))
    = Some [].
Proof. vm_compute. repeat split; reflexivity. Qed.

(** Witness of C6: callback 1, alone on [date:click], subscribes callback 2
    while it runs; the publish returns after the calls of 1 and 2. *)
Lemma publish_sees_changes_witness :
  (exists hs,
     after_calls subscriber "p" [1; 2] (fresh one_listener) =
       after_calls subscriber "p" hs (fresh one_listener) /\
     calls (after_calls subscriber "p" [1; 2] (fresh one_listener)) =
       calls (fresh one_listener) ++ calls_of "p" hs /\
     (forall k h, hs !! k = Some h ->
        h ∈ elements (set_entries
                        (after_calls subscriber "p" (take k hs) (fresh one_listener)) 0)) /\
     (forall f,
        f ∈ elements (set_entries (after_calls subscriber "p" [1; 2] (fresh one_listener)) 0) ->
        f ∈ hs) /\
     (Forall (fun h => ClearAll ∉ subscriber h) hs ->
      listeners (bus (after_calls subscriber "p" [1; 2] (fresh one_listener))) !! DATE_CLICK
        = Some 0 /\
      forall f,
        f ∈ registered (bus (after_calls subscriber "p" [1; 2] (fresh one_listener)))
              DATE_CLICK ->
        f ∈ hs)) /\
  calls_made (emit subscriber 10 DATE_CLICK "p" (fresh one_listener)) =
    Some (calls (fresh one_listener) ++
          calls_of "p" (elements (take 0 [Some 1]) ++ 1 ::
                        elements (drop 1
                           (slots_after subscriber "p" 0 1
                              (world_at subscriber "p" [Some 1] 0 (fresh one_listener)))))).
Proof.
  destruct (publish_sees_changes subscriber DATE_CLICK "p" 10 (fresh one_listener) 0)
    as [Hany Hone].
  - apply wf_on, wf_new_bus.
  - vm_compute. reflexivity.
  - split.
    + apply (Hany (after_calls subscriber "p" [1; 2] (fresh one_listener)) Normal).
      vm_compute. reflexivity.
    + apply (Hone [Some 1] 0 1).
      * vm_compute. reflexivity.
      * reflexivity.
      * constructor.
      * vm_compute. repeat constructor.
      * vm_compute. lia.
Defined.

(** Counterexample to C6 as stated.  Callback 1 is the only listener of
    [date:click] and subscribes callback 2 while it runs: the publish in
    progress calls callback 2 as well. *)
Lemma subscribed_during_publish_is_called :
  registered one_listener DATE_CLICK = [1] /\
  calls_made (emit subscriber 10 DATE_CLICK "p" (fresh one_listener))
    = Some [(1, "p"); (2, "p")].
Proof. vm_compute. split; reflexivity. Qed.

(** Witness of C7: callbacks 1 and 2 listen to [date:click], callback 1
    throws. *)
Lemma publish_calls_every_handler_witness :
  emit thrower 10 DATE_CLICK "p" (fresh two_listeners) =
    Some (after_calls thrower "p" (registered (bus (fresh two_listeners)) DATE_CLICK)
            (fresh two_listeners), Normal) /\
  calls (after_calls thrower "p" (registered (bus (fresh two_listeners)) DATE_CLICK)
           (fresh two_listeners)) =
    calls (fresh two_listeners) ++
    calls_of "p" (registered (bus (fresh two_listeners)) DATE_CLICK) /\
  console (after_calls thrower "p" (registered (bus (fresh two_listeners)) DATE_CLICK)
             (fresh two_listeners)) =
    console (fresh two_listeners) ++
    error_lines thrower (registered (bus (fresh two_listeners)) DATE_CLICK) /\
  (registered (bus (fresh two_listeners)) DATE_CLICK = [] ->
   emit thrower 10 DATE_CLICK "p" (fresh two_listeners) =
     Some (fresh two_listeners, Normal)).
Proof.
  apply (publish_calls_every_handler thrower DATE_CLICK "p" 10 (fresh two_listeners)).
  - apply wf_on, wf_on, wf_new_bus.
  - vm_compute. repeat constructor; intros [].
  - vm_compute. lia.
Defined.

(** Counterexample to C7 as stated.  Callbacks 1 and 2 are registered for
    [date:click] when the publish starts; callback 1 unsubscribes callback
    2 while it runs, and callback 2 is not called. *)
Lemma unsubscribed_during_publish_is_skipped :
  registered two_listeners DATE_CLICK = [1; 2] /\
  calls_made (emit unsubscriber 10 DATE_CLICK "p" (fresh two_listeners))
    = Some [(1, "p")].
Proof. vm_compute. split; reflexivity. Qed.

(** Evaluation: a thrown error is logged, and the next callback runs; an
    event type nobody listens to is published to no effect. *)
Example thrown_error_is_logged :
  (fun wc => (calls wc.1, console wc.1, wc.2)) <$>
    emit thrower 10 DATE_CLICK "p" (fresh two_listeners)
  = Some ([(1, "p"); (2, "p")], ["ChartEventBus callback error: boom"], Normal).
Proof. vm_compute. reflexivity. Qed.

(** Evaluation: callback 1 clears the bus and subscribes callback 3; the
    publish goes on with the old set, so callback 2 is called and callback
    3, though registered afterwards, is not. *)
Example subscribed_after_clear_is_not_called :
  (fun wc => (calls wc.1, registered (bus wc.1) DATE_CLICK)) <$>
    emit resetter 10 DATE_CLICK "p" (fresh two_listeners)
  = Some ([(1, "p"); (2, "p")], [3]).
Proof. vm_compute. reflexivity. Qed.

Example publish_without_listeners :
  emit thrower 10 DATA_RESET "p" (fresh two_listeners)
  = Some (fresh two_listeners, Normal).
Proof. reflexivity. Qed.

End EventBusFacts.

(* ===================================================================== *)
(** * Further proof automation *)
(* ===================================================================== *)

Module Evaluation.

(** A closed decidable statement, settled by evaluating its decision. *)
Ltac by_evaluation :=
  match goal with
  | |- ?P =>
      let d := constr:(_ : Decision P) in
      apply (@bool_decide_unpack P d); vm_compute; exact I
  end.

End Evaluation.

(* ===================================================================== *)
(** * The order of binary64 numbers *)
(* ===================================================================== *)
Module FloatOrder.
Import JS Vocabulary.
Local Open Scope float_scope.

(** The comparison of two mantissas is [Pos.compare]. *)
Lemma compare_cont_spec (m1 m2 : positive) :
  CompareSpec (m1 = m2) (m1 < m2)%positive (m2 < m1)%positive
    (Pos.compare_cont Eq m1 m2).
Proof. apply (Pos.compare_spec m1 m2). Qed.

Ltac compare_cases :=
  repeat match goal with
         | s : bool |- _ => destruct s
         | |- context [(?a ?= ?b)%Z] => destruct (Z.compare_spec a b)
         | H : context [(?a ?= ?b)%Z] |- _ => destruct (Z.compare_spec a b)
         | |- context [Pos.compare_cont Eq ?a ?b] => destruct (compare_cont_spec a b)
         | H : context [Pos.compare_cont Eq ?a ?b] |- _ => destruct (compare_cont_spec a b)
         end;
  cbn in *; try congruence; try lia.

(** [SFcompare] orders the numbers that are not NaN. *)
Lemma SFcompare_lt_trans (x y z : spec_float) :
  SFcompare x y = Some Lt -> SFcompare y z = Some Lt -> SFcompare x z = Some Lt.
Proof.
  destruct x as [sx|sx| |sx mx ex], y as [sy|sy| |sy my ey], z as [sz|sz| |sz mz ez];
    cbn; intros Hxy Hyz; try discriminate; compare_cases.
Qed.

Lemma SFcompare_antisym (x y : spec_float) :
  SFcompare y x = CompOpp <$> SFcompare x y.
Proof.
  destruct x as [sx|sx| |sx mx ex], y as [sy|sy| |sy my ey]; cbn; try reflexivity;
    compare_cases.
Qed.

Lemma SFcompare_eq_l (x y z : spec_float) :
  SFcompare x y = Some Eq -> SFcompare x z = SFcompare y z.
Proof.
  destruct x as [sx|sx| |sx mx ex], y as [sy|sy| |sy my ey], z as [sz|sz| |sz mz ez];
    cbn; intros Hxy; try discriminate; try reflexivity; compare_cases.
Qed.

Lemma SFcompare_eq_r (x y z : spec_float) :
  SFcompare y z = Some Eq -> SFcompare x y = SFcompare x z.
Proof.
  destruct x as [sx|sx| |sx mx ex], y as [sy|sy| |sy my ey], z as [sz|sz| |sz mz ez];
    cbn; intros Hxy; try discriminate; try reflexivity; compare_cases.
Qed.

(** The comparisons of JavaScript, read off [cmp]. *)
Lemma ltb_cmp (x y : float) : (x <? y) = true <-> cmp x y = Some Lt.
Proof.
  rewrite FloatAxioms.ltb_spec. unfold SFltb, cmp.
  destruct (SFcompare _ _) as [[| |]|]; split; congruence.
Qed.

Lemma leb_cmp (x y : float) :
  (x <=? y) = true <-> cmp x y = Some Lt \/ cmp x y = Some Eq.
Proof.
  rewrite FloatAxioms.leb_spec. unfold SFleb, cmp.
  destruct (SFcompare _ _) as [[| |]|]; split; try tauto; try congruence;
    intros [H|H]; congruence.
Qed.

Lemma lt_trans (x y z : float) :
  (x <? y) = true -> (y <? z) = true -> (x <? z) = true.
Proof. rewrite !ltb_cmp. apply SFcompare_lt_trans. Qed.

Lemma le_lt_trans (x y z : float) :
  (x <=? y) = true -> (y <? z) = true -> (x <? z) = true.
Proof.
  rewrite leb_cmp, !ltb_cmp. unfold cmp. intros [Hlt|Heq] Hyz.
  - eapply SFcompare_lt_trans; eassumption.
  - rewrite (SFcompare_eq_l _ _ _ Heq). exact Hyz.
Qed.

Lemma lt_le_trans (x y z : float) :
  (x <? y) = true -> (y <=? z) = true -> (x <? z) = true.
Proof.
  rewrite leb_cmp, !ltb_cmp. unfold cmp. intros Hxy [Hlt|Heq].
  - eapply SFcompare_lt_trans; eassumption.
  - rewrite <- (SFcompare_eq_r _ _ _ Heq). exact Hxy.
Qed.

Lemma le_trans (x y z : float) :
  (x <=? y) = true -> (y <=? z) = true -> (x <=? z) = true.
Proof.
  rewrite !leb_cmp. unfold cmp. intros [Hxy|Hxy] [Hyz|Hyz].
  - left. eapply SFcompare_lt_trans; eassumption.
  - left. rewrite <- (SFcompare_eq_r _ _ _ Hyz). exact Hxy.
  - left. rewrite (SFcompare_eq_l _ _ _ Hxy). exact Hyz.
  - right. rewrite (SFcompare_eq_l _ _ _ Hxy). exact Hyz.
Qed.

Lemma lt_not_ge (x y : float) : (x <? y) = true -> (y <=? x) = false.
Proof.
  rewrite ltb_cmp. intros Hlt. apply not_true_is_false. rewrite leb_cmp.
  unfold cmp in *. rewrite SFcompare_antisym, Hlt. cbn. intros [H|H]; discriminate H.
Qed.

Lemma lt_asym (x y : float) : (x <? y) = true -> (y <? x) = false.
Proof.
  rewrite ltb_cmp. intros Hlt. apply not_true_is_false. rewrite ltb_cmp.
  unfold cmp in *. rewrite SFcompare_antisym, Hlt. cbn. discriminate.
Qed.

Lemma le_not_gt (x y : float) : (x <=? y) = true -> (y <? x) = false.
Proof.
  intros Hle. destruct (y <? x) eqn:Hlt; [|reflexivity].
  apply lt_not_ge in Hlt. congruence.
Qed.

Lemma eqb_cmp (x y : float) : (x =? y) = true <-> cmp x y = Some Eq.
Proof.
  rewrite FloatAxioms.eqb_spec. unfold SFeqb, cmp.
  destruct (SFcompare _ _) as [[| |]|]; split; congruence.
Qed.

Lemma lt_irrefl (x : float) : (x <? x) = false.
Proof.
  destruct (x <? x) eqn:Hlt; [|reflexivity].
  pose proof (lt_asym x x Hlt). congruence.
Qed.

End FloatOrder.

(* ===================================================================== *)
(** * Ratings, badges and health classes follow the order of the numbers *)
(* ===================================================================== *)
Module InsightOrderFacts.
Import JS InsightEngine InsightSpec InsightSamples Vocabulary FloatOrder InsightFacts.
Local Open Scope float_scope.

(** Two thresholds passed in the wrong order refute each other. *)
Ltac order_contradiction :=
  match goal with
  | H1 : (?a <=? ?x) = true, H2 : (?x <=? ?y) = true, H3 : (?b <=? ?y) = false |- _ =>
      let H := fresh in
      assert (H : (b <=? y) = true)
        by (apply (le_trans b a y); [vm_compute; reflexivity|];
            apply (le_trans a x y); assumption);
      congruence
  | H1 : (?a <? ?x) = true, H2 : (?x <=? ?y) = true, H3 : (?b <? ?y) = false |- _ =>
      let H := fresh in
      assert (H : (b <? y) = true)
        by (apply (le_lt_trans b a y); [vm_compute; reflexivity|];
            apply (lt_le_trans a x y); assumption);
      congruence
  end.

(** X1. The rating tier of [getInvestmentRating] never drops when the
    score rises, whatever the two scores are; a snapshot whose overall
    score is missing, zero or NaN is rated like the score 0, in the
    lowest tier. *)
Theorem investment_rating_order (data : Data.t) (s1 s2 : float) :
  (s1 <=? s2) = true ->
  rating_rank (getInvestmentRating s1) <= rating_rank (getInvestmentRating s2) /\
  (usable (Scores.overall (scores data)) = false ->
   Rating.label (rating data) = "观望").
Proof.
  intros Hle. split.
  - unfold getInvestmentRating, ge.
    destruct (80 <=? s1) eqn:H1, (80 <=? s2) eqn:H2;
      try (cbn; lia); try order_contradiction;
    destruct (70 <=? s1) eqn:H3, (70 <=? s2) eqn:H4;
      try (cbn; lia); try order_contradiction;
    destruct (60 <=? s1) eqn:H5, (60 <=? s2) eqn:H6;
      try (cbn; lia); try order_contradiction.
  - unfold usable, rating, or_default. intros ->. reflexivity.
Qed.

(** Witness of X1: the scores 65 and 85, on a snapshot without scores. *)
Lemma investment_rating_order_witness :
  rating_rank (getInvestmentRating 65) <= rating_rank (getInvestmentRating 85) /\
  (usable (Scores.overall (scores strong_data)) = false ->
   Rating.label (rating strong_data) = "观望").
Proof. apply (investment_rating_order strong_data 65 85). reflexivity. Defined.

(** X2. The colour of a score badge never drops in the scale down,
    warning, up, success when the score rises; a missing score
    ([undefined], which compares as NaN) gets the lowest colour. *)
Theorem score_badge_order (s1 s2 : float) :
  (s1 <=? s2) = true ->
  colour_rank (ScorePill.getColor s1) <= colour_rank (ScorePill.getColor s2) /\
  ScorePill.getColor (ToNumber None) = "var(--color-down)".
Proof.
  intros Hle. split; [|reflexivity].
  unfold ScorePill.getColor, ge.
  destruct (80 <=? s1) eqn:H1, (80 <=? s2) eqn:H2;
    try (cbn; lia); try order_contradiction;
  destruct (60 <=? s1) eqn:H3, (60 <=? s2) eqn:H4;
    try (cbn; lia); try order_contradiction;
  destruct (40 <=? s1) eqn:H5, (40 <=? s2) eqn:H6;
    try (cbn; lia); try order_contradiction.
Qed.

(** Witness of X2: the scores 45 and 85. *)
Lemma score_badge_order_witness :
  colour_rank (ScorePill.getColor 45) <= colour_rank (ScorePill.getColor 85) /\
  ScorePill.getColor (ToNumber None) = "var(--color-down)".
Proof. apply (score_badge_order 45 85). reflexivity. Defined.

(** X3. Between two snapshots whose operating cash flow and net profit
    are both usable, the one with the larger ratio of cash flow to profit
    never gets the lower cash-flow class. *)
Theorem cash_flow_health_order (d1 d2 : Data.t) :
  usable (CashFlow.latest_cfo_yi (cashFlow d1)) = true ->
  usable (Fundamentals.net_profit_yi (fundamentals d1)) = true ->
  usable (CashFlow.latest_cfo_yi (cashFlow d2)) = true ->
  usable (Fundamentals.net_profit_yi (fundamentals d2)) = true ->
  (cash_ratio d1 <=? cash_ratio d2) = true ->
  health_rank (getCashFlowHealth d1) <= health_rank (getCashFlowHealth d2).
Proof.
  unfold usable, getCashFlowHealth. intros -> -> -> ->.
  cbn [negb orb]. unfold gt. fold (cash_ratio d1) (cash_ratio d2).
  generalize (cash_ratio d1) (cash_ratio d2). intros r1 r2 Hle.
  destruct (1.2 <? r1) eqn:H1, (1.2 <? r2) eqn:H2;
    try (cbn; lia); try order_contradiction;
  destruct (0.8 <? r1) eqn:H3, (0.8 <? r2) eqn:H4;
    try (cbn; lia); try order_contradiction;
  destruct (0.5 <? r1) eqn:H5, (0.5 <? r2) eqn:H6;
    try (cbn; lia); try order_contradiction.
Qed.

(** Witness of X3: the ratios 0.2 and 1.5 of the two sample companies. *)
Lemma cash_flow_health_order_witness :
  health_rank (getCashFlowHealth weak_data) <= health_rank (getCashFlowHealth strong_data).
Proof. apply (cash_flow_health_order weak_data strong_data); reflexivity. Defined.

End InsightOrderFacts.

(* ===================================================================== *)
(** * Highlights against risks *)
(* ===================================================================== *)
Module InsightConsistency.
Import JS InsightEngine InsightSpec Vocabulary FloatOrder InsightFacts.
Local Open Scope float_scope.

(** No number is below [a] and above [b] when [a] is not above [b]. *)
Lemma between_thresholds (x a b : float) :
  (a <=? b) = true -> lt x a = true -> gt x b = true -> False.
Proof.
  unfold lt, gt. intros Hab Hxa Hbx.
  pose proof (lt_le_trans x a b Hxa Hab) as Hxb.
  apply lt_asym in Hxb. congruence.
Qed.

Ltac refute_between :=
  match goal with
  | H1 : lt ?x ?a = true, H2 : gt ?x ?b = true |- _ =>
      exfalso; apply (between_thresholds x a b); [vm_compute; reflexivity|exact H1|exact H2]
  end.

Lemma push_not_nil {A : Type} (l : list A) (x : A) : push l x <> [].
Proof. unfold push. destruct l; discriminate. Qed.

(** X4. No metric is reported as a highlight and as a risk of the same
    snapshot: the highlight of a low PE excludes the valuation risk, the
    ROE highlight the ROE risk, the debt highlight the debt risk, the
    growth highlight a negative revenue growth, the cash-flow highlight
    the cash-flow risk and the momentum highlight the momentum risk. *)
Theorem no_metric_is_both_highlight_and_risk (data : Data.t) (summary : Summary.t) :
  (emits (highlightPE data) -> ~ emits (riskValuation data)) /\
  (emits (highlightROE summary) -> ~ emits (riskROE summary)) /\
  (emits (highlightDebtRatio summary) -> ~ emits (riskDebt summary)) /\
  (emits (highlightGrowth data) -> growth_lt data revenueGrowth 0 = false) /\
  (emits (highlightCashFlow data) -> ~ emits (riskCashFlow data)) /\
  (emits (highlightMomentum data) -> ~ emits (riskMomentum data)).
Proof.
  unfold emits. repeat split.
  - unfold highlightPE, riskValuation.
    destruct (ToBoolean _) eqn:Hb; cbn [andb]; [|tauto].
    destruct (lt _ 15) eqn:H15; [|tauto]. intros _.
    destruct (gt _ 50) eqn:H50; [refute_between|].
    destruct (gt _ 30) eqn:H30; [refute_between|]. tauto.
  - unfold highlightROE, riskROE.
    destruct (ToBoolean _) eqn:Hb; cbn [andb]; [|tauto].
    destruct (lt _ 8) eqn:H8; [|tauto].
    destruct (gt _ 20) eqn:H20; [refute_between|].
    destruct (gt _ 15) eqn:H15; [refute_between|]. tauto.
  - unfold highlightDebtRatio, riskDebt.
    destruct (lt _ 30) eqn:H30.
    + intros _. destruct (gt _ 70) eqn:H70; [refute_between|].
      destruct (gt _ 60) eqn:H60; [refute_between|]. tauto.
    + destruct (lt _ 50) eqn:H50; [|tauto].
      intros _. destruct (gt _ 70) eqn:H70; [refute_between|].
      destruct (gt _ 60) eqn:H60; [refute_between|]. tauto.
  - unfold highlightGrowth, growth_gt, growth_lt.
    destruct (growth data) as [g|]; [|tauto].
    destruct (lt _ 0) eqn:H0; [|reflexivity].
    destruct (gt _ 20) eqn:H20; [refute_between|].
    destruct (gt _ 10) eqn:H10; [refute_between|]. tauto.
  - unfold highlightCashFlow, riskCashFlow.
    destruct (String.eqb _ "优秀") eqn:He; [|tauto].
    apply String.eqb_eq in He. rewrite He. cbn. tauto.
  - unfold highlightMomentum, riskMomentum, is_string.
    destruct (GrowthMomentum.summary _) as [s|]; [|tauto].
    destruct (String.eqb s "持续增长型") eqn:H1.
    + apply String.eqb_eq in H1. subst s. cbn. tauto.
    + destruct (String.eqb s "加速增长型") eqn:H2; [|tauto].
      apply String.eqb_eq in H2. subst s. cbn. tauto.
Qed.

(** [generateHighlights] by priority classes, each in rule order. *)
Lemma generateHighlights_by_priority (data : Data.t) (summary : Summary.t) :
  generateHighlights data summary =
    take 5 (of_priority 1 (highlightsInOrder data summary) ++
            of_priority 2 (highlightsInOrder data summary)).
Proof.
  unfold generateHighlights. cbv zeta. rewrite emittedHighlights_in_order.
  change (fun a b => (Highlight.priority a - Highlight.priority b)%Z)
    with (by_key Highlight.priority).
  rewrite (slice_prefix _ 5). f_equal.
  pose proof (sort_sorted Highlight.priority (highlightsInOrder data summary)) as Hs.
  rewrite (sorted_two_keys Highlight.priority _ Hs) at 1.
  - unfold of_priority. rewrite !sort_stable. reflexivity.
  - apply Forall_forall. intros a Ha. apply sort_elem in Ha.
    pose proof (highlightsInOrder_priorities data summary) as Hp.
    rewrite Forall_forall in Hp. apply Hp, Ha.
Qed.

(** X5. The cut to five highlights drops the weakest: while the rules of
    priority 1 fire at most five times all their highlights are kept, in
    rule order, and the priority-2 highlights fill what is left; when all
    six fire, the sixth (the cash-flow highlight) is dropped and no
    priority-2 highlight is shown.  There are never more than six. *)
Theorem strongest_highlights_are_kept (data : Data.t) (summary : Summary.t) :
  (length (of_priority 1 (highlightsInOrder data summary)) <= 5 ->
   generateHighlights data summary =
     of_priority 1 (highlightsInOrder data summary) ++
     take (5 - length (of_priority 1 (highlightsInOrder data summary)))
          (of_priority 2 (highlightsInOrder data summary))) /\
  (5 < length (of_priority 1 (highlightsInOrder data summary)) ->
   generateHighlights data summary =
     take 5 (of_priority 1 (highlightsInOrder data summary))) /\
  length (of_priority 1 (highlightsInOrder data summary)) <= 6.
Proof.
  rewrite generateHighlights_by_priority. split; [|split].
  - intros Hle. rewrite take_app_ge by exact Hle. reflexivity.
  - intros Hgt. rewrite take_app_le by lia. reflexivity.
  - unfold of_priority, highlightsInOrder. rewrite !filter_app, !length_app.
    assert (Hone : forall f, appends_one f ->
              length (filter (fun h => Highlight.priority h = 1%Z) (f [])) <= 1).
    { intros f (_ & Hlen & _). etransitivity; [apply length_filter|exact Hlen]. }
    pose proof (Hone _ (highlightROE_appends summary)).
    pose proof (Hone _ (highlightGrossMargin_appends summary)).
    pose proof (Hone _ (highlightDebtRatio_appends summary)).
    pose proof (Hone _ (highlightGrowth_appends data)).
    pose proof (Hone _ (highlightMomentum_appends data)).
    pose proof (Hone _ (highlightCashFlow_appends data)).
    assert (Hdiv : filter (fun h => Highlight.priority h = 1%Z) (highlightDividend data []) = []).
    { unfold highlightDividend, push. destruct (gt _ 3); reflexivity. }
    assert (Hpe : filter (fun h => Highlight.priority h = 1%Z) (highlightPE data []) = []).
    { unfold highlightPE, push. destruct (_ && _); reflexivity. }
    rewrite Hdiv, Hpe. cbn [length]. lia.
Qed.

End InsightConsistency.

(* ===================================================================== *)
(** * Further properties of the indicator engine *)
(* ===================================================================== *)
Module IndicatorMoreFacts.
Import JS IndicatorEngine Vocabulary IndicatorFacts.

Section Engine.
Context {num : Type} `{Arith num}.

(** The result for a non-empty input, field by field. *)
Lemma processedData_fields (data : list (Bar.t num)) :
  0 < length data ->
  processedData data =
    Some {| dates := map Bar.date data;
            open := map Bar.open data;
            high := map Bar.high data;
            low := map Bar.low data;
            close := map Bar.close data;
            volume := map Bar.volume data;
            ma5 := calculateMA (map Bar.close data) 5;
            ma20 := calculateMA (map Bar.close data) 20;
            ma60 := calculateMA (map Bar.close data) 60;
            ma120 := calculateMA (map Bar.close data) 120;
            bollUp := imap (band add (calculateSTD (map Bar.close data) 20
                                        (calculateMA (map Bar.close data) 20)))
                           (calculateMA (map Bar.close data) 20);
            bollDn := imap (band sub (calculateSTD (map Bar.close data) 20
                                        (calculateMA (map Bar.close data) 20)))
                           (calculateMA (map Bar.close data) 20);
            volColors := imap (volColor (map Bar.close data)) (map Bar.close data) |}.
Proof.
  intros Hlen. unfold processedData.
  destruct (decide (length data = 0)) as [H0|_]; [lia|]. reflexivity.
Qed.

(** X6. For a non-empty input the thirteen arrays of the result (the six
    columns, the four moving averages, the two bands and the volume
    colours) all have the length of the input, so they can be plotted
    against the same dates. *)
Theorem output_arrays_are_parallel (data : list (Bar.t num)) :
  0 < length data ->
  exists r, processedData data = Some r /\
    length (dates r) = length data /\
    length (open r) = length data /\
    length (high r) = length data /\
    length (low r) = length data /\
    length (close r) = length data /\
    length (volume r) = length data /\
    length (ma5 r) = length data /\
    length (ma20 r) = length data /\
    length (ma60 r) = length data /\
    length (ma120 r) = length data /\
    length (bollUp r) = length data /\
    length (bollDn r) = length data /\
    length (volColors r) = length data.
Proof.
  intros Hlen. eexists. split; [apply processedData_fields, Hlen|]. cbn.
  rewrite ?length_imap, ?calculateMA_length, ?length_map. repeat split.
Qed.

(** X7. The volume bar of the first day has the up colour; the bar of a
    later day has the up colour when its close is at least the close of
    the day before ([>=] of the numbers: a tie is up, a NaN is down) and
    the down colour otherwise; no other colour occurs. *)
Theorem volume_colours (data : list (Bar.t num)) (i : nat) :
  0 < length data ->
  i < length data ->
  exists r, processedData data = Some r /\
    volColors r !! 0 = Some upColor /\
    (0 < i ->
     exists c p,
       map Bar.close data !! i = Some c /\
       map Bar.close data !! (i - 1) = Some p /\
       volColors r !! i = Some (if geb c p then upColor else downColor)) /\
    Forall (fun colour => colour = upColor \/ colour = downColor) (volColors r).
Proof.
  intros Hlen Hi. eexists. split; [apply processedData_fields, Hlen|]. cbn.
  set (cl := map Bar.close data).
  assert (Hcl : length cl = length data) by apply length_map.
  split; [|split].
  - rewrite list_lookup_imap.
    destruct (lookup_lt_is_Some_2 cl 0 ltac:(lia)) as [c ->]. reflexivity.
  - intros Hpos.
    destruct (lookup_lt_is_Some_2 cl i ltac:(lia)) as [c Hc].
    destruct (lookup_lt_is_Some_2 cl (i - 1) ltac:(lia)) as [p Hp].
    exists c, p. split; [exact Hc|]. split; [exact Hp|].
    rewrite list_lookup_imap, Hc. cbn. unfold volColor.
    destruct (decide (i = 0)); [lia|]. rewrite Hp. reflexivity.
  - apply Forall_forall. intros colour Hin.
    apply elem_of_lookup_imap in Hin as (j & c & -> & Hc).
    unfold volColor. destruct (decide (j = 0)); [left; reflexivity|].
    destruct (cl !! (j - 1)) as [p|]; [|right; reflexivity].
    destruct (geb c p); [left|right]; reflexivity.
Qed.

(** X8. Moving averages, bands and volume colours are computed from the
    closing prices alone: two inputs with the same closes give the same
    indicator series, whatever their dates, other prices and volumes. *)
Theorem indicators_read_closes_only (data1 data2 : list (Bar.t num)) :
  0 < length data1 ->
  map Bar.close data1 = map Bar.close data2 ->
  exists r1 r2,
    processedData data1 = Some r1 /\ processedData data2 = Some r2 /\
    ma5 r1 = ma5 r2 /\ ma20 r1 = ma20 r2 /\ ma60 r1 = ma60 r2 /\
    ma120 r1 = ma120 r2 /\ bollUp r1 = bollUp r2 /\ bollDn r1 = bollDn r2 /\
    volColors r1 = volColors r2.
Proof.
  intros Hlen Hcl.
  assert (Hlen2 : 0 < length data2).
  { rewrite <- (length_map Bar.close data2), <- Hcl, length_map. exact Hlen. }
  eexists. eexists. split; [apply processedData_fields, Hlen|].
  split; [apply processedData_fields, Hlen2|]. cbn. rewrite Hcl. repeat split.
Qed.

End Engine.
(** Witness of X6: the 21 sample bars. *)
Lemma output_arrays_are_parallel_witness :
  exists r, processedData sample_bars = Some r /\
    length (dates r) = length sample_bars /\
    length (open r) = length sample_bars /\
    length (high r) = length sample_bars /\
    length (low r) = length sample_bars /\
    length (close r) = length sample_bars /\
    length (volume r) = length sample_bars /\
    length (ma5 r) = length sample_bars /\
    length (ma20 r) = length sample_bars /\
    length (ma60 r) = length sample_bars /\
    length (ma120 r) = length sample_bars /\
    length (bollUp r) = length sample_bars /\
    length (bollDn r) = length sample_bars /\
    length (volColors r) = length sample_bars.
Proof. apply (output_arrays_are_parallel sample_bars). simpl. lia. Defined.

(** Witness of X7: the fourth sample bar, which closes lower than the
    third. *)
Lemma volume_colours_witness :
  exists r, processedData sample_bars = Some r /\
    volColors r !! 0 = Some upColor /\
    (0 < 3 ->
     exists c p,
       map Bar.close sample_bars !! 3 = Some c /\
       map Bar.close sample_bars !! (3 - 1) = Some p /\
       volColors r !! 3 = Some (if geb c p then upColor else downColor)) /\
    Forall (fun colour => colour = upColor \/ colour = downColor) (volColors r).
Proof. apply (volume_colours sample_bars 3); simpl; lia. Defined.

(** Witness of X8: the sample bars and the bars with the same closes and
    other dates, prices and volumes. *)
Lemma indicators_read_closes_only_witness :
  exists r1 r2,
    processedData sample_bars = Some r1 /\
    processedData sample_bars_reshaped = Some r2 /\
    ma5 r1 = ma5 r2 /\ ma20 r1 = ma20 r2 /\ ma60 r1 = ma60 r2 /\
    ma120 r1 = ma120 r2 /\ bollUp r1 = bollUp r2 /\ bollDn r1 = bollDn r2 /\
    volColors r1 = volColors r2.
Proof.
  apply (indicators_read_closes_only sample_bars sample_bars_reshaped).
  - simpl. lia.
  - reflexivity.
Defined.

End IndicatorMoreFacts.

(* ===================================================================== *)
(** * The request cache *)
(* ===================================================================== *)
Module RequestCacheFacts.
Import RequestCache.

Section Cache.
Context {A : Type}.
Implicit Types (c : cache A) (d : A).

(** X9. A value read less than [CACHE_TTL] (60000 ms) after it was stored
    is returned, and the read leaves the cache as it is; storing under a
    key again replaces the older value and its time. *)
Theorem cached_value_is_returned_while_fresh c (key : string) d (t now : Z) :
  (now - t < CACHE_TTL)%Z ->
  getCached now (setCache t c key d) key = (setCache t c key d, Some d) /\
  (forall d0 t0, setCache t (setCache t0 c key d0) key d = setCache t c key d).
Proof.
  intros Hfresh. split.
  - unfold getCached, setCache, cache in *. rewrite lookup_insert_eq. cbn.
    destruct (Z.ltb_spec (now - t) CACHE_TTL); [reflexivity|lia].
  - intros d0 t0. unfold setCache, cache. apply insert_insert_eq.
Qed.

(** X10. A value read 60000 ms or more after it was stored is not
    returned: the read gives [null] and deletes the entry, so every later
    read of the key gives [null] too, whatever the clock says.  A key
    that was never stored gives [null] and leaves the cache as it is. *)
Theorem stale_or_missing_entry_is_dropped c (key : string) d (t now : Z) :
  (CACHE_TTL <= now - t)%Z ->
  getCached now (setCache t c key d) key = (delete key c, None) /\
  (forall now', getCached now' (delete key c) key = (delete key c, None)) /\
  (c !! key = None -> getCached now c key = (c, None)).
Proof.
  intros Hstale. split; [|split].
  - unfold getCached, setCache, cache in *. rewrite lookup_insert_eq. cbn.
    destruct (Z.ltb_spec (now - t) CACHE_TTL); [lia|].
    rewrite delete_insert_eq. reflexivity.
  - intros now'. unfold getCached, cache in *. rewrite lookup_delete_eq, delete_delete_eq.
    reflexivity.
  - intros Hnone. unfold getCached, cache in *. rewrite Hnone, delete_id by exact Hnone.
    reflexivity.
Qed.

(** X11. The keys of the cache do not interfere: storing under one key
    does not change what a read of another key returns, and a read of
    one key (also one that evicts it) leaves the entry of every other
    key in place. *)
Theorem cache_keys_are_independent c (key key' : string) d (t now : Z) :
  key <> key' ->
  (getCached now (setCache t c key d) key').2 = (getCached now c key').2 /\
  (getCached now c key).1 !! key' = c !! key'.
Proof.
  intros Hne. split.
  - unfold getCached, setCache, cache in *. rewrite lookup_insert_ne by exact Hne.
    destruct (c !! key') as [it|]; [|reflexivity].
    destruct (now - time it <? CACHE_TTL)%Z; reflexivity.
  - unfold getCached, cache in *. destruct (c !! key) as [it|].
    + destruct (now - time it <? CACHE_TTL)%Z; cbn; [reflexivity|].
      apply lookup_delete_ne, Hne.
    + cbn. apply lookup_delete_ne, Hne.
Qed.
End Cache.
(** Witness of X9: a number stored at time 0 and read at time 59999. *)
Lemma cached_value_is_returned_while_fresh_witness :
  getCached 59999 (setCache 0 (∅ : cache nat) "/api/reports" 7) "/api/reports" =
    (setCache 0 ∅ "/api/reports" 7, Some 7) /\
  (forall d0 t0,
     setCache 0 (setCache t0 (∅ : cache nat) "/api/reports" d0) "/api/reports" 7 =
     setCache 0 ∅ "/api/reports" 7).
Proof.
  apply (cached_value_is_returned_while_fresh ∅ "/api/reports" 7 0 59999).
  unfold CACHE_TTL. lia.
Defined.

(** Witness of X10: the same entry read at time 60000. *)
Lemma stale_or_missing_entry_is_dropped_witness :
  getCached 60000 (setCache 0 (∅ : cache nat) "/api/reports" 7) "/api/reports" =
    (delete "/api/reports" ∅, None) /\
  (forall now', getCached now' (delete "/api/reports" (∅ : cache nat)) "/api/reports" =
                  (delete "/api/reports" ∅, None)) /\
  ((∅ : cache nat) !! "/api/reports" = None ->
   getCached 60000 (∅ : cache nat) "/api/reports" = (∅, None)).
Proof.
  apply (stale_or_missing_entry_is_dropped ∅ "/api/reports" 7 0 60000).
  unfold CACHE_TTL. lia.
Defined.

(** Witness of X11: two request paths. *)
Lemma cache_keys_are_independent_witness :
  (getCached 5 (setCache 0 (∅ : cache nat) "/api/reports" 7) "/api/stocks").2 =
    (getCached 5 (∅ : cache nat) "/api/stocks").2 /\
  (getCached 5 (∅ : cache nat) "/api/reports").1 !! "/api/stocks" =
    (∅ : cache nat) !! "/api/stocks".
Proof.
  apply (cache_keys_are_independent ∅ "/api/reports" "/api/stocks" 7 0 5).
  discriminate.
Defined.

End RequestCacheFacts.

(* ===================================================================== *)
(** * The chart series of [DataCharts] *)
(* ===================================================================== *)
Module DataChartsFacts.
Import JS DataCharts.

(** [slice(n)] with a negative [n] keeps the last [-n] elements. *)
Lemma slice_last {A : Type} (l : list A) (n : Z) :
  (n < 0)%Z -> slice_from l n = drop (length l - Z.to_nat (- n)) l.
Proof.
  intros Hn. unfold slice_from, slice, relative_index.
  destruct (Z.ltb_spec n 0); [|lia].
  destruct (Z.ltb_spec (Z.of_nat (length l)) 0); [lia|].
  rewrite Z.min_id.
  replace (Z.to_nat (Z.max (Z.of_nat (length l) + n) 0))
    with (length l - Z.to_nat (- n)) by lia.
  apply take_ge. rewrite length_drop. lia.
Qed.

(** X12. The three charts show the most recent points, oldest first: the
    annual chart the last five items of the trend, the cash-flow and the
    quarterly chart the last eight items of their series, each formatted
    by the row function; a shorter series is shown whole. *)
Theorem charts_show_the_latest_points (annualTrend : list AnnualItem.t)
  (cashFlow : list CashFlowItem.t) (growthQuarterly : list QuarterItem.t) :
  annualData annualTrend = annualRow <$> drop (length annualTrend - 5) annualTrend /\
  length (annualData annualTrend) = length annualTrend `min` 5 /\
  cashFlowData cashFlow = cashFlowRow <$> drop (length cashFlow - 8) cashFlow /\
  length (cashFlowData cashFlow) = length cashFlow `min` 8 /\
  quarterlyData growthQuarterly =
    quarterRow <$> drop (length growthQuarterly - 8) growthQuarterly /\
  length (quarterlyData growthQuarterly) = length growthQuarterly `min` 8.
Proof.
  unfold annualData, cashFlowData, quarterlyData.
  rewrite (slice_last annualTrend (-5)), (slice_last cashFlow (-8)),
    (slice_last growthQuarterly (-8)) by lia.
  change (Z.to_nat (- -5)) with 5. change (Z.to_nat (- -8)) with 8.
  rewrite !length_fmap, !length_drop. repeat split; lia.
Qed.
End DataChartsFacts.

(* ===================================================================== *)
(** * The industry comparison *)
(* ===================================================================== *)
Module IndustryComparisonFacts.
Import JS IndustryComparison Vocabulary FloatOrder.
Local Open Scope float_scope.

(** A capped value is never above the full mark. *)
Lemma capped_le (v : option float) (fullMark : float) :
  gt (capped v fullMark) fullMark = false.
Proof.
  unfold capped. destruct (gt (or_default v 0) fullMark) eqn:Hgt; [|exact Hgt].
  unfold gt. apply lt_irrefl.
Qed.

(** X13. No point of the radar lies outside its axis: on each of the
    five axes the value drawn for the stock and the value drawn for the
    industry are never above the full mark of the axis, whatever the
    metrics are; a missing metric is drawn at 0 on every axis. *)
Theorem radar_values_are_capped (stockData industryData : Metrics.t) :
  Forall (fun point =>
            gt (RadarPoint.stock point) (RadarPoint.fullMark point) = false /\
            gt (RadarPoint.industry point) (RadarPoint.fullMark point) = false)
         (radarData stockData industryData) /\
  Forall (fun m => capped None (Axis.fullMark m) = 0) radarMetrics.
Proof.
  split.
  - unfold radarData. apply Forall_fmap, Forall_forall. intros m _. cbn.
    split; apply capped_le.
  - unfold radarMetrics. repeat constructor.
Qed.

(** X14. The verdict on a difference has one direction: the same pair of
    values is never better than the industry both when higher is better
    and when lower is better, the magnitude shown is the same in both
    readings, and a difference of exactly zero is shown as worse than the
    industry in both. *)
Theorem verdict_has_one_direction (v1 v2 : float) (up down : bool)
  (m1 m2 : FixedString) :
  renderDiff (Some v1) (Some v2) true = Verdict up m1 ->
  renderDiff (Some v1) (Some v2) false = Verdict down m2 ->
  up && down = false /\
  m1 = m2 /\
  ((v1 - v2 =? 0) = true -> up = false /\ down = false).
Proof.
  cbn. intros Hup Hdown. injection Hup as <- <-. injection Hdown as <- <-.
  unfold gt, lt. split; [|split; [reflexivity|]].
  - destruct (0 <? v1 - v2) eqn:Hlt; [|reflexivity].
    cbn. apply lt_asym, Hlt.
  - intros Heq. apply eqb_cmp in Heq. split; apply not_true_is_false;
      rewrite ltb_cmp; unfold cmp in *.
    + rewrite SFcompare_antisym, Heq. discriminate.
    + rewrite Heq. discriminate.
Qed.

(** Witness of X14: the values 3 and 1. *)
Lemma verdict_has_one_direction_witness :
  true && false = false /\
  toFixed (PrimFloat.abs (3 - 1)) 2 = toFixed (PrimFloat.abs (3 - 1)) 2 /\
  ((3 - 1 =? 0) = true -> true = false /\ false = false).
Proof.
  apply (verdict_has_one_direction 3 1 true false
           (toFixed (PrimFloat.abs (3 - 1)) 2) (toFixed (PrimFloat.abs (3 - 1)) 2));
    reflexivity.
Defined.

End IndustryComparisonFacts.

(* ===================================================================== *)
(** * The life cycle of a subscription *)
(* ===================================================================== *)
Module LifecycleFacts.
Import EventBus Linkage Vocabulary Evaluation EventBusFacts.

(** [on] touches no other event type. *)
Lemma registered_on_other (b : ChartEventBus) (k k' : string) (h : handler) :
  wf b -> k <> k' -> registered (on b k h).1 k' = registered b k'.
Proof.
  intros (Hv & Hinj & _) Hne. rewrite on_unfold. cbn [fst].
  unfold with_set. destruct (listeners b !! k) as [r|] eqn:Hk.
  - rewrite Hk. unfold registered. cbn [listeners sets].
    destruct (listeners b !! k') as [r'|] eqn:Hk'; [|reflexivity].
    rewrite list_lookup_alter_ne; [reflexivity|].
    intros ->. apply Hne. eapply Hinj; eassumption.
  - cbn [listeners sets]. rewrite lookup_insert_eq. unfold registered.
    cbn [listeners sets]. rewrite lookup_insert_ne by exact Hne.
    destruct (listeners b !! k') as [r'|] eqn:Hk'; [|reflexivity].
    specialize (Hv k' r' Hk').
    rewrite list_lookup_alter_ne by lia. rewrite lookup_app_l by exact Hv.
    reflexivity.
Qed.

Lemma filter_keeps_all {A : Type} (P : A -> Prop) `{!forall x, Decision (P x)}
  (l : list A) :
  (forall x, x ∈ l -> P x) -> filter P l = l.
Proof.
  induction l as [|x l IH]; intros HP; [reflexivity|].
  rewrite filter_cons_True by (apply HP; left).
  rewrite IH; [reflexivity|]. intros y Hy. apply HP. right. exact Hy.
Qed.

Lemma filter_ne_fresh (l : list handler) (h : handler) :
  h ∉ l -> filter (fun x => x <> h) l = l.
Proof. intros Hnin. apply filter_keeps_all. intros x Hx ->. exact (Hnin Hx). Qed.

(** X15. [off] with a handler that is not registered under the event type
    (or with an event type nobody subscribed to) changes nothing in the
    bus and raises no error. *)
Theorem unsubscribing_a_stranger_changes_nothing (b : ChartEventBus)
  (eventType : string) (h : handler) :
  h ∉ registered b eventType -> off b eventType h = b.
Proof.
  intros Hnin. unfold off, registered in *.
  destruct (listeners b !! eventType) as [r|]; [|reflexivity].
  destruct b as [ls ss]. cbn in *. f_equal.
  transitivity (alter id r ss); [|apply list_alter_id; reflexivity].
  apply list_alter_ext; [|reflexivity].
  intros s Hs. rewrite Hs in Hnin. cbn in Hnin.
  apply set_delete_absent. rewrite <- elem_of_elements. exact Hnin.
Qed.

(** X16. Subscribing a handler that was not registered and then calling
    the returned function restores the registrations of every event type;
    the event type keeps its (possibly empty) [Set] in the map. *)
Theorem subscribe_then_unsubscribe_restores_registrations (b : ChartEventBus)
  (eventType : string) (h : handler) (other : string) :
  wf b -> h ∉ registered b eventType ->
  registered (unsubscribe (on b eventType h).1 (on b eventType h).2) other =
    registered b other /\
  is_Some (listeners (unsubscribe (on b eventType h).1 (on b eventType h).2) !! eventType).
Proof.
  intros Hwf Hnin. rewrite unsubscribe_on.
  pose proof (wf_on b eventType h Hwf) as Hwf'. split.
  - destruct (decide (eventType = other)) as [<-|Hne].
    + rewrite registered_off by exact Hwf'. rewrite registered_on by exact Hwf.
      rewrite bool_decide_eq_false_2 by exact Hnin.
      rewrite filter_app, filter_ne_fresh by exact Hnin.
      rewrite filter_cons_False by (intros Hh; apply Hh; reflexivity).
      rewrite filter_nil. apply app_nil_r.
    + rewrite registered_off_other by assumption.
      apply registered_on_other; assumption.
  - destruct (with_set_lookup b eventType Hwf) as (r & Hk & _).
    unfold off. rewrite on_unfold. cbn [fst]. rewrite Hk. cbn [listeners].
    rewrite Hk. cbn [listeners]. rewrite Hk. eexists. reflexivity.
Qed.

(** X17. After [clear] no handler is registered under any event type, a
    publish calls nothing and returns at once, and the first subscription
    under an event type starts from an empty set. *)
Theorem clear_forgets_every_handler (program : handler -> list action)
  (b : ChartEventBus) (eventType other : string) (h : handler) (p : payload)
  (fuel : nat) :
  registered (clear b) eventType = [] /\
  emit program fuel eventType p (fresh (clear b)) = Some (fresh (clear b), Normal) /\
  registered (on (clear b) eventType h).1 eventType = [h] /\
  (other <> eventType -> registered (on (clear b) eventType h).1 other = []).
Proof.
  split; [reflexivity|]. split; [reflexivity|].
  rewrite on_unfold. cbn [fst]. unfold with_set, clear. cbn [listeners sets].
  rewrite lookup_empty. cbn [listeners sets]. rewrite lookup_insert_eq.
  unfold registered. cbn [listeners sets]. split.
  - rewrite lookup_insert_eq, list_lookup_alter_eq.
    rewrite lookup_app_r by lia. rewrite Nat.sub_diag. reflexivity.
  - intros Hne. rewrite lookup_insert_ne by congruence. rewrite lookup_empty.
    reflexivity.
Qed.

(** ** Mounting and unmounting a linked chart *)

Lemma mount_snoc (b : ChartEventBus) (events : list eventConfig) (cfg : eventConfig) :
  mount b (events ++ [cfg]) =
    ((on (mount b events).1 (subscription cfg).1 (subscription cfg).2).1,
     (mount b events).2 ++ [subscription cfg]).
Proof. unfold mount. rewrite foldl_snoc. destruct (subscription cfg). reflexivity. Qed.

Lemma mount_tokens (b : ChartEventBus) (events : list eventConfig) :
  (mount b events).2 = subscription <$> events.
Proof.
  induction events as [|cfg events IH] using rev_ind; [reflexivity|].
  rewrite mount_snoc, fmap_app, IH. reflexivity.
Qed.

Lemma wf_mount (b : ChartEventBus) (events : list eventConfig) :
  wf b -> wf (mount b events).1.
Proof.
  intros Hwf. induction events as [|cfg events IH] using rev_ind; [exact Hwf|].
  rewrite mount_snoc. apply wf_on, IH.
Qed.

Lemma wf_cleanup (ts : list token) (b : ChartEventBus) :
  wf b -> wf (cleanup b ts).
Proof.
  revert b. induction ts as [|t ts IH]; intros b Hwf; [exact Hwf|].
  apply IH, wf_off, Hwf.
Qed.

(** What the cleanup leaves of the handlers of an event type. *)
Lemma registered_cleanup (ts : list token) (b : ChartEventBus) (k : string) :
  wf b ->
  registered (cleanup b ts) k = filter (fun h => (k, h) ∉ ts) (registered b k).
Proof.
  revert b. induction ts as [|[k' h'] ts IH]; intros b Hwf.
  - cbn. symmetry. apply filter_keeps_all. intros h _. apply not_elem_of_nil.
  - change (cleanup b ((k', h') :: ts)) with (cleanup (off b k' h') ts).
    rewrite IH by (apply wf_off, Hwf).
    destruct (decide (k' = k)) as [->|Hne].
    + rewrite registered_off by exact Hwf. rewrite list_filter_filter.
      apply list_filter_iff. intros h. rewrite not_elem_of_cons. split.
      * intros [Hh Hts]. split; [congruence|exact Hh].
      * intros [Hh Hts]. split; [exact Hts|congruence].
    + rewrite registered_off_other by assumption.
      apply list_filter_iff. intros h. rewrite not_elem_of_cons. split.
      * intros Hts. split; [congruence|exact Hts].
      * intros [_ Hts]. exact Hts.
Qed.

(** The handlers that the mount leaves apart are registered as before. *)
Lemma registered_mount (b : ChartEventBus) (events : list eventConfig) (k : string)
  (keep : handler -> Prop) `{!forall h, Decision (keep h)} :
  wf b ->
  (forall h, (k, h) ∈ subscription <$> events -> ~ keep h) ->
  filter keep (registered (mount b events).1 k) = filter keep (registered b k).
Proof.
  intros Hwf. induction events as [|cfg events IH] using rev_ind; intros Hkeep;
    [reflexivity|].
  rewrite mount_snoc. cbn [fst].
  assert (Hprev : filter keep (registered (mount b events).1 k)
                  = filter keep (registered b k)).
  { apply IH. intros h Hh. apply Hkeep. rewrite fmap_app, elem_of_app. left. exact Hh. }
  rewrite <- Hprev. pose proof (wf_mount b events Hwf) as Hwf'.
  destruct (decide ((subscription cfg).1 = k)) as [Hk|Hne].
  - rewrite Hk. rewrite registered_on by exact Hwf'.
    destruct (bool_decide _); [reflexivity|].
    rewrite filter_app. rewrite filter_cons_False, filter_nil, app_nil_r; [reflexivity|].
    apply Hkeep. rewrite fmap_app, elem_of_app. right.
    cbn. rewrite list_elem_of_singleton. rewrite <- Hk. destruct (subscription cfg); reflexivity.
  - rewrite registered_on_other by assumption. reflexivity.
Qed.

(** X18. Mounting a linked chart and running its cleanup leaves, under
    every event type, the handlers registered before that the chart did
    not subscribe itself, in their order.  When none of the chart's
    handlers was registered before, the registrations are as they were. *)
Theorem cleanup_removes_the_mounted_handlers (b : ChartEventBus)
  (events : list eventConfig) (eventType : string) :
  wf b ->
  registered (cleanup (mount b events).1 (mount b events).2) eventType =
    filter (fun h => (eventType, h) ∉ subscription <$> events) (registered b eventType) /\
  ((forall cfg, cfg ∈ events ->
      (subscription cfg).2 ∉ registered b (subscription cfg).1) ->
   registered (cleanup (mount b events).1 (mount b events).2) eventType =
     registered b eventType).
Proof.
  intros Hwf.
  assert (Heq : registered (cleanup (mount b events).1 (mount b events).2) eventType =
    filter (fun h => (eventType, h) ∉ subscription <$> events) (registered b eventType)).
  { rewrite registered_cleanup by (apply wf_mount, Hwf). rewrite mount_tokens.
    apply registered_mount; [exact Hwf|]. intros h Hh Hnot. exact (Hnot Hh). }
  split; [exact Heq|].
  intros Hfresh. rewrite Heq. apply filter_keeps_all.
  intros h Hreg Hin. apply list_elem_of_fmap in Hin as (cfg & Hcfg & Hev).
  specialize (Hfresh cfg Hev). rewrite <- Hcfg in Hfresh. exact (Hfresh Hreg).
Qed.

(** X19. The cleanup of a mount removes its handlers even when a later
    mount subscribed them again: a handler that two mounted charts share
    (the [handler] of a configuration is one function for all of them) is
    registered once and is gone after the first cleanup. *)
Theorem cleanup_ignores_later_mounts (b : ChartEventBus)
  (first second : list eventConfig) (eventType : string) (h : handler) :
  wf b ->
  (eventType, h) ∈ subscription <$> first ->
  h ∉ registered
        (cleanup (mount (mount b first).1 second).1 (mount b first).2) eventType.
Proof.
  intros Hwf Hin. rewrite registered_cleanup by (apply wf_mount, wf_mount, Hwf).
  rewrite mount_tokens, list_elem_of_filter. intros [Hnot _]. exact (Hnot Hin).
Qed.

(** Witness of X15: callback 2 on a bus where only callback 1 listens. *)
Lemma unsubscribing_a_stranger_changes_nothing_witness :
  off one_listener DATE_CLICK 2 = one_listener.
Proof.
  apply (unsubscribing_a_stranger_changes_nothing one_listener DATE_CLICK 2).
  by_evaluation.
Defined.

(** Witness of X16: callback 2 on a bus where callback 1 listens. *)
Lemma subscribe_then_unsubscribe_restores_registrations_witness :
  registered (unsubscribe (on one_listener DATE_CLICK 2).1
                          (on one_listener DATE_CLICK 2).2) DATE_CLICK =
    registered one_listener DATE_CLICK /\
  is_Some (listeners (unsubscribe (on one_listener DATE_CLICK 2).1
                                  (on one_listener DATE_CLICK 2).2) !! DATE_CLICK).
Proof.
  apply (subscribe_then_unsubscribe_restores_registrations one_listener DATE_CLICK 2
           DATE_CLICK).
  - apply wf_on, wf_new_bus.
  - by_evaluation.
Defined.

(** Witness of X18: the sample chart mounted on a bus where callback 1
    listens. *)
Lemma cleanup_removes_the_mounted_handlers_witness :
  registered (cleanup (mount one_listener sample_events).1
                      (mount one_listener sample_events).2) DATE_CLICK =
    filter (fun h => (DATE_CLICK, h) ∉ subscription <$> sample_events)
           (registered one_listener DATE_CLICK) /\
  ((forall cfg, cfg ∈ sample_events ->
      (subscription cfg).2 ∉ registered one_listener (subscription cfg).1) ->
   registered (cleanup (mount one_listener sample_events).1
                       (mount one_listener sample_events).2) DATE_CLICK =
     registered one_listener DATE_CLICK).
Proof.
  apply (cleanup_removes_the_mounted_handlers one_listener sample_events DATE_CLICK).
  apply wf_on, wf_new_bus.
Defined.

(** Witness of X19: the sample chart mounted twice, cleaned up once. *)
Lemma cleanup_ignores_later_mounts_witness :
  3 ∉ registered
        (cleanup (mount (mount new_bus sample_events).1 sample_events).1
                 (mount new_bus sample_events).2) DATA_RESET.
Proof.
  apply (cleanup_ignores_later_mounts new_bus sample_events sample_events DATA_RESET 3).
  - apply wf_new_bus.
  - by_evaluation.
Defined.

End LifecycleFacts.

(* ===================================================================== *)
(** * Further properties of a publish *)
(* ===================================================================== *)
Module PublishMoreFacts.
Import EventBus Linkage Vocabulary Evaluation EventBusFacts.

Lemma wf_run_action (a : action) (b : ChartEventBus) :
  wf b -> wf (run_action a b).1.
Proof.
  intros Hwf. destruct a as [k h|k h| |e]; cbn [run_action fst].
  - apply wf_on, Hwf.
  - apply wf_off, Hwf.
  - apply wf_clear, Hwf.
  - exact Hwf.
Qed.

Lemma wf_run_body (body : list action) (b : ChartEventBus) :
  wf b -> wf (run_body body b).1.
Proof.
  revert b. induction body as [|a body IH]; intros b Hwf; [exact Hwf|].
  cbn [run_body]. pose proof (wf_run_action a b Hwf) as Ha.
  destruct (run_action a b) as [b' [|e]]; cbn [fst] in *; [apply IH, Ha|exact Ha].
Qed.

Section Publish.
Variable program : handler -> list action.

Lemma forEach_safe (p : payload) (r : nat) :
  forall (fuel index : nat) (w w' : World) (c : completion),
    wf (bus w) ->
    forEach program fuel r index p w = Some (w', c) ->
    c = Normal /\
    wf (bus w') /\
    exists hs, calls w' = calls w ++ calls_of p hs /\
               console w' = console w ++ error_lines program hs.
Proof.
  induction fuel as [|fuel IH]; intros index w w' c Hwf Hrun; [discriminate Hrun|].
  cbn [forEach] in Hrun.
  destruct (default [] (sets (bus w) !! r) !! index) as [[h|]|].
  - destruct (guarded_call_spec program h p w) as (Hc & Hb & Hcalls & Hcons).
    destruct (guarded_call program h p w) as [w1 c1]. cbn [fst snd] in *.
    subst c1.
    assert (Hwf1 : wf (bus w1)) by (rewrite Hb; apply wf_run_body, Hwf).
    destruct (IH _ _ _ _ Hwf1 Hrun) as (-> & Hwf' & hs & Hcs & Hls).
    split; [reflexivity|]. split; [exact Hwf'|]. exists (h :: hs).
    rewrite Hcs, Hls, Hcalls, Hcons.
    change (h :: hs) with ([h] ++ hs). rewrite error_lines_app.
    unfold calls_of. rewrite fmap_app, !app_assoc. split; reflexivity.
  - apply (IH _ _ _ _ Hwf Hrun).
  - injection Hrun as <- <-. split; [reflexivity|]. split; [exact Hwf|].
    exists []. cbn. rewrite !app_nil_r. split; reflexivity.
Qed.

(** X20. No error of a handler leaves [emit]: whenever a publish returns,
    on whatever handlers, it returns normally; the store is well formed
    as before, and all that was added to the record of calls and to the
    console are the calls of some sequence of handlers with the payload
    and the error lines of those that threw. *)
Theorem publish_never_throws (eventType : string) (p : payload) (fuel : nat)
  (w w' : World) (c : completion) :
  wf (bus w) ->
  emit program fuel eventType p w = Some (w', c) ->
  c = Normal /\
  wf (bus w') /\
  exists hs, calls w' = calls w ++ calls_of p hs /\
             console w' = console w ++ error_lines program hs.
Proof.
  intros Hwf Hrun. unfold emit in Hrun.
  destruct (listeners (bus w) !! eventType) as [r|].
  - apply (forEach_safe p r fuel 0 w w' c Hwf Hrun).
  - injection Hrun as <- <-. split; [reflexivity|]. split; [exact Hwf|].
    exists []. cbn. rewrite !app_nil_r. split; reflexivity.
Qed.

(** ** [clear] in a handler *)

Lemma run_action_unlisted (k : string) (a : action) (b : ChartEventBus) :
  ~ touches k a -> listeners b !! k = None ->
  listeners (run_action a b).1 !! k = None.
Proof.
  intros Hq Hk. destruct a as [k' h|k' h| |e]; cbn [run_action fst touches] in *.
  - rewrite on_unfold. cbn [fst].
    assert (Hw : listeners (with_set b k') !! k = None).
    { unfold with_set. destruct (listeners b !! k'); [exact Hk|].
      cbn [listeners]. rewrite lookup_insert_ne by exact Hq. exact Hk. }
    destruct (listeners (with_set b k') !! k'); exact Hw.
  - unfold off. destruct (listeners b !! k'); exact Hk.
  - apply lookup_empty.
  - exact Hk.
Qed.

Lemma run_body_unlisted (k : string) (body : list action) (b : ChartEventBus) :
  Forall (fun a => ~ touches k a) body -> listeners b !! k = None ->
  listeners (run_body body b).1 !! k = None.
Proof.
  revert b. induction body as [|a body IH]; intros b Hq Hk; [exact Hk|].
  apply Forall_cons in Hq as [Ha Hq]. cbn [run_body].
  pose proof (run_action_unlisted k a b Ha Hk) as Hk'.
  destruct (run_action a b) as [b' [|e]]; cbn [fst] in *; [apply IH; assumption|exact Hk'].
Qed.

Lemma run_body_clears (k : string) (body : list action) (b : ChartEventBus) :
  Forall (fun a => ~ touches k a) body -> ClearAll ∈ body -> thrown body = None ->
  listeners (run_body body b).1 !! k = None.
Proof.
  revert b. induction body as [|a body IH]; intros b Hq Hin Hth.
  - apply elem_of_nil in Hin. destruct Hin.
  - apply Forall_cons in Hq as [Ha Hq]. apply elem_of_cons in Hin.
    destruct a as [k' h|k' h| |e]; cbn [run_body run_action thrown] in *.
    + destruct Hin as [Hin|Hin]; [discriminate Hin|]. apply IH; assumption.
    + destruct Hin as [Hin|Hin]; [discriminate Hin|]. apply IH; assumption.
    + apply run_body_unlisted; [exact Hq|apply lookup_empty].
    + discriminate Hth.
Qed.

Lemma after_calls_unlisted (k : string) (p : payload) (hs : list handler) (w : World) :
  Forall (quiet program k) hs -> listeners (bus w) !! k = None ->
  listeners (bus (after_calls program p hs w)) !! k = None.
Proof.
  revert w. induction hs as [|h hs IH]; intros w Hq Hk; [exact Hk|].
  apply Forall_cons in Hq as [Hh Hq]. rewrite after_calls_cons. apply IH; [exact Hq|].
  destruct (guarded_call_spec program h p w) as (_ & -> & _).
  apply run_body_unlisted; assumption.
Qed.

(** X21. A handler that calls [clear] does not stop the publish it runs
    in: when no registered handler subscribes or unsubscribes a handler of
    the event type, every handler registered at the start is still called,
    in order, and after the publish no handler is registered under the
    event type. *)
Theorem clear_in_a_handler_does_not_stop_the_publish (eventType : string)
  (p : payload) (fuel : nat) (w : World) (h : handler) :
  wf (bus w) ->
  Forall (quiet program eventType) (registered (bus w) eventType) ->
  length (slots (bus w) eventType) < fuel ->
  h ∈ registered (bus w) eventType ->
  ClearAll ∈ program h ->
  thrown (program h) = None ->
  exists w',
    emit program fuel eventType p w = Some (w', Normal) /\
    calls w' = calls w ++ calls_of p (registered (bus w) eventType) /\
    registered (bus w') eventType = [].
Proof.
  intros Hwf Hq Hfuel Hin Hclear Hth.
  exists (after_calls program p (registered (bus w) eventType) w).
  unfold emit, registered, slots in *.
  destruct (listeners (bus w) !! eventType) as [r|] eqn:Hk;
    [|apply elem_of_nil in Hin; destruct Hin].
  pose proof Hwf as (Hv & _ & _).
  destruct (lookup_lt_is_Some_2 (sets (bus w)) r (Hv _ _ Hk)) as [es Hes].
  rewrite Hes in *. cbn [default] in *. unfold id in *.
  split; [|split].
  - rewrite (forEach_quiet program eventType r p es 0 fuel w);
      [rewrite drop_0; reflexivity|apply wf_owns; assumption|exact Hes|lia|lia|
       rewrite drop_0; exact Hq].
  - apply after_calls_spec.
  - apply list_elem_of_split in Hin as (hs1 & hs2 & Hsplit). rewrite Hsplit in *.
    apply Forall_app in Hq as [_ Hq]. apply Forall_cons in Hq as [Hh Hq].
    rewrite after_calls_app, after_calls_cons.
    rewrite after_calls_unlisted; [reflexivity|exact Hq|].
    destruct (guarded_call_spec program h p (after_calls program p hs1 w)) as (_ & -> & _).
    apply run_body_clears; assumption.
Qed.

End Publish.

(** ** A handler that subscribes itself again *)

Lemma set_delete_elem (s : CallbackSet) (cb : handler) (e : option handler) :
  e ∈ set_delete s cb -> e = None \/ e ∈ s.
Proof.
  induction s as [|x s IH]; cbn; [intros He; right; exact He|].
  destruct (decide (x = Some cb)).
  - rewrite !elem_of_cons. intros [->|He]; [left; reflexivity|right; right; exact He].
  - rewrite !elem_of_cons. intros [->|He]; [right; left; reflexivity|].
    destruct (IH He) as [->|Hs]; [left; reflexivity|right; right; exact Hs].
Qed.

Lemma calm_quiet (program : handler -> list action) (k : string) (h : handler) :
  calm program k h -> quiet program k h.
Proof. intros Hc. eapply Forall_impl; [exact Hc|]. intros a [Ha _]. exact Ha. Qed.

Lemma run_action_listed (k : string) (r : nat) (a : action) (b : ChartEventBus) :
  ~ touches k a -> a <> ClearAll -> listeners b !! k = Some r ->
  listeners (run_action a b).1 !! k = Some r.
Proof.
  intros Hq Hc Hk. destruct a as [k' h|k' h| |e]; cbn [run_action fst touches] in *.
  - rewrite on_unfold. cbn [fst].
    assert (Hw : listeners (with_set b k') !! k = Some r).
    { unfold with_set. destruct (listeners b !! k'); [exact Hk|].
      cbn [listeners]. rewrite lookup_insert_ne by exact Hq. exact Hk. }
    destruct (listeners (with_set b k') !! k'); exact Hw.
  - unfold off. destruct (listeners b !! k'); exact Hk.
  - destruct Hc. reflexivity.
  - exact Hk.
Qed.

Lemma run_body_listed (k : string) (r : nat) (body : list action) (b : ChartEventBus) :
  Forall (fun a => ~ touches k a /\ a <> ClearAll) body ->
  listeners b !! k = Some r ->
  listeners (run_body body b).1 !! k = Some r.
Proof.
  revert b. induction body as [|a body IH]; intros b Hq Hk; [exact Hk|].
  apply Forall_cons in Hq as [[Ha Hc] Hq]. cbn [run_body].
  pose proof (run_action_listed k r a b Ha Hc Hk) as Hk'.
  destruct (run_action a b) as [b' [|e]]; cbn [fst] in *; [apply IH; assumption|exact Hk'].
Qed.

Section Loop.
Variable program : handler -> list action.
Variable eventType : string.
Variable h : handler.
Hypothesis Hloop : program h = [Unsubscribe eventType h; Subscribe eventType h].

(** The entries after the handler ran: an empty slot where it was, and
    the handler again at the end. *)
Lemma resubscribed (b : ChartEventBus) (r : nat) (es : CallbackSet) :
  listeners b !! eventType = Some r ->
  sets b !! r = Some es ->
  NoDup (elements es) ->
  listeners (run_body (program h) b).1 = listeners b /\
  length (sets (run_body (program h) b).1) = length (sets b) /\
  sets (run_body (program h) b).1 !! r = Some (set_delete es h ++ [Some h]).
Proof.
  intros Hk Hes Hnd. rewrite Hloop. cbn [run_body run_action fst].
  rewrite on_unfold. cbn [fst].
  assert (Hoff : off b eventType h =
    {| listeners := listeners b; sets := alter (fun s => set_delete s h) r (sets b) |}).
  { unfold off. rewrite Hk. reflexivity. }
  rewrite Hoff. rewrite (with_set_has _ eventType r) by exact Hk.
  cbn [listeners sets]. rewrite Hk. cbn [fst listeners sets].
  split; [reflexivity|]. rewrite !length_alter. split; [reflexivity|].
  rewrite !list_lookup_alter_eq, Hes. cbn. unfold set_add, set_has.
  rewrite bool_decide_eq_false_2; [reflexivity|].
  rewrite <- elem_of_elements, elements_set_delete by exact Hnd.
  rewrite list_elem_of_filter. intros [Hne _]. apply Hne. reflexivity.
Qed.

Lemma forEach_loops (p : payload) (r : nat) :
  forall (fuel index : nat) (w : World) (es : CallbackSet),
    owns (bus w) eventType r ->
    listeners (bus w) !! eventType = Some r ->
    sets (bus w) !! r = Some es ->
    NoDup (elements es) ->
    Some h ∈ drop index es ->
    (forall h', Some h' ∈ es -> h' <> h -> calm program eventType h') ->
    forEach program fuel r index p w = None.
Proof.
  induction fuel as [|fuel IH]; intros index w es Hown Hk Hes Hnd Hin Hq; [reflexivity|].
  cbn [forEach]. rewrite Hes. change (default [] (Some es)) with es.
  destruct (es !! index) as [e|] eqn:He.
  2:{ apply lookup_ge_None in He. rewrite drop_ge in Hin by exact He.
      apply elem_of_nil in Hin. destruct Hin. }
  rewrite (drop_S _ _ _ He) in Hin. apply elem_of_cons in Hin.
  destruct e as [h'|].
  - destruct (guarded_call_spec program h' p w) as (Hc & Hb & _).
    destruct (guarded_call program h' p w) as [w1 c1]. cbn [fst snd] in *. subst c1.
    destruct (decide (h' = h)) as [->|Hne].
    + destruct (resubscribed (bus w) r es Hk Hes Hnd) as (Hl & Hlen & Hs).
      rewrite <- Hb in Hl, Hlen, Hs.
      apply (IH (S index) w1 (set_delete es h ++ [Some h])).
      * destruct Hown as [Hr Ho]. split; [rewrite Hlen; exact Hr|].
        intros k. rewrite Hl. apply Ho.
      * rewrite Hl. exact Hk.
      * exact Hs.
      * rewrite elements_app. cbn. rewrite elements_set_delete by exact Hnd.
        apply NoDup_app. split; [apply NoDup_filter, Hnd|]. split; [|apply NoDup_singleton].
        intros x Hx. rewrite list_elem_of_filter in Hx. destruct Hx as [Hx _].
        rewrite list_elem_of_singleton. exact Hx.
      * rewrite drop_app_le by (rewrite set_delete_length; apply lookup_lt_Some in He; lia).
        rewrite elem_of_app. right. apply list_elem_of_singleton. reflexivity.
      * intros h' Hh' Hne. apply Hq; [|exact Hne].
        rewrite elem_of_app in Hh'. destruct Hh' as [Hh'|Hh'].
        -- destruct (set_delete_elem _ _ _ Hh') as [Hnone|Hs']; [discriminate Hnone|exact Hs'].
        -- apply list_elem_of_singleton in Hh'. congruence.
    + assert (Hqh : calm program eventType h').
      { apply Hq; [|exact Hne]. eapply list_elem_of_lookup_2, He. }
      assert (Hs1 : sets (bus w1) !! r = sets (bus w) !! r).
      { rewrite Hb. apply (run_body_quiet eventType r); [exact Hown|].
        apply calm_quiet, Hqh. }
      apply (IH (S index) w1 es).
      * rewrite Hb. apply run_body_owns, Hown.
      * rewrite Hb. apply run_body_listed; assumption.
      * rewrite Hs1. exact Hes.
      * exact Hnd.
      * destruct Hin as [Hin|Hin]; [congruence|exact Hin].
      * exact Hq.
  - apply (IH (S index) w es); try assumption.
    destruct Hin as [Hin|Hin]; [discriminate Hin|exact Hin].
Qed.

(** X22. A handler that takes itself off the event type and subscribes
    again while it runs is visited again by the same [forEach]: when the
    other registered handlers leave the event type alone and do not clear
    the bus, the publish does not return, whatever the number of
    iterations allowed. *)
Theorem resubscribing_handler_keeps_the_publish_running (p : payload)
  (fuel : nat) (w : World) :
  wf (bus w) ->
  h ∈ registered (bus w) eventType ->
  (forall h', h' ∈ registered (bus w) eventType -> h' <> h ->
              calm program eventType h') ->
  emit program fuel eventType p w = None.
Proof.
  intros Hwf Hin Hq. unfold emit, registered in *.
  destruct (listeners (bus w) !! eventType) as [r|] eqn:Hk;
    [|apply elem_of_nil in Hin; destruct Hin].
  pose proof Hwf as (Hv & _ & Hnd).
  destruct (lookup_lt_is_Some_2 (sets (bus w)) r (Hv _ _ Hk)) as [es Hes].
  rewrite Hes in *. change (default [] (Some es)) with es in *.
  apply (forEach_loops p r fuel 0 w es).
  - apply wf_owns; assumption.
  - exact Hk.
  - exact Hes.
  - eapply Hnd, Hes.
  - rewrite drop_0. apply elem_of_elements, Hin.
  - intros h' Hh'. apply Hq. apply elem_of_elements, Hh'.
Qed.

End Loop.
(** Witness of X20: callback 1 throws, callback 2 is idle. *)
Lemma publish_never_throws_witness :
  Normal = Normal /\
  wf (bus (after_calls thrower "p" [1; 2] (fresh two_listeners))) /\
  exists hs,
    calls (after_calls thrower "p" [1; 2] (fresh two_listeners)) =
      calls (fresh two_listeners) ++ calls_of "p" hs /\
    console (after_calls thrower "p" [1; 2] (fresh two_listeners)) =
      console (fresh two_listeners) ++ error_lines thrower hs.
Proof.
  apply (publish_never_throws thrower DATE_CLICK "p" 10 (fresh two_listeners)
           (after_calls thrower "p" [1; 2] (fresh two_listeners)) Normal).
  - apply wf_on, wf_on, wf_new_bus.
  - reflexivity.
Defined.

(** Witness of X21: callback 1 clears the bus, callback 2 is idle. *)
Lemma clear_in_a_handler_does_not_stop_the_publish_witness :
  exists w',
    emit clearer 10 DATE_CLICK "p" (fresh two_listeners) = Some (w', Normal) /\
    calls w' = calls (fresh two_listeners) ++
               calls_of "p" (registered (bus (fresh two_listeners)) DATE_CLICK) /\
    registered (bus w') DATE_CLICK = [].
Proof.
  apply (clear_in_a_handler_does_not_stop_the_publish clearer DATE_CLICK "p" 10
           (fresh two_listeners) 1).
  - apply wf_on, wf_on, wf_new_bus.
  - repeat constructor; intros [].
  - vm_compute. lia.
  - by_evaluation.
  - left.
  - reflexivity.
Defined.

(** Witness of X22: callback 1 subscribes itself again, callback 2 is idle. *)
Lemma resubscribing_handler_keeps_the_publish_running_witness :
  emit resubscriber 1000 DATE_CLICK "p" (fresh two_listeners) = None.
Proof.
  apply (resubscribing_handler_keeps_the_publish_running resubscriber DATE_CLICK 1).
  - reflexivity.
  - apply wf_on, wf_on, wf_new_bus.
  - by_evaluation.
  - intros h' Hh' Hne. unfold calm, resubscriber.
    destruct (decide (h' = 1)) as [->|_]; [destruct Hne; reflexivity|].
    apply Forall_nil_2.
Defined.

End PublishMoreFacts.

(* ===================================================================== *)
(** * The size of a resized chart *)
(* ===================================================================== *)

Module ChartContainerFacts.
Import JS ChartContainer Vocabulary FloatOrder.
Local Open Scope float_scope.

Lemma nan_lt (a : float) : (PrimFloat.nan <? a) = false.
Proof. rewrite FloatAxioms.ltb_spec. reflexivity. Qed.

Lemma zero_lt_zero (a b : float) :
  PrimFloat.classify a = NZero -> PrimFloat.classify b = PZero -> (b <? a) = false.
Proof.
  rewrite !FloatAxioms.classify_spec, FloatAxioms.ltb_spec.
  unfold SF64classify, SFclassify, SFltb.
  destruct (Prim2SF a) as [[|]|[|]| |[|] ma ea], (Prim2SF b) as [[|]|[|]| |[|] mb eb];
    cbn; try discriminate; try reflexivity;
    repeat match goal with |- context [if ?c then _ else _] => destruct c end;
    discriminate.
Qed.

(** [Math.max(a, b)] is never below [a], and it is [b] when [b] is above. *)
Lemma max_lower_bound (a b : float) : lt (max a b) a = false.
Proof.
  unfold max, lt. destruct (_ || _); [apply nan_lt|].
  destruct (a <? b) eqn:Hab; [apply lt_asym, Hab|].
  destruct (PrimFloat.classify a) eqn:Ha; try apply lt_irrefl.
  destruct (PrimFloat.classify b) eqn:Hb; try apply lt_irrefl.
  apply zero_lt_zero; assumption.
Qed.

Lemma lt_not_nan (a b : float) :
  (a <? b) = true -> PrimFloat.is_nan a = false /\ PrimFloat.is_nan b = false.
Proof.
  rewrite FloatAxioms.ltb_spec. unfold PrimFloat.is_nan.
  intros Hlt. split; apply not_true_is_false; intros Hn;
    apply negb_true_iff in Hn; rewrite FloatAxioms.eqb_spec in Hn;
    unfold SFltb, SFeqb in *.
  - destruct (Prim2SF a) as [[|]|[|]| |[|] ma ea]; cbn in *; try discriminate.
    + rewrite Z.compare_refl, Pos.compare_cont_refl in Hn. discriminate Hn.
    + rewrite Z.compare_refl, Pos.compare_cont_refl in Hn. discriminate Hn.
  - destruct (Prim2SF b) as [[|]|[|]| |[|] mb eb]; cbn in *; try discriminate;
      try (destruct (Prim2SF a) as [[|]|[|]| |[|] ma ea]; discriminate).
    + rewrite Z.compare_refl, Pos.compare_cont_refl in Hn. discriminate Hn.
    + rewrite Z.compare_refl, Pos.compare_cont_refl in Hn. discriminate Hn.
Qed.

Lemma max_above (a b : float) : gt b a = true -> max a b = b.
Proof.
  unfold gt, max, lt. intros Hab. destruct (lt_not_nan a b Hab) as [-> ->].
  cbn. rewrite Hab. reflexivity.
Qed.

(** X23. Dragging the resize handle never makes a chart smaller than 300
    by 200 pixels: while a resize is in progress the new width is not
    below 300 and the new height not below 200, wherever the pointer is,
    and above those minimums the size follows the pointer; when no resize
    is in progress a pointer move leaves the dimensions alone. *)
Theorem resized_chart_keeps_its_minimum_size (ref : ResizeRef)
  (clientX clientY : float) (dimensions : Dimensions) :
  (isResizing ref = false -> handleResize ref clientX clientY dimensions = dimensions) /\
  (isResizing ref = true ->
   exists w h,
     handleResize ref clientX clientY dimensions = {| width := Px w; height := Px h |} /\
     lt w 300 = false /\
     lt h 200 = false /\
     (gt (startWidth ref + (clientX - startX ref)) 300 = true ->
      w = startWidth ref + (clientX - startX ref)) /\
     (gt (startHeight ref + (clientY - startY ref)) 200 = true ->
      h = startHeight ref + (clientY - startY ref))).
Proof.
  unfold handleResize. split; intros ->; [reflexivity|]. cbn [negb].
  eexists. eexists. split; [reflexivity|].
  split; [apply max_lower_bound|]. split; [apply max_lower_bound|].
  split; apply max_above.
Qed.

End ChartContainerFacts.
